(** * LinkShades local gateway: a shallow embedding of [server.js]

    The development follows the layout of the source file:
    - JavaScript values and numbers as far as the server uses them;
    - the translation functions ([percentToCommand], [commandToPercent],
      [positionToPercent]);
    - the WebSocket frame codec ([parseWebSocketFrame],
      [sendWebSocketFrame]);
    - the server state (live-session map [connectedShades], record store
      [shadesDB], sockets and their per-connection closures) with the
      handlers of the ['upgrade'], ['data'] and ['close'] events and of
      the REST routes;
    - the theorems.

    Modelling conventions.
    - A byte is an [N] below 256; a [Buffer] is a [list N].  A text is a
      [string] read as the sequence of its UTF-8 bytes, so that
      [Buffer.from(text)] is the list of the character codes.
    - A JavaScript number is a double.  The value of an arithmetic
      expression is the rational that the double is, [NaN] or an
      infinity, and every operation ends with [roundToDouble], the
      rounding to the nearest double, which is a member of the class
      [Runtime] together with the one fact about it that the proofs use:
      a rational between two doubles is rounded to a double between them.
      The theorems about the translation functions are stated for
      integers of bounded magnitude, where this fact determines the
      result of [Math.round].  A number that is stored or travels in a
      JSON text is an integer ([chipID], [position], [version],
      [command]), [NaN] or an infinity.
    - A coercion that can throw ([String(v)], a template literal, an
      arithmetic operand) returns an [outcome]; the handlers follow the
      [try] blocks of the source, so that what was done before the throw
      stays done.
    - A time stamp ([new Date().toISOString()]) is the number of
      milliseconds it denotes; each [new Date()] is one reading of the
      clock.
    - The other builtins that the source calls ([JSON.parse], the
      string-to-number coercion, SHA-1, base64) are members of the class
      [Runtime] as well. *)

From Stdlib Require Import ZArith QArith Qround Lia Lqa List String Ascii.
From Stdlib Require DecimalString.
From stdpp Require Import gmap strings list fin_maps.

Local Open Scope Z_scope.

(** ** JavaScript numbers *)

(** The value of an arithmetic expression: a double, given as the
    rational it is, [NaN] or an infinity. *)
Inductive JSReal :=
| Rat (q : Q)
| RNaN
| RInf (negative : bool).

(** A number as it is stored and printed: every number the server keeps is
    the result of [Math.round], [parseInt] or a JSON integer.  An integer
    beyond 2^53 in magnitude stands for the double nearest to it. *)
Inductive JSNumber :=
| Int (z : Z)
| NaN
| Infinity (negative : bool).

Definition Qsign_neg (q : Q) : bool := (Qnum q <? 0)%Z.
Definition Qis_zero (q : Q) : bool := (Qnum q =? 0)%Z.

(** [Math.round]: the nearest integer, a tie going up.  The function is
    exact: it is not computed by an addition. *)
Definition Math_round (x : JSReal) : JSNumber :=
  match x with
  | Rat q => Int (Qfloor (q + (1 # 2)))
  | RNaN => NaN
  | RInf s => Infinity s
  end.

(** ** Texts *)

Definition char (code : nat) : string := String (ascii_of_nat code) EmptyString.
Definition dquote : string := char 34.
Definition backslash : string := char 92.
Definition CRLF : string := char 13 +:+ char 10.

(** [Buffer.from(text)] *)
Definition Buffer_from (text : string) : list N :=
  map N_of_ascii (list_ascii_of_string text).

(** Decimal digits of an integer. *)
Definition decimal (z : Z) : string :=
  DecimalString.NilZero.string_of_int (Z.to_int z).

Definition digit_value (c : ascii) : Z := Z.of_nat (nat_of_ascii c) - 48.

(** The integer that a text of digits denotes. *)
Definition digitsValue (digits : string) : Z :=
  fold_left (fun acc c => 10 * acc + digit_value c) (list_ascii_of_string digits) 0.

(** The characters that the text of a number can start with. *)
Definition numberHeads : list ascii := list_ascii_of_string "-0123456789".

(** ** JavaScript values *)

#[local] Unset Elimination Schemes.
Inductive JSValue :=
| JUndefined
| JNull
| JBool (b : bool)
| JNum (n : JSNumber)
| JStr (s : string)
| JArr (elems : list JSValue)
| JObj (props : list (string * JSValue)).
#[local] Set Elimination Schemes.

(** Truthiness, as tested by [if (v)] and [!v]. *)
Definition truthy (v : JSValue) : bool :=
  match v with
  | JUndefined | JNull => false
  | JBool b => b
  | JNum (Int z) => negb (z =? 0)
  | JNum NaN => false
  | JNum (Infinity _) => true
  | JStr s => negb (String.eqb s "")
  | JArr _ | JObj _ => true
  end.

(** *** Property access and thrown errors *)

(** The result of an expression that may throw. *)
Inductive outcome (A : Type) :=
| Returned (a : A)
| Thrown (error : string).
Arguments Returned {A} a.
Arguments Thrown {A} error.

Global Instance outcome_ret : MRet outcome := fun _ a => Returned a.
Global Instance outcome_bind : MBind outcome := fun _ _ f m =>
  match m with
  | Returned a => f a
  | Thrown e => Thrown e
  end.

Definition own_property (props : list (string * JSValue)) (key : string) : JSValue :=
  match find (fun p => String.eqb (fst p) key) props with
  | Some p => snd p
  | None => JUndefined
  end.

(** [Object.hasOwn(v, key)] for an object with the properties [props]. *)
Definition has_own (props : list (string * JSValue)) (key : string) : bool :=
  existsb (fun p => String.eqb (fst p) key) props.

(** [v.key] for the keys the server reads ([chipID], [model], [version],
    [position], [command]): none of them is a member of a builtin
    prototype, so only an object has them; reading a property of [null] or
    [undefined] throws a [TypeError]. *)
Definition get (v : JSValue) (key : string) : outcome JSValue :=
  match v with
  | JUndefined | JNull => Thrown "TypeError"
  | JObj props => Returned (own_property props key)
  | _ => Returned JUndefined
  end.

(** ** The builtins left abstract *)

(** The double [m / 2^e]. *)
Definition dyadic (m : Z) (e : N) : Q := m # Pos.shiftl 1 e.

Class Runtime := {
  (** [JSON.parse(bytes.toString('utf8'))]; [None] is a thrown
      [SyntaxError].  A parsed value holds neither [undefined] nor a
      number that is not finite; an object lists each of its keys once,
      in the order in which JavaScript enumerates them. *)
  JSON_parse : list N -> option JSValue;
  (** the number a text denotes when it is coerced by an arithmetic
      operator *)
  StringToNumber : string -> JSReal;
  (** [crypto.createHash('sha1').update(text).digest()] *)
  sha1 : string -> list N;
  (** the base64 text of a digest *)
  base64 : list N -> string;
  (** the double nearest to a rational, an infinity when the rational is
      out of range: the rounding that ends every arithmetic operation *)
  roundToDouble : Q -> JSReal;
  (** the text of an integer beyond 2^53 in magnitude: the digits of the
      double nearest to it, with an exponent from 10^21 on *)
  bigNumberText : Z -> string;
  (** Rounding is monotone and leaves a double as it is: a rational
      between two doubles [lo / 2^e] and [hi / 2^e] (significands within
      53 bits, exponent within the normal range) is rounded to a double
      between them. *)
  roundToDouble_between (x : Q) (lo hi : Z) (e : N) :
    (e <= 1000)%N -> Z.abs lo <= 2 ^ 53 -> Z.abs hi <= 2 ^ 53 ->
    (dyadic lo e <= x <= dyadic hi e)%Q ->
    exists q, roundToDouble x = Rat q /\ (dyadic lo e <= q <= dyadic hi e)%Q;
  (** The text of a number starts with a digit or a minus sign. *)
  bigNumberText_head (z : Z) :
    exists c rest, bigNumberText z = String c rest /\ c ∈ numberHeads
}.

(** ** Arithmetic and coercions *)

Section Arithmetic.
Context `{Runtime}.

(** The double that a stored number is. *)
Definition toReal (n : JSNumber) : JSReal :=
  match n with
  | Int z => roundToDouble (inject_Z z)
  | NaN => RNaN
  | Infinity s => RInf s
  end.

(** [a + b] *)
Definition radd (a b : JSReal) : JSReal :=
  match a, b with
  | RNaN, _ | _, RNaN => RNaN
  | RInf s, RInf t => if Bool.eqb s t then RInf s else RNaN
  | RInf s, Rat _ | Rat _, RInf s => RInf s
  | Rat x, Rat y => roundToDouble (x + y)
  end.

(** [a - b] *)
Definition rsub (a b : JSReal) : JSReal :=
  match a, b with
  | RNaN, _ | _, RNaN => RNaN
  | RInf s, RInf t => if Bool.eqb s t then RNaN else RInf s
  | RInf s, Rat _ => RInf s
  | Rat _, RInf s => RInf (negb s)
  | Rat x, Rat y => roundToDouble (x - y)
  end.

(** [a * b] *)
Definition rmul (a b : JSReal) : JSReal :=
  match a, b with
  | RNaN, _ | _, RNaN => RNaN
  | RInf s, RInf t => RInf (xorb s t)
  | RInf s, Rat y | Rat y, RInf s =>
      if Qis_zero y then RNaN else RInf (xorb s (Qsign_neg y))
  | Rat x, Rat y => roundToDouble (x * y)
  end.

(** [a / b]; a zero divisor is the positive zero (the only zero divisor of
    the source is the difference of two integers). *)
Definition rdiv (a b : JSReal) : JSReal :=
  match a, b with
  | RNaN, _ | _, RNaN => RNaN
  | RInf _, RInf _ => RNaN
  | RInf s, Rat y => RInf (xorb s (Qsign_neg y))
  | Rat _, RInf _ => Rat 0
  | Rat x, Rat y =>
      if Qis_zero y then
        if Qis_zero x then RNaN else RInf (Qsign_neg x)
      else roundToDouble (x / y)
  end.

(** [String(n)] for a number: up to 2^53 the digits of the integer. *)
Definition NumberToString (n : JSNumber) : string :=
  match n with
  | Int z => if Z.abs z <=? 2 ^ 53 then decimal z else bigNumberText z
  | NaN => "NaN"
  | Infinity false => "Infinity"
  | Infinity true => "-Infinity"
  end.

(** [parseInt(text)] for a text matched by [\d+]: the double nearest to
    the integer that the digits denote. *)
Definition parseInt (digits : string) : JSNumber :=
  Math_round (roundToDouble (inject_Z (digitsValue digits))).

(** [String(v)] and [`${v}`].  An object is turned into a text by its
    [toString]: for an array [Array.prototype.toString], which joins the
    texts of the elements; for another object [Object.prototype.toString],
    unless the object has a property [toString] of its own, which in a
    parsed value is never a function: then [valueOf] is tried, which is
    inherited and gives the object back, and the coercion throws a
    [TypeError]. *)
Fixpoint ToString (v : JSValue) : outcome string :=
  match v with
  | JUndefined => Returned "undefined"%string
  | JNull => Returned "null"%string
  | JBool true => Returned "true"%string
  | JBool false => Returned "false"%string
  | JNum n => Returned (NumberToString n)
  | JStr s => Returned s
  | JArr elems =>
      (fix join (l : list JSValue) : outcome string :=
         match l with
         | [] => Returned ""%string
         | x :: rest =>
             match (match x with
                    | JUndefined | JNull => Returned ""%string
                    | _ => ToString x
                    end) with
             | Thrown e => Thrown e
             | Returned item =>
                 match rest with
                 | [] => Returned item
                 | _ => match join rest with
                        | Thrown e => Thrown e
                        | Returned tail => Returned (item +:+ "," +:+ tail)%string
                        end
                 end
             end
         end) elems
  | JObj props =>
      if has_own props "toString" then Thrown "TypeError"
      else Returned "[object Object]"%string
  end.

(** [ToNumber], the coercion an arithmetic operator applies to an operand:
    an array or an object is first turned into its text ([valueOf], tried
    first, gives the object back), which throws as [String] does. *)
Definition ToNumber (v : JSValue) : outcome JSReal :=
  match v with
  | JUndefined => Returned RNaN
  | JNull => Returned (Rat 0)
  | JBool true => Returned (Rat 1)
  | JBool false => Returned (Rat 0)
  | JNum n => Returned (toReal n)
  | JStr s => Returned (StringToNumber s)
  | JArr _ | JObj _ => text ← ToString v; Returned (StringToNumber text)
  end.

(** *** [JSON.stringify] *)

Definition hex_digit (n : nat) : string :=
  String.substring n 1 "0123456789abcdef".

Definition escape_char (c : ascii) : string :=
  let n := nat_of_ascii c in
  if (n =? 34)%nat then backslash +:+ dquote
  else if (n =? 92)%nat then backslash +:+ backslash
  else if (n =? 8)%nat then backslash +:+ "b"
  else if (n =? 12)%nat then backslash +:+ "f"
  else if (n =? 10)%nat then backslash +:+ "n"
  else if (n =? 13)%nat then backslash +:+ "r"
  else if (n =? 9)%nat then backslash +:+ "t"
  else if (n <? 32)%nat then
    backslash +:+ "u00" +:+ hex_digit (n / 16) +:+ hex_digit (n mod 16)
  else String c EmptyString.

Definition quote (s : string) : string :=
  dquote +:+ String.concat "" (map escape_char (list_ascii_of_string s)) +:+ dquote.

(** [None] is the [undefined] that [JSON.stringify(undefined)] returns.  A
    property whose value is [undefined] is left out of an object, an
    [undefined] element of an array and a number that is not finite are
    printed as [null]. *)
Fixpoint JSON_stringify (v : JSValue) : option string :=
  match v with
  | JUndefined => None
  | JNull => Some "null"%string
  | JBool true => Some "true"%string
  | JBool false => Some "false"%string
  | JNum (Int z) => Some (NumberToString (Int z))
  | JNum _ => Some "null"%string
  | JStr s => Some (quote s)
  | JArr elems =>
      Some ("[" +:+
            (fix items (l : list JSValue) : string :=
               match l with
               | [] => ""
               | x :: rest =>
                   let item := match JSON_stringify x with
                               | Some t => t
                               | None => "null"
                               end in
                   match rest with
                   | [] => item
                   | _ => item +:+ "," +:+ items rest
                   end
               end) elems +:+ "]")%string
  | JObj props =>
      Some ("{" +:+
            (fix members (l : list (string * JSValue)) (first : bool) : string :=
               match l with
               | [] => ""
               | (k, x) :: rest =>
                   match JSON_stringify x with
                   | None => members rest first
                   | Some t =>
                       (if first then "" else ",") +:+ quote k +:+ ":" +:+ t
                       +:+ members rest false
                   end
               end) props true +:+ "}")%string
  end.
End Arithmetic.

(** ** Configuration *)

Record Config := {
  SHADE_MIN : Z;
  SHADE_MAX : Z
}.

(** [parseInt(process.env.SHADE_MIN) || 73], [... || 100] with no
    environment variable set. *)
Definition default_config : Config := {| SHADE_MIN := 73; SHADE_MAX := 100 |}.

(** The integers on which the theorems follow the arithmetic of doubles. *)
Definition moderate (z : Z) : Prop := Z.abs z <= 1000000.

(** ** Utility functions *)

Section Translation.
Context `{Runtime} (CONFIG : Config).

(** [Math.round(CONFIG.SHADE_MIN + (percent * range / 100))] *)
Definition percentToCommand (percent : JSValue) : outcome JSNumber :=
  let range := rsub (toReal (Int (SHADE_MAX CONFIG))) (toReal (Int (SHADE_MIN CONFIG))) in
  percent ← ToNumber percent;
  Returned (Math_round (radd (toReal (Int (SHADE_MIN CONFIG)))
                             (rdiv (rmul percent range) (Rat 100)))).

(** [Math.round((command - CONFIG.SHADE_MIN) * 100 / range)] *)
Definition commandToPercent (command : JSValue) : outcome JSNumber :=
  let range := rsub (toReal (Int (SHADE_MAX CONFIG))) (toReal (Int (SHADE_MIN CONFIG))) in
  command ← ToNumber command;
  Returned (Math_round (rdiv (rmul (rsub command (toReal (Int (SHADE_MIN CONFIG)))) (Rat 100))
                             range)).

(** [Math.round(position / 10)] *)
Definition positionToPercent (position : JSValue) : outcome JSNumber :=
  position ← ToNumber position;
  Returned (Math_round (rdiv position (Rat 10))).
End Translation.

(** ** WebSocket frames *)

Local Open Scope N_scope.

(** [buffer.length] *)
Definition blen (buffer : list N) : N := N.of_nat (length buffer).

(** [buffer[i]] *)
Definition byteAt (buffer : list N) (i : nat) : N := nth i buffer 0.

(** [buffer.slice(start, stop)] *)
Definition slice (buffer : list N) (start stop : N) : list N :=
  take (N.to_nat (stop - start)) (drop (N.to_nat start) buffer).

(** The unsigned integer written big-endian in a list of bytes. *)
Definition be_value (bytes : list N) : N :=
  fold_left (fun acc b => acc * 256 + b) bytes 0.

(** The [n] low bytes of [v], big-endian. *)
Fixpoint be_bytes (n : nat) (v : N) : list N :=
  match n with
  | O => []
  | S k => (v / 256 ^ N.of_nat k) mod 256 :: be_bytes k v
  end.

(** [buffer.readUIntBE(offset, size)]: a read that leaves the buffer
    throws a [RangeError]. *)
Definition readUIntBE (buffer : list N) (offset : N) (size : nat) : outcome N :=
  if blen buffer <? offset + N.of_nat size then Thrown "ERR_OUT_OF_RANGE"
  else Returned (be_value (slice buffer offset (offset + N.of_nat size))).

Definition readUInt16BE (buffer : list N) (offset : N) : outcome N :=
  readUIntBE buffer offset 2.

(** [Number(buffer.readBigUInt64BE(offset))]: the conversion to a number
    is exact below 2^53, and a buffer is shorter than that. *)
Definition readBigUInt64BE (buffer : list N) (offset : N) : outcome N :=
  readUIntBE buffer offset 8.

Record Frame := {
  opcode : N;
  payload : list N;
  totalLength : N
}.

(** The loop [for (i = 0; i < payload.length; i++) payload[i] ^= maskKey[i % 4]],
    entered at index [i] with the bytes from [i] on still to do. *)
Fixpoint unmask (maskKey : list N) (i : nat) (payload : list N) : list N :=
  match payload with
  | [] => []
  | b :: rest => N.lxor b (byteAt maskKey (i mod 4)) :: unmask maskKey (S i) rest
  end.

(** [parseWebSocketFrame]; [Returned None] is the [null] the source
    returns when the buffer holds no complete frame yet. *)
Definition parseWebSocketFrame (buffer : list N) : outcome (option Frame) :=
  if blen buffer <? 2 then Returned None else
  let firstByte := byteAt buffer 0 in
  let secondByte := byteAt buffer 1 in
  let opcode := N.land firstByte 0x0F in
  let masked := negb (N.land secondByte 0x80 =? 0) in
  let payloadLength := N.land secondByte 0x7F in
  let offset := 2 in
  header ← (if payloadLength =? 126 then
              if blen buffer <? 4 then Returned None
              else n ← readUInt16BE buffer 2; Returned (Some (n, 4))
            else if payloadLength =? 127 then
              if blen buffer <? 10 then Returned None
              else n ← readBigUInt64BE buffer 2; Returned (Some (n, 10))
            else Returned (Some (payloadLength, offset)));
  match header with
  | None => Returned None
  | Some (payloadLength, offset) =>
      let key := if masked then
                   if blen buffer <? offset + 4 then None
                   else Some (Some (slice buffer offset (offset + 4)), offset + 4)
                 else Some (None, offset) in
      match key with
      | None => Returned None
      | Some (maskKey, offset) =>
          if blen buffer <? offset + payloadLength then Returned None else
          let payload := slice buffer offset (offset + payloadLength) in
          let payload := match maskKey with
                         | Some maskKey => if masked then unmask maskKey 0 payload else payload
                         | None => payload
                         end in
          Returned (Some {| opcode := opcode; payload := payload;
                            totalLength := offset + payloadLength |})
      end
  end.

(** The frame that [sendWebSocketFrame] builds for a payload. *)
Definition encodeFrame (payload : list N) (opcode : N) : list N :=
  if blen payload <? 126 then
    [N.lor 0x80 opcode; blen payload] ++ payload
  else if blen payload <? 65536 then
    [N.lor 0x80 opcode; 126] ++ be_bytes 2 (blen payload) ++ payload
  else
    [N.lor 0x80 opcode; 127] ++ be_bytes 8 (blen payload) ++ payload.

Local Close Scope N_scope.

(** ** Server state *)

(** A value of [shadesDB.shades]; a field that has not been assigned is
    [undefined]. *)
Record DeviceRecord := {
  chipID : string;
  name : string;
  firstSeen : Z;
  lastSeen : Z;
  online : bool;
  model : JSValue;
  firmware : JSValue;
  rawPosition : JSValue;
  currentPosition : JSValue
}.

(** [shade.lastSeen = t; shade.online = true; shade.model = m;
    shade.firmware = f; shade.rawPosition = r]: the assignments of a
    status update before the position is translated. *)
Definition assignStatus (t : Z) (m f r : JSValue) (shade : DeviceRecord) : DeviceRecord :=
  {| chipID := chipID shade; name := name shade; firstSeen := firstSeen shade;
     lastSeen := t; online := true; model := m; firmware := f; rawPosition := r;
     currentPosition := currentPosition shade |}.

(** [shade.currentPosition = p] *)
Definition assignPosition (p : JSNumber) (shade : DeviceRecord) : DeviceRecord :=
  {| chipID := chipID shade; name := name shade; firstSeen := firstSeen shade;
     lastSeen := lastSeen shade; online := online shade; model := model shade;
     firmware := firmware shade; rawPosition := rawPosition shade;
     currentPosition := JNum p |}.

(** [shade.online = b] *)
Definition assignOnline (b : bool) (shade : DeviceRecord) : DeviceRecord :=
  {| chipID := chipID shade; name := name shade; firstSeen := firstSeen shade;
     lastSeen := lastSeen shade; online := b; model := model shade;
     firmware := firmware shade; rawPosition := rawPosition shade;
     currentPosition := currentPosition shade |}.

(** A connection, named by a number; [written] lists the buffers handed to
    [socket.write], oldest first. *)
Record Socket := {
  destroyed : bool;
  ended : bool;
  written : list (list N)
}.

(** The variables that the ['upgrade'] handler closes over, one pair per
    connection. *)
Record Session := {
  shadeChipID : option string;
  buffer : list N
}.

(** A call of [mqttClient.publish]; the discovery document is kept as the
    identity it is published for. *)
Inductive Publication :=
| PubDiscovery (chipID : string)
| PubPosition (chipID : string) (percent : string)
| PubAvailable (chipID : string) (online : bool).

Record Server := {
  (** [connectedShades], a [Map] from identity to socket *)
  connectedShades : gmap string nat;
  (** [shadesDB.shades] *)
  shadesDB : gmap string DeviceRecord;
  (** the content of [CONFIG.DATA_FILE], when the file exists *)
  dataFile : option (gmap string DeviceRecord);
  sockets : gmap nat Socket;
  sessions : gmap nat Session;
  (** [mqttClient && mqttClient.connected] *)
  mqttConnected : bool;
  published : list Publication;
  (** the readings of the clock and the number of them taken so far *)
  clock : nat -> Z;
  reads : nat;
  (** set once a handler has assigned through [Object.prototype] *)
  polluted : bool
}.

Definition set_connectedShades (f : gmap string nat -> gmap string nat) (s : Server) : Server :=
  {| connectedShades := f (connectedShades s); shadesDB := shadesDB s;
     dataFile := dataFile s; sockets := sockets s; sessions := sessions s;
     mqttConnected := mqttConnected s; published := published s;
     clock := clock s; reads := reads s; polluted := polluted s |}.

Definition set_shadesDB (f : gmap string DeviceRecord -> gmap string DeviceRecord) (s : Server) : Server :=
  {| connectedShades := connectedShades s; shadesDB := f (shadesDB s);
     dataFile := dataFile s; sockets := sockets s; sessions := sessions s;
     mqttConnected := mqttConnected s; published := published s;
     clock := clock s; reads := reads s; polluted := polluted s |}.

Definition set_dataFile (file : option (gmap string DeviceRecord)) (s : Server) : Server :=
  {| connectedShades := connectedShades s; shadesDB := shadesDB s;
     dataFile := file; sockets := sockets s; sessions := sessions s;
     mqttConnected := mqttConnected s; published := published s;
     clock := clock s; reads := reads s; polluted := polluted s |}.

Definition set_sockets (f : gmap nat Socket -> gmap nat Socket) (s : Server) : Server :=
  {| connectedShades := connectedShades s; shadesDB := shadesDB s;
     dataFile := dataFile s; sockets := f (sockets s); sessions := sessions s;
     mqttConnected := mqttConnected s; published := published s;
     clock := clock s; reads := reads s; polluted := polluted s |}.

Definition set_sessions (f : gmap nat Session -> gmap nat Session) (s : Server) : Server :=
  {| connectedShades := connectedShades s; shadesDB := shadesDB s;
     dataFile := dataFile s; sockets := sockets s; sessions := f (sessions s);
     mqttConnected := mqttConnected s; published := published s;
     clock := clock s; reads := reads s; polluted := polluted s |}.

Definition set_mqttConnected (b : bool) (s : Server) : Server :=
  {| connectedShades := connectedShades s; shadesDB := shadesDB s;
     dataFile := dataFile s; sockets := sockets s; sessions := sessions s;
     mqttConnected := b; published := published s;
     clock := clock s; reads := reads s; polluted := polluted s |}.

Definition publish (messages : list Publication) (s : Server) : Server :=
  {| connectedShades := connectedShades s; shadesDB := shadesDB s;
     dataFile := dataFile s; sockets := sockets s; sessions := sessions s;
     mqttConnected := mqttConnected s; published := published s ++ messages;
     clock := clock s; reads := reads s; polluted := polluted s |}.

Definition set_polluted (s : Server) : Server :=
  {| connectedShades := connectedShades s; shadesDB := shadesDB s;
     dataFile := dataFile s; sockets := sockets s; sessions := sessions s;
     mqttConnected := mqttConnected s; published := published s;
     clock := clock s; reads := reads s; polluted := true |}.

(** [new Date().toISOString()]: one reading of the clock. *)
Definition now (s : Server) : Z * Server :=
  (clock s (reads s),
   {| connectedShades := connectedShades s; shadesDB := shadesDB s;
      dataFile := dataFile s; sockets := sockets s; sessions := sessions s;
      mqttConnected := mqttConnected s; published := published s;
      clock := clock s; reads := S (reads s); polluted := polluted s |}).

(** ** Data storage *)

(** [loadData], run once when the process starts: the store is read from
    the data file when there is one and is empty otherwise.  The file is
    taken to hold a store, that is what [saveData] wrote. *)
Definition loadData (file : option (gmap string DeviceRecord)) : gmap string DeviceRecord :=
  match file with
  | Some shades => shades
  | None => ∅
  end.

(** [saveData]; the write is taken to succeed. *)
Definition saveData (s : Server) : Server :=
  set_dataFile (Some (shadesDB s)) s.

(** The state of a process that has just started. *)
Definition boot (file : option (gmap string DeviceRecord)) (clock : nat -> Z) (reads : nat) : Server :=
  {| connectedShades := ∅; shadesDB := loadData file; dataFile := file;
     sockets := ∅; sessions := ∅; mqttConnected := false; published := [];
     clock := clock; reads := reads; polluted := false |}.

(** The members that every object inherits from [Object.prototype]: a
    lookup of one of these names in [shadesDB.shades] finds the inherited
    member when the store has no record of that name. *)
Definition objectPrototypeMembers : list string :=
  ["constructor"; "__defineGetter__"; "__defineSetter__"; "hasOwnProperty";
   "__lookupGetter__"; "__lookupSetter__"; "isPrototypeOf";
   "propertyIsEnumerable"; "toString"; "valueOf"; "__proto__";
   "toLocaleString"]%string.

(** The value of [shadesDB.shades[chipID]]. *)
Inductive Slot :=
| Own (shade : DeviceRecord)
| Inherited
| Missing.

Definition shadesDB_get (s : Server) (chipID : string) : Slot :=
  match shadesDB s !! chipID with
  | Some shade => Own shade
  | None =>
      if bool_decide (chipID ∈ objectPrototypeMembers) then Inherited else Missing
  end.

(** An assignment to a property of an inherited member lands on a builtin
    object; on [Object.prototype] itself when the member is [__proto__]. *)
Definition assignInherited (chipID : string) (s : Server) : Server :=
  if String.eqb chipID "__proto__" then set_polluted s else s.

(** ** Handlers *)

Definition WS_GUID : string := "258EAFA5-E914-47DA-95CA-C5AB0DC85B11".

(** The answer of a REST route. *)
Inductive Response :=
| Json (statusCode : Z) (body : string)
| BadRequest
| ShadeList (shades : list DeviceRecord)
| Health (connected total : nat) (mqtt : bool).

Section Handlers.
Context `{Runtime} (CONFIG : Config).

(** [socket.write(frame)]; a socket that was ended or destroyed takes no
    more bytes. *)
Definition socket_write (sock : nat) (frame : list N) (s : Server) : Server :=
  match sockets s !! sock with
  | Some so =>
      if destroyed so || ended so then s
      else set_sockets <[sock := {| destroyed := destroyed so; ended := ended so;
                                    written := written so ++ [frame] |}]> s
  | None => s
  end.

(** [socket.end()] *)
Definition socket_end (sock : nat) (s : Server) : Server :=
  set_sockets (alter (fun so => {| destroyed := destroyed so; ended := true;
                                   written := written so |}) sock) s.

(** [socket.destroy()] *)
Definition socket_destroy (sock : nat) (s : Server) : Server :=
  set_sockets (alter (fun so => {| destroyed := true; ended := ended so;
                                   written := written so |}) sock) s.

Definition sendWebSocketFrame (sock : nat) (data : list N) (opcode : N) (s : Server) : Server :=
  match sockets s !! sock with
  | Some so => if destroyed so then s else socket_write sock (encodeFrame data opcode) s
  | None => s
  end.

Definition sendToShade (sock : nat) (data : JSValue) (s : Server) : Server :=
  let json := match JSON_stringify data with
              | Some text => text
              | None => "undefined"%string
              end in
  sendWebSocketFrame sock (Buffer_from json) 1%N s.

Definition publishShadeDiscovery (chipID : string) (s : Server) : Server :=
  if mqttConnected s then publish [PubDiscovery chipID] s else s.

(** [publishShadeState]; the position is coerced as in
    [positionToPercent]. *)
Definition publishShadeState (chipID : string) (position : JSValue) (online : bool)
    (s : Server) : Server :=
  if mqttConnected s then
    match positionToPercent position with
    | Returned percent =>
        publish [PubPosition chipID (NumberToString percent); PubAvailable chipID online] s
    | Thrown _ => s
    end
  else s.

(** The object literal [{ chipID, name, firstSeen }]; [lastSeen] and
    [online] are assigned before the record is read, saved or
    published. *)
Definition newShade (chipID : string) (firstSeen : Z) : DeviceRecord :=
  {| chipID := chipID; name := "LinkShade " +:+ chipID; firstSeen := firstSeen;
     lastSeen := firstSeen; online := false; model := JUndefined;
     firmware := JUndefined; rawPosition := JUndefined; currentPosition := JUndefined |}.

(** [shadeChipID = chipID; connectedShades.set(chipID, socket);] *)
Definition bindSession (sock : nat) (chipID : string) (s : Server) : Server :=
  let s := set_sessions (alter (fun c => {| shadeChipID := Some chipID;
                                            buffer := buffer c |}) sock) s in
  set_connectedShades <[chipID := sock]> s.

(** [if (!shadesDB.shades[chipID]) shadesDB.shades[chipID] = {...};] *)
Definition ensureRecord (chipID : string) (s : Server) : Server :=
  match shadesDB_get s chipID with
  | Missing =>
      let '(t, s) := now s in
      set_shadesDB <[chipID := newShade chipID t]> s
  | _ => s
  end.

(** [const shade = shadesDB.shades[chipID]; shade.lastSeen = ...;
    shade.online = true; shade.model = data.model; shade.firmware =
    data.version; shade.rawPosition = data.position;] *)
Definition assignFields (chipID : string) (model version position : JSValue) (s : Server)
    : Server :=
  let '(t, s) := now s in
  match shadesDB_get s chipID with
  | Own shade => set_shadesDB <[chipID := assignStatus t model version position shade]> s
  | Inherited => assignInherited chipID s
  | Missing => s
  end.

(** [shade.currentPosition = percent;] *)
Definition assignCurrent (chipID : string) (percent : JSNumber) (s : Server) : Server :=
  match shadesDB_get s chipID with
  | Own shade => set_shadesDB <[chipID := assignPosition percent shade]> s
  | Inherited => assignInherited chipID s
  | Missing => s
  end.

(** The texts that the log line of a status is made of. *)
Definition statusLog (model version position : JSValue) : outcome unit :=
  _ ← ToString position; _ ← ToString model; _ ← ToString version; Returned tt.

(** The body of [if (data.chipID) { ... }] after [String(data.chipID)].
    The translation of the position throws when the position cannot be
    coerced, after the other fields have been assigned and before the
    store is saved; the log line throws when the model or the version
    cannot be turned into a text, before anything is published.  The
    error is caught by the handler of the frame: what has been done stays
    done. *)
Definition ingestStatus (sock : nat) (chipID : string) (model version position : JSValue)
    (s : Server) : Server :=
  let s := bindSession sock chipID s in
  let s := ensureRecord chipID s in
  let s := assignFields chipID model version position s in
  match positionToPercent position with
  | Thrown _ => s
  | Returned percent =>
      let s := saveData (assignCurrent chipID percent s) in
      match statusLog model version position with
      | Thrown _ => s
      | Returned _ => publishShadeState chipID position true (publishShadeDiscovery chipID s)
      end
  end.

(** The [try { ... } catch] of a text or binary frame. *)
Definition onMessage (sock : nat) (payload : list N) (s : Server) : Server :=
  match JSON_parse payload with
  | None => s
  | Some data =>
      match (id ← get data "chipID";
             if truthy id then
               chipID ← ToString id;
               model ← get data "model";
               version ← get data "version";
               position ← get data "position";
               mret (ingestStatus sock chipID model version position s)
             else mret s) with
      | Returned s => s
      | Thrown _ => s
      end
  end.

Definition set_buffer (sock : nat) (buffer : list N) (s : Server) : Server :=
  set_sessions (alter (fun c => {| shadeChipID := shadeChipID c;
                                   buffer := buffer |}) sock) s.

(** The loop [while (buffer.length >= 2)] of the ['data'] handler; the
    closure variable [buffer] is written back when the loop is left.  The
    codec never throws ([parse_returns] below), so the branch of a thrown
    error is never taken. *)
Fixpoint readLoop (fuel : nat) (sock : nat) (buffer : list N) (s : Server) : Server :=
  match fuel with
  | O => set_buffer sock buffer s
  | S fuel =>
      if (blen buffer <? 2)%N then set_buffer sock buffer s else
      match parseWebSocketFrame buffer with
      | Thrown _ | Returned None => set_buffer sock buffer s
      | Returned (Some frame) =>
          let buffer := drop (N.to_nat (totalLength frame)) buffer in
          if (opcode frame =? 0x8)%N then
            set_buffer sock buffer (socket_end sock s)
          else if (opcode frame =? 0x9)%N then
            readLoop fuel sock buffer (sendWebSocketFrame sock (payload frame) 0xA%N s)
          else if (opcode frame =? 0xA)%N then
            readLoop fuel sock buffer s
          else if (opcode frame =? 0x1)%N || (opcode frame =? 0x2)%N then
            readLoop fuel sock buffer (onMessage sock (payload frame) s)
          else readLoop fuel sock buffer s
      end
  end.

(** [socket.on('data', ...)]; every turn of the loop takes at least two
    bytes off the buffer, so its length bounds the number of turns. *)
Definition onData (sock : nat) (data : list N) (s : Server) : Server :=
  match sessions s !! sock with
  | Some c =>
      let buffer := buffer c ++ data in
      readLoop (length buffer) sock buffer s
  | None => s
  end.

(** [if (shadeChipID)]: neither [null] nor the empty text. *)
Definition boundIdentity (c : Session) : option string :=
  match shadeChipID c with
  | Some chipID => if String.eqb chipID "" then None else Some chipID
  | None => None
  end.

(** [socket.on('close', ...)] *)
Definition onClose (sock : nat) (s : Server) : Server :=
  match sessions s !! sock with
  | Some c =>
      match boundIdentity c with
      | Some shadeChipID =>
          let s := set_connectedShades (delete shadeChipID) s in
          let s := match shadesDB_get s shadeChipID with
                   | Own shade =>
                       saveData (set_shadesDB <[shadeChipID := assignOnline false shade]> s)
                   | Inherited => saveData (assignInherited shadeChipID s)
                   | Missing => s
                   end in
          publishShadeState shadeChipID (JNum (Int 0)) false s
      | None => s
      end
  | None => s
  end.

(** [req.headers[...]]: a header that is absent or empty is falsy. *)
Definition header_truthy (value : option string) : bool :=
  match value with
  | Some text => negb (String.eqb text "")
  | None => false
  end.

(** The accept token of the handshake. *)
Definition acceptKey (key : string) : string := base64 (sha1 (key +:+ WS_GUID)).

Definition handshakeResponse (key : string) (protocol : option string) : string :=
  let responseHeaders :=
    ["HTTP/1.1 101 Switching Protocols"; "Upgrade: websocket"; "Connection: Upgrade";
     "Sec-WebSocket-Accept: " +:+ acceptKey key]%string in
  let responseHeaders :=
    match protocol with
    | Some p => if header_truthy protocol
                then responseHeaders ++ ["Sec-WebSocket-Protocol: " +:+ p]%string
                else responseHeaders
    | None => responseHeaders
    end in
  String.concat CRLF responseHeaders +:+ CRLF +:+ CRLF.

(** [server.on('upgrade', ...)] for the socket [sock]. *)
Definition onUpgrade (sock : nat) (key protocol : option string) (s : Server) : Server :=
  match key with
  | Some k =>
      if header_truthy key then
        let s := socket_write sock (Buffer_from (handshakeResponse k protocol)) s in
        set_sessions <[sock := {| shadeChipID := None; buffer := [] |}]> s
      else socket_destroy sock s
  | None => socket_destroy sock s
  end.

(** [POST /api/shades/{chipID}/position]; the translation of the
    position and the log line are inside the [try], before the lookup: a
    position that cannot be coerced is answered with status 400. *)
Definition postPosition (chipID : string) (body : list N) (s : Server) : Server * Response :=
  match JSON_parse body with
  | None => (s, BadRequest)
  | Some parsed =>
      match (position ← get parsed "position";
             command ← percentToCommand CONFIG position;
             _ ← ToString position;
             Returned (position, command)) with
      | Thrown _ => (s, BadRequest)
      | Returned (position, command) =>
          match connectedShades s !! chipID with
          | Some ws =>
              (sendToShade ws (JObj [("chipID", JNum (parseInt chipID));
                                     ("command", JNum command)]%string) s,
               Json 200 (default ""%string (JSON_stringify
                 (JObj [("status", JStr "sent"); ("chipID", JStr chipID);
                        ("position", position); ("command", JNum command)]%string))))
          | None =>
              (s, Json 200 (default ""%string (JSON_stringify
                 (JObj [("status", JStr "offline"); ("chipID", JStr chipID)]%string))))
          end
      end
  end.

(** [POST /api/shades/{chipID}/command]; the log line, inside the [try]
    and before the lookup, turns the command into a text. *)
Definition postCommand (chipID : string) (body : list N) (s : Server) : Server * Response :=
  match JSON_parse body with
  | None => (s, BadRequest)
  | Some parsed =>
      match (command ← get parsed "command";
             _ ← ToString command;
             Returned command) with
      | Thrown _ => (s, BadRequest)
      | Returned command =>
          match connectedShades s !! chipID with
          | Some ws =>
              (sendToShade ws (JObj [("chipID", JNum (parseInt chipID));
                                     ("command", command)]%string) s,
               Json 200 (default ""%string (JSON_stringify
                 (JObj [("status", JStr "sent"); ("chipID", JStr chipID);
                        ("command", command)]%string))))
          | None =>
              (s, Json 200 (default ""%string (JSON_stringify
                 (JObj [("status", JStr "offline"); ("chipID", JStr chipID)]%string))))
          end
      end
  end.

(** [POST /api/shades/{chipID}/test] *)
Definition postTest (chipID : string) (body : list N) (s : Server) : Server * Response :=
  match JSON_parse body with
  | None => (s, BadRequest)
  | Some data =>
      match connectedShades s !! chipID with
      | Some ws =>
          (sendToShade ws data s,
           Json 200 (default ""%string (JSON_stringify
             (JObj [("status", JStr "sent"); ("data", data)]%string))))
      | None =>
          (s, Json 200 (default ""%string (JSON_stringify
             (JObj [("status", JStr "offline")]%string))))
      end
  end.

(** [GET /api/shades]: every record with [online] recomputed from the
    live-session map. *)
Definition getShades (s : Server) : list DeviceRecord :=
  map (fun shade =>
         assignOnline (bool_decide (is_Some (connectedShades s !! chipID shade))) shade)
      (snd <$> map_to_list (shadesDB s)).

(** [GET /api/health] *)
Definition getHealth (s : Server) : Response :=
  Health (size (connectedShades s)) (size (shadesDB s)) (mqttConnected s).

(** The ['message'] handler of the MQTT client for the topic
    [linkshades/{chipID}/set]; [position] is [parseInt] of the message. *)
Definition onMqttSet (chipID : string) (position : JSNumber) (s : Server) : Server :=
  match percentToCommand CONFIG (JNum position) with
  | Returned command =>
      match connectedShades s !! chipID with
      | Some ws => sendToShade ws (JObj [("chipID", JNum (parseInt chipID));
                                         ("command", JNum command)]%string) s
      | None => s
      end
  | Thrown _ => s
  end.
End Handlers.

(** ** The server as a transition system *)

(** What happens to the process: connections that ask for an upgrade,
    send bytes and close; REST requests; the MQTT client; and a restart
    of the process. *)
Inductive Event :=
| Upgrade (sock : nat) (key protocol : option string)
| Data (sock : nat) (chunk : list N)
| Close (sock : nat)
| PostPosition (chipID : string) (body : list N)
| PostCommand (chipID : string) (body : list N)
| PostTest (chipID : string) (body : list N)
| GetShades
| GetHealth
| MqttConnection (connected : bool)
| MqttSet (chipID : string) (position : JSNumber)
| Restart.

Definition freshSocket : Socket := {| destroyed := false; ended := false; written := [] |}.

Section Machine.
Context `{Runtime} (CONFIG : Config).

(** Is the ['data'] or ['close'] handler of [sock] registered, with the
    socket still open? *)
Definition listening (s : Server) (sock : nat) : bool :=
  match sockets s !! sock, sessions s !! sock with
  | Some so, Some _ => negb (destroyed so)
  | _, _ => false
  end.

(** One event.  [None]: the event cannot happen in this state (an
    upgrade on a socket that is already known, bytes or a close on a
    socket that has no handlers or is closed). *)
Definition handle (s : Server) (e : Event) : option (Server * option Response) :=
  match e with
  | Upgrade sock key protocol =>
      match sockets s !! sock with
      | Some _ => None
      | None => Some (onUpgrade sock key protocol (set_sockets <[sock := freshSocket]> s), None)
      end
  | Data sock chunk =>
      if listening s sock then Some (onData sock chunk s, None) else None
  | Close sock =>
      if listening s sock then Some (onClose sock (socket_destroy sock s), None) else None
  | PostPosition chipID body =>
      let '(s, r) := postPosition CONFIG chipID body s in Some (s, Some r)
  | PostCommand chipID body =>
      let '(s, r) := postCommand chipID body s in Some (s, Some r)
  | PostTest chipID body =>
      let '(s, r) := postTest chipID body s in Some (s, Some r)
  | GetShades => Some (s, Some (ShadeList (getShades s)))
  | GetHealth => Some (s, Some (getHealth s))
  | MqttConnection connected => Some (set_mqttConnected connected s, None)
  | MqttSet chipID position => Some (onMqttSet CONFIG chipID position s, None)
  | Restart => Some (boot (dataFile s) (clock s) (reads s), None)
  end.

(** A run that assigns through [Object.prototype] (a status whose
    identity is the text [__proto__]) leaves the model: from then on
    every object of the process inherits the assigned fields, which the
    embedding does not follow. *)
Definition step (s : Server) (e : Event) : option (Server * option Response) :=
  match handle s e with
  | Some (s', r) => if polluted s' then None else Some (s', r)
  | None => None
  end.

Fixpoint run (s : Server) (events : list Event) : option Server :=
  match events with
  | [] => Some s
  | e :: rest =>
      match step s e with
      | Some (s', _) => run s' rest
      | None => None
      end
  end.

End Machine.

(** ** Frames on the wire

    The layout of one frame, used to state what the codec does: a first
    byte (flags and opcode), a second byte (mask flag and length code),
    the extended length when the code is 126 or 127, the mask key when
    the mask flag is set, and the payload bytes as they travel. *)

Inductive LengthEncoding :=
| Len7
| Len16
| Len64.

(** The lengths that an encoding can declare. *)
Definition fits (enc : LengthEncoding) (len : N) : Prop :=
  match enc with
  | Len7 => (len < 126)%N
  | Len16 => (len < 65536)%N
  | Len64 => (len < 2 ^ 64)%N
  end.

Definition headerSize (enc : LengthEncoding) : N :=
  match enc with
  | Len7 => 2
  | Len16 => 4
  | Len64 => 10
  end.

Definition lengthCode (enc : LengthEncoding) (len : N) : N :=
  match enc with
  | Len7 => len
  | Len16 => 126
  | Len64 => 127
  end.

Definition lengthField (enc : LengthEncoding) (len : N) : list N :=
  match enc with
  | Len7 => []
  | Len16 => be_bytes 2 len
  | Len64 => be_bytes 8 len
  end.

(** The masking of a payload: byte [i] is XOR-ed with byte [i mod 4] of
    the key.  Masking twice with one key gives the payload back. *)
Definition masked (key : list N) (bytes : list N) : list N :=
  imap (fun i b => N.lxor b (nth (i mod 4) key 0%N)) bytes.

Definition maskBit (maskKey : option (list N)) : N :=
  match maskKey with
  | Some _ => 1
  | None => 0
  end.

Definition wireFrame (firstByte : N) (enc : LengthEncoding) (maskKey : option (list N))
    (wire : list N) : list N :=
  [firstByte; (maskBit maskKey * 128 + lengthCode enc (blen wire))%N]
  ++ lengthField enc (blen wire) ++ default [] maskKey ++ wire.

Definition wellFormed (enc : LengthEncoding) (maskKey : option (list N)) (wire : list N) : Prop :=
  fits enc (blen wire) /\
  match maskKey with
  | Some key => length key = 4%nat
  | None => True
  end.

(** The message that a frame carries. *)
Definition decoded (firstByte : N) (enc : LengthEncoding) (maskKey : option (list N))
    (wire : list N) : Frame :=
  {| opcode := N.land firstByte 0x0F;
     payload := match maskKey with
                | Some key => unmask key 0 wire
                | None => wire
                end;
     totalLength := (headerSize enc + 4 * maskBit maskKey + blen wire)%N |}.

(** ** The registry

    The live-session map and the record store, and the agreement between
    them that the [online] flag is meant to express. *)

Definition sameRegistry (s s' : Server) : Prop :=
  connectedShades s' = connectedShades s /\ shadesDB s' = shadesDB s.

(** A record after [shade.currentPosition = positionToPercent(position)]:
    the assignment does not happen when the translation throws. *)
Definition translated `{Runtime} (position : JSValue) (shade : DeviceRecord) : DeviceRecord :=
  match positionToPercent position with
  | Returned percent => assignPosition percent shade
  | Thrown _ => shade
  end.

(** Every record is flagged online exactly when the live-session map has
    an entry for its identity. *)
Definition consistent (s : Server) : Prop :=
  forall k shade, shadesDB s !! k = Some shade ->
                  (online shade = true <-> is_Some (connectedShades s !! k)).

(** A data file, if there is one, whose records are all flagged offline. *)
Definition allOffline (file : option (gmap string DeviceRecord)) : Prop :=
  forall shades k shade, file = Some shades -> shades !! k = Some shade ->
                         online shade = false.

(** ** Replies and texts of the scenarios *)

(** The text [{"status":"offline","chipID":"<chipID>"}]. *)
Definition offlineReply (chipID : string) : string :=
  "{" +:+ quote "status" +:+ ":" +:+ quote "offline" +:+ ","
      +:+ quote "chipID" +:+ ":" +:+ quote chipID +:+ "}".

(** A frame as a device sends it: a final text frame, masked with [key]. *)
Definition clientText (key : list N) (text : string) : list N :=
  wireFrame 0x81 Len7 (Some key) (masked key (Buffer_from text)).

(** The status of the protocol description,
    [{"chipID":42,"position":850,"model":"wired","version":24}]. *)
Definition status42_text : string :=
  "{" +:+ dquote +:+ "chipID" +:+ dquote +:+ ":42,"
      +:+ dquote +:+ "position" +:+ dquote +:+ ":850,"
      +:+ dquote +:+ "model" +:+ dquote +:+ ":" +:+ dquote +:+ "wired" +:+ dquote +:+ ","
      +:+ dquote +:+ "version" +:+ dquote +:+ ":24}".

Definition status42 : JSValue :=
  JObj [("chipID", JNum (Int 42)); ("position", JNum (Int 850));
        ("model", JStr "wired"); ("version", JNum (Int 24))]%string.

(** The body [{"position":50}] of a request. *)
Definition position50_text : string :=
  "{" +:+ dquote +:+ "position" +:+ dquote +:+ ":50}".

Definition position50 : JSValue := JObj [("position", JNum (Int 50))]%string.

(** The command [{"chipID":42,"command":87}]. *)
Definition command87_text : string :=
  "{" +:+ dquote +:+ "chipID" +:+ dquote +:+ ":42,"
      +:+ dquote +:+ "command" +:+ dquote +:+ ":87}".

(** The reply [{"status":"sent","chipID":"42","position":50,"command":87}]. *)
Definition sent87_text : string :=
  "{" +:+ quote "status" +:+ ":" +:+ quote "sent" +:+ ","
      +:+ quote "chipID" +:+ ":" +:+ quote "42" +:+ ","
      +:+ quote "position" +:+ ":50," +:+ quote "command" +:+ ":87}".

(** A runtime for the runs below: [JSON.parse] is the given table; the
    rounding is the identity, which obeys the law of the class (on the
    numbers of these runs, [850 / 10] and [73 + 50 * 27 / 100], the
    doubles of the source are exact as well); the other builtins are
    stand-ins that the runs do not depend on. *)
Definition scriptedRuntime (parse : list N -> option JSValue) : Runtime.
Proof.
  refine {| JSON_parse := parse;
            StringToNumber := fun _ => RNaN;
            sha1 := fun text => Buffer_from text;
            base64 := fun digest => String.concat "" (map (fun b => char (N.to_nat b)) digest);
            roundToDouble := Rat;
            bigNumberText := decimal |}.
  - intros x lo hi e _ _ _ Hx. exists x. split; [reflexivity|exact Hx].
  - intros z. unfold decimal, numberHeads.
    destruct (Z.to_int z) as [d|d]; destruct d; cbn;
      eexists _, _; (split; [reflexivity|]); rewrite !elem_of_cons; tauto.
Defined.

(** The runtime whose [JSON.parse] knows the two texts above and nothing
    else. *)
Definition tableRuntime : Runtime :=
  scriptedRuntime (fun bytes =>
    if bool_decide (bytes = Buffer_from status42_text) then Some status42
    else if bool_decide (bytes = Buffer_from position50_text) then Some position50
    else None).

(** A clock that moves by one millisecond between any two readings. *)
Definition tick (n : nat) : Z := 1000 + Z.of_nat n.

(** Two sessions report the identity 42, the second after the first. *)
Definition rebinding : list Event :=
  [Upgrade 1 (Some "a"%string) None; Data 1 (clientText [1; 2; 3; 4]%N status42_text);
   Upgrade 2 (Some "b"%string) None; Data 2 (clientText [5; 6; 7; 8]%N status42_text)].

(** One session reports the identity 42. *)
Definition oneStatus : list Event :=
  [Upgrade 1 (Some "a"%string) None; Data 1 (clientText [1; 2; 3; 4]%N status42_text)].

(** The state after a run of the table runtime under the default
    calibration, started without a data file on the ticking clock. *)
Definition after (events : list Event) : Server :=
  default (boot None tick 0) (@run tableRuntime default_config (boot None tick 0) events).

(** A masked text frame that carries the two bytes of [hi]. *)
Definition hiKey : list N := [1; 2; 3; 4]%N.
Definition hiWire : list N := masked hiKey (Buffer_from "hi").

(** ** Frames as the server sends them *)

(** The length encoding that [sendWebSocketFrame] chooses. *)
Definition encodingFor (len : N) : LengthEncoding :=
  if (len <? 126)%N then Len7 else if (len <? 65536)%N then Len16 else Len64.

(** A socket after one more write. *)
Definition wrote (so : Socket) (frame : list N) : Socket :=
  {| destroyed := destroyed so; ended := ended so; written := written so ++ [frame] |}.

(** The text [{"chipID":<n>,"command":<c>}] that a command is sent as. *)
Definition commandText `{Runtime} (chipID : string) (command : JSNumber) : string :=
  default ""%string (JSON_stringify (JObj [("chipID", JNum (parseInt chipID));
                                           ("command", JNum command)]%string)).

(** The head [{"status":"sent"] of a reply. *)
Definition sentHead : string := "{" +:+ quote "status" +:+ ":" +:+ quote "sent".

(** ** The store and the data file *)

(** The live-session map, the store and the data file are what they were. *)
Definition sameStore (s s' : Server) : Prop :=
  connectedShades s' = connectedShades s /\ shadesDB s' = shadesDB s /\
  dataFile s' = dataFile s.

(** The fields of a record that are written once, when it is created. *)
Definition sameIdentity (shade shade' : DeviceRecord) : Prop :=
  chipID shade' = chipID shade /\ name shade' = name shade /\
  firstSeen shade' = firstSeen shade.

(** The data file holds the store, or neither has changed. *)
Definition savedSince (s s' : Server) : Prop :=
  (shadesDB s' = shadesDB s /\ dataFile s' = dataFile s) \/
  dataFile s' = Some (shadesDB s').

(** The store has lost no record and has rewritten none of the fields that
    a record is created with. *)
Definition recordsKept (s s' : Server) : Prop :=
  forall k shade, shadesDB s !! k = Some shade ->
                  exists shade', shadesDB s' !! k = Some shade' /\ sameIdentity shade shade'.

(** Every record is stored under its own identity, with the name the
    server gives it. *)
Definition keyed (shades : gmap string DeviceRecord) : Prop :=
  forall k shade, shades !! k = Some shade ->
                  chipID shade = k /\ name shade = ("LinkShade " +:+ k)%string.

(** The store and the data file are both keyed. *)
Definition wellKeyed (s : Server) : Prop :=
  keyed (shadesDB s) /\ keyed (loadData (dataFile s)).

Definition keepsKeyed (s s' : Server) : Prop := wellKeyed s -> wellKeyed s'.

(** Every identity of the live-session map has a record, or is the name of
    a member of [Object.prototype]. *)
Definition bindingsRecorded (s : Server) : Prop :=
  forall k sock, connectedShades s !! k = Some sock ->
                 is_Some (shadesDB s !! k) \/ k ∈ objectPrototypeMembers.

Definition keepsRecorded (s s' : Server) : Prop := bindingsRecorded s -> bindingsRecorded s'.

(** ** Further runs *)

(** A runtime whose [JSON.parse] knows the text [{}] and nothing else. *)
Definition emptyObjectRuntime : Runtime :=
  scriptedRuntime (fun bytes =>
    if bool_decide (bytes = Buffer_from "{}") then Some (JObj []) else None).

(** A session that has done the handshake and nothing else. *)
Definition handshaken : list Event := [Upgrade 1 (Some "a"%string) None].

(** A position that cannot be turned into a number or a text: the object
    [{"toString":1}]; and the status [{"chipID":42,"position":{"toString":1}}]
    that carries it. *)
Definition unreadablePosition : JSValue := JObj [("toString", JNum (Int 1))]%string.

Definition unreadable_text : string :=
  "{" +:+ dquote +:+ "chipID" +:+ dquote +:+ ":42,"
      +:+ dquote +:+ "position" +:+ dquote +:+ ":{"
      +:+ dquote +:+ "toString" +:+ dquote +:+ ":1}}".

Definition unreadableRuntime : Runtime :=
  scriptedRuntime (fun bytes =>
    if bool_decide (bytes = Buffer_from unreadable_text)
    then Some (JObj [("chipID", JNum (Int 42)); ("position", unreadablePosition)]%string)
    else None).

(** One session reports the identity 42 while the MQTT client is
    connected. *)
Definition oneStatusMqtt : list Event := MqttConnection true :: oneStatus.

(** One session reports the identity 42 and then sends a close frame. *)
Definition statusThenCloseFrame : list Event :=
  oneStatus ++ [Data 1 (wireFrame 0x88 Len7 (Some hiKey) [])].

(** * Properties *)

(** ** Texts *)

Lemma append_assoc (a b c : string) : (a +:+ b) +:+ c = a +:+ (b +:+ c).
Proof.
  induction a as [|x a IH]; [reflexivity|].
  change (String x ((a +:+ b) +:+ c) = String x (a +:+ (b +:+ c))). now rewrite IH.
Qed.

Lemma append_empty_r (a : string) : a +:+ "" = a.
Proof.
  induction a as [|x a IH]; [reflexivity|].
  change (String x (a +:+ "") = String x a). now rewrite IH.
Qed.

(** ** Numbers *)

(** A comparison of rationals with literal denominators, as one of
    integers. *)
Ltac compare_Q :=
  unfold dyadic, Qle, Qlt, Qeq, Qdiv, Qmult, Qinv, Qplus, Qminus, Qopp, inject_Z;
  cbn [Qnum Qden];
  repeat match goal with
         | |- context [Pos.shiftl 1 ?e] =>
             let v := eval vm_compute in (Pos.shiftl 1 e) in
             change (Pos.shiftl 1 e) with v
         end;
  cbn [Pos.mul Qnum Qden].

Lemma inject_Z_sub (a b : Z) : (inject_Z (a - b) == inject_Z a - inject_Z b)%Q.
Proof. unfold Z.sub, Qminus. rewrite inject_Z_plus, inject_Z_opp. reflexivity. Qed.

Section NumberFacts.
Context `{Runtime}.

Lemma dyadic_0 (z : Z) : (dyadic z 0 == inject_Z z)%Q.
Proof. reflexivity. Qed.

(** A double is rounded to itself. *)
Lemma round_exact (x : Q) (m : Z) (e : N) :
  (e <= 1000)%N -> Z.abs m <= 2 ^ 53 -> (x == dyadic m e)%Q ->
  exists q, roundToDouble x = Rat q /\ (q == dyadic m e)%Q.
Proof.
  intros He Hm Hx.
  destruct (roundToDouble_between x m m e He Hm Hm) as (q & Hq & Hlo & Hhi).
  { rewrite Hx. split; apply Qle_refl. }
  exists q. split; [exact Hq|]. apply Qle_antisym; assumption.
Qed.

Lemma round_integer (x : Q) (z : Z) :
  Z.abs z <= 2 ^ 53 -> (x == inject_Z z)%Q ->
  exists q, roundToDouble x = Rat q /\ (q == inject_Z z)%Q.
Proof.
  intros Hz Hx. destruct (round_exact x z 0) as (q & Hq & E); [lia|exact Hz|exact Hx|].
  exists q. split; [exact Hq|exact E].
Qed.

Lemma toReal_Int (z : Z) :
  Z.abs z <= 2 ^ 53 -> exists q, toReal (Int z) = Rat q /\ (q == inject_Z z)%Q.
Proof. intros Hz. apply round_integer; [exact Hz|reflexivity]. Qed.

(** [Math.round] of a double that lies within half of an integer. *)
Lemma Math_round_near (q : Q) (k : Z) :
  (inject_Z k - (1 # 2) <= q)%Q -> (q < inject_Z k + (1 # 2))%Q ->
  Math_round (Rat q) = Int k.
Proof.
  intros Hlo Hhi. cbn [Math_round]. f_equal.
  apply Z.le_antisymm.
  - apply Z.lt_succ_r. rewrite Zlt_Qlt.
    apply Qle_lt_trans with (q + (1 # 2))%Q; [apply Qfloor_le|].
    unfold Z.succ. rewrite inject_Z_plus. change (inject_Z 1) with 1%Q. lra.
  - rewrite <- (Qfloor_Z k). apply Qfloor_resp_le. lra.
Qed.

Lemma parseInt_value (digits : string) :
  Z.abs (digitsValue digits) <= 2 ^ 53 -> parseInt digits = Int (digitsValue digits).
Proof.
  intros Hv. unfold parseInt. set (v := digitsValue digits) in *.
  destruct (round_integer (inject_Z v) v Hv) as (q & -> & E); [reflexivity|].
  apply Math_round_near; rewrite E; lra.
Qed.


Lemma dyadic_half_lo (k h : Z) (e : N) :
  Z.pos (Pos.shiftl 1 e) = 2 * h ->
  (dyadic (2 * h * k - h) e == inject_Z k - (1 # 2))%Q.
Proof.
  intros Hh. unfold dyadic, Qeq, Qminus, Qplus, Qopp, inject_Z. cbn [Qnum Qden].
  rewrite Hh. change (Z.pos (1 * 2)) with 2. ring.
Qed.

Lemma dyadic_half_hi (k h : Z) (e : N) :
  Z.pos (Pos.shiftl 1 e) = 2 * h ->
  (dyadic (2 * h * k + h - 1) e < inject_Z k + (1 # 2))%Q.
Proof.
  intros Hh. unfold dyadic, Qlt, Qminus, Qplus, Qopp, inject_Z. cbn [Qnum Qden].
  rewrite Hh. change (Z.pos (1 * 2)) with 2. nia.
Qed.

Lemma dyadic_add_int (a z h : Z) (e : N) :
  Z.pos (Pos.shiftl 1 e) = 2 * h ->
  (dyadic (a + 2 * h * z) e == dyadic a e + inject_Z z)%Q.
Proof.
  intros Hh. unfold dyadic, Qeq, Qplus, inject_Z. cbn [Qnum Qden].
  rewrite Pos2Z.inj_mul, Hh. ring.
Qed.

(** The rounding of a rational that is at most half below an integer [k]
    and more than [1 / 2^e] short of the next tie: the double stays where
    the rational is, and [Math.round] gives [k]. *)
Lemma round_near (x : Q) (k h : Z) (e : N) :
  (e <= 1000)%N -> Z.pos (Pos.shiftl 1 e) = 2 * h ->
  (Z.abs k + 1) * (2 * h) <= 2 ^ 53 ->
  (dyadic (2 * h * k - h) e <= x <= dyadic (2 * h * k + h - 1) e)%Q ->
  exists q, roundToDouble x = Rat q /\
            (dyadic (2 * h * k - h) e <= q <= dyadic (2 * h * k + h - 1) e)%Q /\
            Math_round (Rat q) = Int k.
Proof.
  intros He Hh Hk Hx.
  assert (H0 : 0 < h) by lia.
  destruct (roundToDouble_between x (2 * h * k - h) (2 * h * k + h - 1) e)
    as (q & Hq & Hlo & Hhi); [exact He|nia|nia|exact Hx|].
  exists q. split; [exact Hq|]. split; [split; assumption|].
  pose proof (dyadic_half_lo k h e Hh). pose proof (dyadic_half_hi k h e Hh).
  apply Math_round_near; lra.
Qed.
Example ToString_number : ToString (JNum (Int 42)) = Returned "42"%string.
Proof. reflexivity. Qed.

Example ToString_array :
  ToString (JArr [JNum (Int 1); JNull; JStr "a"; JArr [JNum (Int (-2))]])
  = Returned "1,,a,-2"%string.
Proof. reflexivity. Qed.

Example ToString_own_toString :
  ToString (JObj [("toString", JNum (Int 1))]%string) = Thrown "TypeError".
Proof. reflexivity. Qed.

Example parseInt_42 : parseInt "42" = Int 42.
Proof. apply parseInt_value. vm_compute. discriminate. Qed.

Example stringify_command :
  JSON_stringify (JObj [("chipID", JNum (Int 42)); ("command", JNum (Int 87))]%string)
  = Some command87_text.
Proof. reflexivity. Qed.
End NumberFacts.

(** ** Translation functions *)

Section TranslationFacts.
Context `{Runtime}.

Lemma positionToPercent_Int (n : Z) :
  Z.abs n <= 2 ^ 40 ->
  positionToPercent (JNum (Int n)) = Returned (Int ((n + 5) / 10)).
Proof.
  intros Hn. unfold positionToPercent. cbn [ToNumber mbind outcome_bind].
  destruct (toReal_Int n) as (qn & -> & En); [lia|].
  cbn [rdiv]. change (Qis_zero 10) with false. cbv iota.
  set (k := (n + 5) / 10).
  pose proof (Z.mul_div_le (n + 5) 10 ltac:(lia)) as K1.
  pose proof (Z.mul_succ_div_gt (n + 5) 10 ltac:(lia)) as K2. fold k in K1, K2.
  destruct (round_near (qn / 10) k 64 7) as (q & -> & _ & ->);
    [lia|reflexivity|lia| |reflexivity].
  clearbody k. rewrite En. compare_Q. lia.
Qed.

(** [percentToCommand] on an integer percentage, in integer arithmetic. *)
Lemma percentToCommand_Int (CONFIG : Config) (p : Z) :
  moderate (SHADE_MIN CONFIG) -> moderate (SHADE_MAX CONFIG) -> moderate p ->
  percentToCommand CONFIG (JNum (Int p))
  = Returned (Int (SHADE_MIN CONFIG
                   + (2 * (p * (SHADE_MAX CONFIG - SHADE_MIN CONFIG)) + 100) / 200)).
Proof.
  destruct CONFIG as [mn mx]. cbn [SHADE_MIN SHADE_MAX]. unfold moderate. intros Hmn Hmx Hp.
  unfold percentToCommand. cbn [SHADE_MIN SHADE_MAX ToNumber mbind outcome_bind].
  destruct (toReal_Int mn) as (qmn & -> & Emn); [lia|].
  destruct (toReal_Int mx) as (qmx & -> & Emx); [lia|].
  destruct (toReal_Int p) as (qp & -> & Ep); [lia|].
  set (r := mx - mn).
  cbn [rsub].
  destruct (round_integer (qmx - qmn) r) as (qr & -> & Er);
    [lia|rewrite Emx, Emn; subst r; rewrite inject_Z_sub; reflexivity|].
  cbn [rmul].
  destruct (round_integer (qp * qr) (p * r)) as (qpr & -> & Epr);
    [nia|rewrite Ep, Er, inject_Z_mult; reflexivity|].
  cbn [rdiv]. change (Qis_zero 100) with false. cbv iota.
  set (j := (2 * (p * r) + 100) / 200).
  pose proof (Z.mul_div_le (2 * (p * r) + 100) 200 ltac:(lia)) as K1.
  pose proof (Z.mul_succ_div_gt (2 * (p * r) + 100) 200 ltac:(lia)) as K2. fold j in K1, K2.
  destruct (round_near (qpr / 100) j 64 7) as (y & -> & [Ylo Yhi] & _);
    [lia|reflexivity|nia| |].
  { clearbody j. rewrite Epr. compare_Q. lia. }
  cbn [radd].
  destruct (round_near (qmn + y) (mn + j) 64 7) as (z & -> & _ & ->);
    [lia|reflexivity|nia| |reflexivity].
  pose proof (dyadic_add_int (2 * 64 * j - 64) mn 64 7 eq_refl) as A1.
  pose proof (dyadic_add_int (2 * 64 * j + 64 - 1) mn 64 7 eq_refl) as A2.
  replace (2 * 64 * (mn + j) - 64) with (2 * 64 * j - 64 + 2 * 64 * mn) by ring.
  replace (2 * 64 * (mn + j) + 64 - 1) with (2 * 64 * j + 64 - 1 + 2 * 64 * mn) by ring.
  rewrite A1, A2, Emn. lra.
Qed.

(** [commandToPercent] on an integer command, for a calibration with
    [SHADE_MAX > SHADE_MIN]. *)
Lemma commandToPercent_Int (CONFIG : Config) (c : Z) :
  moderate (SHADE_MIN CONFIG) -> moderate (SHADE_MAX CONFIG) ->
  SHADE_MIN CONFIG < SHADE_MAX CONFIG ->
  Z.abs c <= 2 ^ 40 ->
  100 * Z.abs (c - SHADE_MIN CONFIG) <= 2 ^ 30 * (SHADE_MAX CONFIG - SHADE_MIN CONFIG) ->
  commandToPercent CONFIG (JNum (Int c))
  = Returned (Int ((200 * (c - SHADE_MIN CONFIG) + (SHADE_MAX CONFIG - SHADE_MIN CONFIG))
                   / (2 * (SHADE_MAX CONFIG - SHADE_MIN CONFIG)))).
Proof.
  destruct CONFIG as [mn mx]. cbn [SHADE_MIN SHADE_MAX]. unfold moderate.
  intros Hmn Hmx Hlt Hc Hd.
  unfold commandToPercent. cbn [SHADE_MIN SHADE_MAX ToNumber mbind outcome_bind].
  destruct (toReal_Int mn) as (qmn & -> & Emn); [lia|].
  destruct (toReal_Int mx) as (qmx & -> & Emx); [lia|].
  destruct (toReal_Int c) as (qc & -> & Ec); [lia|].
  set (r := mx - mn) in *. set (d := c - mn) in *.
  cbn [rsub].
  destruct (round_integer (qmx - qmn) r) as (qr & -> & Er);
    [lia|rewrite Emx, Emn; subst r; rewrite inject_Z_sub; reflexivity|].
  destruct (round_integer (qc - qmn) d) as (qd & -> & Ed);
    [lia|rewrite Ec, Emn; subst d; rewrite inject_Z_sub; reflexivity|].
  cbn [rmul].
  destruct (round_integer (qd * 100) (d * 100)) as (qd100 & -> & Ed100);
    [lia|rewrite Ed, inject_Z_mult; reflexivity|].
  cbn [rdiv].
  assert (Hz : Qis_zero qr = false).
  { unfold Qis_zero. apply Z.eqb_neq. intros Hq.
    assert (E0 : (qr == 0)%Q) by (unfold Qeq; cbn; lia).
    rewrite Er in E0. unfold Qeq, inject_Z in E0. cbn in E0. lia. }
  rewrite Hz.
  set (k := (200 * d + r) / (2 * r)).
  pose proof (Z.mul_div_le (200 * d + r) (2 * r) ltac:(lia)) as K1.
  pose proof (Z.mul_succ_div_gt (200 * d + r) (2 * r) ltac:(lia)) as K2. fold k in K1, K2.
  assert (Hk : Z.abs k <= 2 ^ 30 + 1) by nia.
  destruct (round_near (qd100 / qr) k 2097152 22) as (q & -> & _ & ->);
    [lia|reflexivity|lia| |reflexivity].
  rewrite Ed100, Er.
  assert (Hr : (0 < inject_Z r)%Q) by (rewrite <- (Zlt_Qlt 0); lia).
  split.
  - apply Qle_shift_div_l; [exact Hr|]. clearbody k. compare_Q. nia.
  - apply Qle_shift_div_r; [exact Hr|]. clearbody k. compare_Q. nia.
Qed.

(** The error of the round trip through the command scale: at most half
    a percent from each of the two roundings, the first one stretched by
    [100 / range]. *)
Lemma roundTrip_bound (CONFIG : Config) (p : Z) :
  moderate (SHADE_MIN CONFIG) -> moderate (SHADE_MAX CONFIG) -> moderate p ->
  SHADE_MIN CONFIG < SHADE_MAX CONFIG ->
  exists c q,
    percentToCommand CONFIG (JNum (Int p)) = Returned (Int c) /\
    commandToPercent CONFIG (JNum (Int c)) = Returned (Int q) /\
    2 * (SHADE_MAX CONFIG - SHADE_MIN CONFIG) * Z.abs (q - p)
    <= 100 + (SHADE_MAX CONFIG - SHADE_MIN CONFIG).
Proof.
  intros Hmn Hmx Hp Hlt. eexists _, _.
  split; [apply percentToCommand_Int; assumption|].
  set (r := SHADE_MAX CONFIG - SHADE_MIN CONFIG) in *.
  assert (Hr : 0 < r) by (subst r; lia).
  set (k := (2 * (p * r) + 100) / 200).
  pose proof (Z.mul_div_le (2 * (p * r) + 100) 200 ltac:(lia)) as K1.
  pose proof (Z.mul_succ_div_gt (2 * (p * r) + 100) 200 ltac:(lia)) as K2.
  fold k in K1, K2. unfold moderate in *.
  assert (Hk : 100 * Z.abs k <= Z.abs p * r + 100) by (clearbody k; nia).
  split.
  { apply commandToPercent_Int; try assumption.
    - clearbody k. nia.
    - replace (SHADE_MIN CONFIG + k - SHADE_MIN CONFIG) with k by lia. fold r.
      clearbody k. nia. }
  fold r. fold k. replace (SHADE_MIN CONFIG + k - SHADE_MIN CONFIG) with k by lia.
  set (q := (200 * k + r) / (2 * r)).
  pose proof (Z.mul_div_le (200 * k + r) (2 * r) ltac:(lia)) as Q1.
  pose proof (Z.mul_succ_div_gt (200 * k + r) (2 * r) ltac:(lia)) as Q2.
  fold q in Q1, Q2. clearbody k q.
  destruct (Z.abs_spec (q - p)) as [[_ ->]|[_ ->]]; nia.
Qed.

(** C2 (as the code has it).  For a calibration and a percentage that are
    integers of magnitude at most 1 000 000, where the doubles of the
    source give what exact arithmetic gives, the round trip through the
    command scale moves the percentage by at most [1/2 + 50 / (max - min)]:
    the rounding to a command is off by up to half a step of the command
    scale, and a step is [100 / (max - min)] percent.  The result is
    within 1 of the percentage whenever [max - min >= 34]; for a narrower
    calibration, the default one included, it can be 2 or more away. *)
Theorem roundTrip_within (CONFIG : Config) (p : Z) :
  moderate (SHADE_MIN CONFIG) -> moderate (SHADE_MAX CONFIG) -> moderate p ->
  SHADE_MIN CONFIG < SHADE_MAX CONFIG ->
  exists c q,
    percentToCommand CONFIG (JNum (Int p)) = Returned (Int c) /\
    commandToPercent CONFIG (JNum (Int c)) = Returned (Int q) /\
    2 * (SHADE_MAX CONFIG - SHADE_MIN CONFIG) * Z.abs (q - p)
    <= 100 + (SHADE_MAX CONFIG - SHADE_MIN CONFIG) /\
    (34 <= SHADE_MAX CONFIG - SHADE_MIN CONFIG -> Z.abs (q - p) <= 1).
Proof.
  intros Hmn Hmx Hp Hlt.
  destruct (roundTrip_bound CONFIG p Hmn Hmx Hp Hlt) as (c & q & Hc & Hq & Hb).
  exists c, q. repeat split; try assumption.
  intros Hr. nia.
Qed.
End TranslationFacts.

(** ** Frame codec *)

Section BufferFacts.
Local Open Scope N_scope.

Lemma blen_app (l m : list N) : blen (l ++ m) = blen l + blen m.
Proof. unfold blen. rewrite length_app. lia. Qed.

Lemma blen_cons (b : N) (l : list N) : blen (b :: l) = 1 + blen l.
Proof. unfold blen. simpl. lia. Qed.

Lemma blen_nil : blen [] = 0.
Proof. reflexivity. Qed.

Lemma byteAt_app_l (l m : list N) (i : nat) :
  (i < length l)%nat -> byteAt (l ++ m) i = byteAt l i.
Proof. intros Hi. unfold byteAt. apply app_nth1. exact Hi. Qed.

Lemma slice_app_l (l m : list N) (start stop : N) :
  stop <= blen l -> slice (l ++ m) start stop = slice l start stop.
Proof.
  unfold slice, blen. intros Hstop.
  destruct (N.le_gt_cases start (N.of_nat (length l))) as [Hs|Hs].
  - rewrite drop_app_le by lia. apply take_app_le. rewrite length_drop. lia.
  - replace (N.to_nat (stop - start)) with 0%nat by lia. reflexivity.
Qed.

(** The bytes between two fields of a buffer. *)
Lemma slice_mid (pre mid post : list N) (start stop : N) :
  start = blen pre -> stop = start + blen mid ->
  slice (pre ++ mid ++ post) start stop = mid.
Proof.
  unfold slice, blen. intros -> ->.
  rewrite drop_app_length'; [|lia].
  rewrite take_app_length'; [reflexivity|lia].
Qed.

Lemma be_bytes_length (n : nat) (v : N) : length (be_bytes n v) = n.
Proof. induction n as [|n IH]; simpl; [reflexivity|]. now rewrite IH. Qed.

Lemma be_value_app (l : list N) (b : N) : be_value (l ++ [b]) = be_value l * 256 + b.
Proof. unfold be_value. rewrite fold_left_app. reflexivity. Qed.

Lemma be_value_step (b : N) (l : list N) :
  be_value (b :: l) = b * 256 ^ N.of_nat (length l) + be_value l.
Proof.
  revert b. induction l as [|c l IH] using rev_ind; intros b.
  - unfold be_value. simpl. lia.
  - change (b :: l ++ [c]) with ((b :: l) ++ [c]). rewrite !be_value_app, IH.
    rewrite length_app. simpl.
    replace (N.of_nat (length l + 1)) with (N.succ (N.of_nat (length l))) by lia.
    rewrite N.pow_succ_r'. lia.
Qed.

Lemma be_value_be_bytes_mod (n : nat) (v : N) :
  be_value (be_bytes n v) = v mod 256 ^ N.of_nat n.
Proof.
  induction n as [|n IH].
  - simpl. rewrite N.mod_1_r. reflexivity.
  - cbn [be_bytes]. rewrite be_value_step, be_bytes_length, IH.
    replace (N.of_nat (S n)) with (N.succ (N.of_nat n)) by lia.
    rewrite N.pow_succ_r', (N.mul_comm 256), N.Div0.mod_mul_r. lia.
Qed.

(** Reading back what was written big-endian. *)
Lemma be_value_be_bytes (n : nat) (v : N) :
  v < 256 ^ N.of_nat n -> be_value (be_bytes n v) = v.
Proof. intros Hv. rewrite be_value_be_bytes_mod. apply N.mod_small, Hv. Qed.

(** Bit 7 of the second byte is the mask flag, the low seven bits are
    the length code. *)
Lemma land_127 (flag code : N) : code < 128 -> N.land (flag * 128 + code) 0x7F = code.
Proof.
  intros Hc. change 0x7F with (N.ones 7). rewrite N.land_ones.
  change (2 ^ 7) with 128. rewrite N.add_comm, N.Div0.mod_add. apply N.mod_small, Hc.
Qed.

Lemma land_128 (flag code : N) :
  flag < 2 -> code < 128 -> N.land (flag * 128 + code) 0x80 = flag * 128.
Proof.
  intros Hf Hc. apply N.bits_inj. unfold N.eqf. intros i.
  rewrite N.land_spec.
  assert (Hbit : N.testbit 0x80 i = (7 =? i)) by apply (N.pow2_bits_eqb 7 i).
  rewrite Hbit.
  destruct (N.eqb_spec 7 i) as [Hi|Hi].
  - subst i. rewrite andb_true_r. rewrite !N.testbit_eqb. change (2 ^ 7) with 128.
    rewrite N.add_comm, N.div_add, (N.div_small code), N.div_mul by lia. reflexivity.
  - rewrite andb_false_r. symmetry.
    assert (Hcases : flag = 0 \/ flag = 1) by lia.
    destruct Hcases as [-> | ->]; [reflexivity|].
    exact Hbit.
Qed.
End BufferFacts.

Section CodecFacts.
Local Open Scope N_scope.

(** The codec on a buffer cut into its fields. *)
Lemma parse_fields (b0 sb : N) (ext key wire rest : list N) :
  (if N.land sb 0x7F =? 126 then length ext = 2%nat /\ blen wire = be_value ext
   else if N.land sb 0x7F =? 127 then length ext = 8%nat /\ blen wire = be_value ext
   else ext = [] /\ blen wire = N.land sb 0x7F) ->
  length key = (if N.land sb 0x80 =? 0 then 0%nat else 4%nat) ->
  parseWebSocketFrame (b0 :: sb :: ext ++ key ++ wire ++ rest)
  = Returned (Some {| opcode := N.land b0 0x0F;
                      payload := if N.land sb 0x80 =? 0 then wire else unmask key 0 wire;
                      totalLength := 2 + blen ext + blen key + blen wire |}).
Proof.
  intros Hext Hkey.
  set (buffer := b0 :: sb :: ext ++ key ++ wire ++ rest).
  assert (Hlen : blen buffer = 2 + blen ext + blen key + blen wire + blen rest).
  { subst buffer. rewrite !blen_cons, !blen_app. lia. }
  assert (Sext : forall stop, stop = 2 + blen ext -> slice buffer 2 stop = ext).
  { intros stop ->. apply (slice_mid [b0; sb] ext (key ++ wire ++ rest)); reflexivity. }
  assert (Skey : forall start stop, start = 2 + blen ext -> stop = start + blen key ->
                                    slice buffer start stop = key).
  { intros start stop -> ->.
    apply (slice_mid (b0 :: sb :: ext) key (wire ++ rest));
      [rewrite !blen_cons; lia | reflexivity]. }
  assert (Swire : forall start stop, start = 2 + blen ext + blen key ->
                                     stop = start + blen wire ->
                                     slice buffer start stop = wire).
  { intros start stop -> ->. subst buffer. rewrite (app_assoc ext key).
    apply (slice_mid (b0 :: sb :: ext ++ key) wire rest);
      [rewrite !blen_cons, blen_app; lia | reflexivity]. }
  assert (Hk : blen key = if N.land sb 0x80 =? 0 then 0 else 4).
  { unfold blen. rewrite Hkey. destruct (N.land sb 0x80 =? 0); reflexivity. }
  unfold parseWebSocketFrame.
  replace (blen buffer <? 2) with false by (symmetry; apply N.ltb_ge; lia).
  change (byteAt buffer 0) with b0. change (byteAt buffer 1) with sb.
  destruct (N.land sb 0x7F =? 126) eqn:E126.
  - destruct Hext as [Hl Hv].
    assert (He : blen ext = 2) by (unfold blen; rewrite Hl; reflexivity).
    replace (blen buffer <? 4) with false by (symmetry; apply N.ltb_ge; lia).
    unfold readUInt16BE, readUIntBE.
    replace (blen buffer <? 2 + N.of_nat 2) with false by (symmetry; apply N.ltb_ge; lia).
    rewrite Sext by (rewrite He; reflexivity). cbn [mbind outcome_bind].
    rewrite <- Hv.
    destruct (N.land sb 0x80 =? 0) eqn:Em; cbn [negb].
    + replace (blen buffer <? 4 + blen wire) with false by (symmetry; apply N.ltb_ge; lia).
      rewrite Swire by lia. do 3 f_equal. lia.
    + replace (blen buffer <? 4 + 4) with false by (symmetry; apply N.ltb_ge; lia).
      replace (blen buffer <? 4 + 4 + blen wire) with false by (symmetry; apply N.ltb_ge; lia).
      rewrite Skey by lia. rewrite Swire by lia. do 3 f_equal. lia.
  - destruct (N.land sb 0x7F =? 127) eqn:E127.
    + destruct Hext as [Hl Hv].
      assert (He : blen ext = 8) by (unfold blen; rewrite Hl; reflexivity).
      replace (blen buffer <? 10) with false by (symmetry; apply N.ltb_ge; lia).
      unfold readBigUInt64BE, readUIntBE.
      replace (blen buffer <? 2 + N.of_nat 8) with false by (symmetry; apply N.ltb_ge; lia).
      rewrite Sext by (rewrite He; reflexivity). cbn [mbind outcome_bind].
      rewrite <- Hv.
      destruct (N.land sb 0x80 =? 0) eqn:Em; cbn [negb].
      * replace (blen buffer <? 10 + blen wire) with false by (symmetry; apply N.ltb_ge; lia).
        rewrite Swire by lia. do 3 f_equal. lia.
      * replace (blen buffer <? 10 + 4) with false by (symmetry; apply N.ltb_ge; lia).
        replace (blen buffer <? 10 + 4 + blen wire) with false
          by (symmetry; apply N.ltb_ge; lia).
        rewrite Skey by lia. rewrite Swire by lia. do 3 f_equal. lia.
    + destruct Hext as [Hl Hv]. subst ext.
      assert (He : blen (@nil N) = 0) by reflexivity.
      cbn [mbind outcome_bind]. rewrite <- Hv.
      destruct (N.land sb 0x80 =? 0) eqn:Em; cbn [negb].
      * replace (blen buffer <? 2 + blen wire) with false by (symmetry; apply N.ltb_ge; lia).
        rewrite Swire by lia. do 3 f_equal. lia.
      * replace (blen buffer <? 2 + 4) with false by (symmetry; apply N.ltb_ge; lia).
        replace (blen buffer <? 2 + 4 + blen wire) with false
          by (symmetry; apply N.ltb_ge; lia).
        rewrite Skey by lia. rewrite Swire by lia. do 3 f_equal. lia.
Qed.

(** A layout that is well formed decodes to the message it carries,
    whatever follows it in the buffer. *)
Lemma parse_wireFrame (firstByte : N) (enc : LengthEncoding) (maskKey : option (list N))
    (wire rest : list N) :
  wellFormed enc maskKey wire ->
  parseWebSocketFrame (wireFrame firstByte enc maskKey wire ++ rest)
  = Returned (Some (decoded firstByte enc maskKey wire)).
Proof.
  intros [Hfit Hkey]. unfold wireFrame, decoded.
  set (sb := maskBit maskKey * 128 + lengthCode enc (blen wire)).
  assert (Hcode : lengthCode enc (blen wire) < 128) by (destruct enc; simpl in *; lia).
  assert (Hbit : maskBit maskKey < 2) by (destruct maskKey; simpl; lia).
  assert (L7 : N.land sb 0x7F = lengthCode enc (blen wire)) by (apply land_127, Hcode).
  assert (L8 : N.land sb 0x80 = maskBit maskKey * 128) by (apply land_128; assumption).
  cbn [app]. rewrite <- !app_assoc.
  rewrite (parse_fields firstByte sb (lengthField enc (blen wire)) (default [] maskKey) wire rest).
  - rewrite L8. do 2 f_equal.
    assert (Hext : blen (lengthField enc (blen wire)) + 2 = headerSize enc).
    { unfold blen. destruct enc; cbn [lengthField headerSize];
        rewrite ?be_bytes_length; reflexivity. }
    destruct maskKey as [key|]; cbn [maskBit default]; f_equal.
    + unfold id, blen in *. rewrite Hkey. lia.
    + unfold blen in *. cbn [length]. lia.
  - rewrite L7. destruct enc; cbn [lengthCode lengthField fits] in *.
    + destruct (N.eqb_spec (blen wire) 126) as [E|_]; [lia|].
      destruct (N.eqb_spec (blen wire) 127) as [E|_]; [lia|]. split; reflexivity.
    + change (126 =? 126) with true. split; [apply be_bytes_length|].
      symmetry. apply be_value_be_bytes. exact Hfit.
    + change (127 =? 126) with false. change (127 =? 127) with true.
      split; [apply be_bytes_length|]. symmetry. apply be_value_be_bytes. exact Hfit.
  - rewrite L8. destruct maskKey as [key|]; cbn [maskBit default]; [exact Hkey|reflexivity].
Qed.

(** Applying the mask twice gives the bytes back. *)
Lemma unmask_involutive (maskKey : list N) (i : nat) (plain : list N) :
  unmask maskKey i (unmask maskKey i plain) = plain.
Proof.
  revert i. induction plain as [|b plain IH]; intros i; cbn [unmask]; [reflexivity|].
  rewrite IH. f_equal.
  rewrite N.lxor_assoc, N.lxor_nilpotent, N.lxor_0_r. reflexivity.
Qed.

Lemma unmask_length (maskKey : list N) (i : nat) (bytes : list N) :
  length (unmask maskKey i bytes) = length bytes.
Proof.
  revert i. induction bytes as [|b bytes IH]; intros i; cbn [unmask length]; [reflexivity|].
  now rewrite IH.
Qed.

Lemma ltb_app_false (buffer more : list N) (x : N) :
  (blen buffer <? x) = false -> (blen (buffer ++ more) <? x) = false.
Proof. rewrite !N.ltb_ge, blen_app. lia. Qed.

Lemma slice_app_ltb (buffer more : list N) (start stop : N) :
  (blen buffer <? stop) = false -> slice (buffer ++ more) start stop = slice buffer start stop.
Proof. rewrite N.ltb_ge. apply slice_app_l. Qed.

Ltac guard_in Hp :=
  match type of Hp with
  | context [blen ?buf <? ?x] =>
      let E := fresh "E" in
      destruct (blen buf <? x) eqn:E;
      [ | rewrite ?(ltb_app_false _ _ _ E), ?(slice_app_ltb _ _ _ _ E) ];
      cbn [mbind outcome_bind] in Hp |- *
  end.

(** More bytes behind a complete frame do not change what is decoded. *)
Lemma parse_stable (buffer more : list N) (f : Frame) :
  parseWebSocketFrame buffer = Returned (Some f) ->
  parseWebSocketFrame (buffer ++ more) = Returned (Some f).
Proof.
  unfold parseWebSocketFrame, readUInt16BE, readBigUInt64BE, readUIntBE. intros Hp.
  destruct (blen buffer <? 2) eqn:E2; [discriminate Hp|].
  rewrite (ltb_app_false _ _ _ E2).
  apply N.ltb_ge in E2. unfold blen in E2.
  rewrite !byteAt_app_l by lia.
  destruct (N.land (byteAt buffer 1) 127 =? 126);
    [|destruct (N.land (byteAt buffer 1) 127 =? 127)];
    (destruct (N.land (byteAt buffer 1) 128 =? 0);
     cbn [negb mbind outcome_bind] in Hp |- *;
     repeat guard_in Hp; try discriminate Hp; exact Hp).
Qed.

(** The codec never throws, and a decoded frame lies within the buffer and
    takes at least its two header bytes. *)
Lemma parse_returns (buffer : list N) :
  exists r, parseWebSocketFrame buffer = Returned r /\
            forall f, r = Some f -> 2 <= totalLength f <= blen buffer.
Proof.
  unfold parseWebSocketFrame, readUInt16BE, readBigUInt64BE, readUIntBE.
  destruct (N.ltb_spec (blen buffer) 2); [eexists; split; [reflexivity|discriminate]|].
  destruct (N.land (byteAt buffer 1) 127 =? 126);
    [|destruct (N.land (byteAt buffer 1) 127 =? 127)];
    (destruct (N.land (byteAt buffer 1) 128 =? 0); cbn [negb mbind outcome_bind];
     repeat match goal with
            | |- context [?a <? ?b] => destruct (N.ltb_spec a b); cbn [mbind outcome_bind]
            end;
     try lia;
     (eexists; split; [reflexivity|]; intros f [= <-]; cbn [totalLength]; lia)).
Qed.
End CodecFacts.

(** ** Handlers and the registry *)

Ltac server_simpl :=
  cbn [connectedShades shadesDB dataFile sockets sessions mqttConnected published
       clock reads polluted fst snd
       set_connectedShades set_shadesDB set_dataFile set_sockets set_sessions
       set_mqttConnected publish set_polluted now saveData] in *.

Section HandlerFacts.
Context `{Runtime} (CONFIG : Config).

Lemma sameRegistry_refl (s : Server) : sameRegistry s s.
Proof. split; reflexivity. Qed.

Lemma sameRegistry_trans (s1 s2 s3 : Server) :
  sameRegistry s1 s2 -> sameRegistry s2 s3 -> sameRegistry s1 s3.
Proof. intros [A B] [C D]. split; congruence. Qed.

Lemma socket_write_registry (sock : nat) (frame : list N) (s : Server) :
  sameRegistry s (socket_write sock frame s).
Proof.
  unfold socket_write. destruct (sockets s !! sock) as [so|]; [|apply sameRegistry_refl].
  destruct (destroyed so || ended so); split; reflexivity.
Qed.

Lemma sendWebSocketFrame_registry (sock : nat) (data : list N) (op : N) (s : Server) :
  sameRegistry s (sendWebSocketFrame sock data op s).
Proof.
  unfold sendWebSocketFrame. destruct (sockets s !! sock) as [so|]; [|apply sameRegistry_refl].
  destruct (destroyed so); [apply sameRegistry_refl|apply socket_write_registry].
Qed.

Lemma sendToShade_registry (sock : nat) (data : JSValue) (s : Server) :
  sameRegistry s (sendToShade sock data s).
Proof. apply sendWebSocketFrame_registry. Qed.

Lemma publishShadeState_registry (k : string) (position : JSValue) (b : bool) (s : Server) :
  sameRegistry s (publishShadeState k position b s).
Proof.
  unfold publishShadeState.
  destruct (mqttConnected s); [destruct (positionToPercent position)|]; split; reflexivity.
Qed.

Lemma publishShadeDiscovery_registry (k : string) (s : Server) :
  sameRegistry s (publishShadeDiscovery k s).
Proof. unfold publishShadeDiscovery. destruct (mqttConnected s); split; reflexivity. Qed.

(** *** The read loop *)

Lemma readLoop_insufficient (fuel sock : nat) (buffer : list N) (s : Server) :
  parseWebSocketFrame buffer = Returned None ->
  readLoop fuel sock buffer s = set_buffer sock buffer s.
Proof.
  intros Hp. destruct fuel as [|fuel]; cbn [readLoop]; [reflexivity|].
  rewrite Hp. destruct (blen buffer <? 2)%N; reflexivity.
Qed.

Lemma readLoop_short (fuel sock : nat) (buffer : list N) (s : Server) :
  (blen buffer < 2)%N -> readLoop fuel sock buffer s = set_buffer sock buffer s.
Proof.
  intros Hb. destruct fuel as [|fuel]; cbn [readLoop]; [reflexivity|].
  apply N.ltb_lt in Hb. rewrite Hb. reflexivity.
Qed.

(** The loop ends before the fuel of [onData] runs out: any larger amount
    of fuel gives the same state. *)
Lemma readLoop_fuel (fuel fuel' sock : nat) (buffer : list N) (s : Server) :
  (length buffer <= fuel)%nat -> (length buffer <= fuel')%nat ->
  readLoop fuel sock buffer s = readLoop fuel' sock buffer s.
Proof.
  revert fuel' buffer s.
  induction fuel as [|fuel IH]; intros fuel' buffer s Hf Hf'.
  - rewrite !readLoop_short; [reflexivity| |]; unfold blen; lia.
  - destruct fuel' as [|fuel'].
    { rewrite !readLoop_short; [reflexivity| |]; unfold blen; lia. }
    cbn [readLoop].
    destruct (blen buffer <? 2)%N; [reflexivity|].
    destruct (parse_returns buffer) as (r & -> & Hr).
    destruct r as [frame|]; [|reflexivity].
    specialize (Hr frame eq_refl).
    assert (Hd : (length (drop (N.to_nat (totalLength frame)) buffer) <= fuel)%nat
                 /\ (length (drop (N.to_nat (totalLength frame)) buffer) <= fuel')%nat).
    { rewrite length_drop. unfold blen in Hr. lia. }
    destruct Hd as [Hd Hd'].
    repeat match goal with
           | |- context [if ?c then _ else _] => destruct c
           end; try reflexivity; apply IH; assumption.
Qed.

(** *** Status ingestion and teardown *)

(** The translation of the position touches [currentPosition] only. *)
Lemma translated_fields (p : JSValue) (shade : DeviceRecord) :
  chipID (translated p shade) = chipID shade /\
  name (translated p shade) = name shade /\
  firstSeen (translated p shade) = firstSeen shade /\
  lastSeen (translated p shade) = lastSeen shade /\
  online (translated p shade) = online shade /\
  model (translated p shade) = model shade /\
  firmware (translated p shade) = firmware shade /\
  rawPosition (translated p shade) = rawPosition shade.
Proof. unfold translated. destruct (positionToPercent p); repeat split. Qed.

Lemma translated_online (p : JSValue) (shade : DeviceRecord) :
  online (translated p shade) = online shade.
Proof. apply translated_fields. Qed.

(** What a status does to the registry. *)
Lemma ingestStatus_registry (sock : nat) (k : string) (m v p : JSValue) (s : Server) :
  let s' := ingestStatus sock k m v p s in
  connectedShades s' = <[k := sock]> (connectedShades s) /\
  shadesDB s' =
    match shadesDB s !! k with
    | Some shade =>
        <[k := translated p (assignStatus (clock s (reads s)) m v p shade)]> (shadesDB s)
    | None =>
        if bool_decide (k ∈ objectPrototypeMembers) then shadesDB s
        else <[k := translated p (assignStatus (clock s (S (reads s))) m v p
                                               (newShade k (clock s (reads s))))]> (shadesDB s)
    end.
Proof.
  destruct s as [live db file socks sess mq pubs clk n poll].
  unfold ingestStatus, bindSession, ensureRecord, assignFields, assignCurrent, translated,
    shadesDB_get, publishShadeState, publishShadeDiscovery.
  server_simpl.
  destruct (db !! k) as [shade|] eqn:Ek.
  - server_simpl. rewrite ?Ek. server_simpl.
    destruct (positionToPercent p) as [q|]; [|split; reflexivity].
    server_simpl. rewrite ?lookup_insert_eq. server_simpl.
    destruct (statusLog m v p); [destruct mq|]; server_simpl;
      (split; [reflexivity|apply insert_insert_eq]).
  - destruct (bool_decide (k ∈ objectPrototypeMembers)) eqn:Ei.
    + server_simpl. rewrite ?Ek, ?Ei. unfold assignInherited.
      destruct (String.eqb k "__proto__"); server_simpl; rewrite ?Ek, ?Ei;
        (destruct (positionToPercent p) as [q|]; [|split; reflexivity]);
        server_simpl; rewrite ?Ek, ?Ei; server_simpl;
        (destruct (statusLog m v p); [destruct mq|]); split; reflexivity.
    + server_simpl. rewrite ?lookup_insert_eq. server_simpl.
      destruct (positionToPercent p) as [q|];
        [|server_simpl; split; [reflexivity|apply insert_insert_eq]].
      server_simpl. rewrite ?lookup_insert_eq. server_simpl.
      destruct (statusLog m v p); [destruct mq|]; server_simpl;
        (split; [reflexivity|rewrite !insert_insert_eq; reflexivity]).
Qed.

(** What the teardown of a session bound to [k] does to the registry. *)
Lemma onClose_registry (sock : nat) (c : Session) (k : string) (s : Server) :
  sessions s !! sock = Some c -> boundIdentity c = Some k ->
  connectedShades (onClose sock s) = delete k (connectedShades s) /\
  shadesDB (onClose sock s) = alter (assignOnline false) k (shadesDB s).
Proof.
  intros Hc Hk. unfold onClose. rewrite Hc, Hk.
  destruct s as [live db file socks sess mq pubs clk n poll].
  unfold shadesDB_get, publishShadeState. server_simpl.
  assert (Ha : forall shade, db !! k = Some shade ->
                 alter (assignOnline false) k db = <[k := assignOnline false shade]> db).
  { intros shade Hs. apply map_eq. intros i. rewrite lookup_alter, lookup_insert.
    destruct (decide (k = i)) as [->|]; [rewrite Hs|]; reflexivity. }
  assert (Hn : db !! k = None -> alter (assignOnline false) k db = db).
  { intros Hs. apply map_eq. intros i. rewrite lookup_alter.
    destruct (decide (k = i)) as [->|]; [rewrite Hs|]; reflexivity. }
  destruct (db !! k) as [shade|] eqn:Ek.
  - rewrite (Ha shade eq_refl). server_simpl. destruct mq; split; reflexivity.
  - rewrite (Hn eq_refl).
    destruct (bool_decide (k ∈ objectPrototypeMembers)); unfold assignInherited;
      [destruct (String.eqb k "__proto__")|];
      server_simpl; destruct mq; split; reflexivity.
Qed.

Lemma onClose_unbound (sock : nat) (s : Server) :
  (forall c, sessions s !! sock = Some c -> boundIdentity c = None) ->
  onClose sock s = s.
Proof.
  intros Hc. unfold onClose. destruct (sessions s !! sock) as [c|]; [|reflexivity].
  rewrite (Hc c eq_refl). reflexivity.
Qed.

(** *** The agreement between the flag and the live-session map *)

Lemma consistent_sameRegistry (s s' : Server) :
  sameRegistry s s' -> consistent s -> consistent s'.
Proof. intros [Hc Hd] Hs k shade. rewrite Hc, Hd. apply Hs. Qed.

Lemma ingestStatus_consistent (sock : nat) (k : string) (m v p : JSValue) (s : Server) :
  consistent s -> consistent (ingestStatus sock k m v p s).
Proof.
  intros Hs. destruct (ingestStatus_registry sock k m v p s) as [Hc Hd].
  intros i shade. rewrite Hc, Hd. clear Hc Hd.
  destruct (decide (k = i)) as [<-|Hne].
  - rewrite lookup_insert_eq.
    destruct (shadesDB s !! k) as [old|] eqn:Ek.
    + rewrite lookup_insert_eq. intros [= <-]. rewrite translated_online. cbn. split; eauto.
    + destruct (bool_decide (k ∈ objectPrototypeMembers)).
      * rewrite Ek. discriminate.
      * rewrite lookup_insert_eq. intros [= <-]. rewrite translated_online. cbn. split; eauto.
  - rewrite lookup_insert_ne by exact Hne.
    destruct (shadesDB s !! k) as [old|];
      [|destruct (bool_decide (k ∈ objectPrototypeMembers))];
      rewrite ?lookup_insert_ne by exact Hne; apply Hs.
Qed.

Lemma onClose_consistent (sock : nat) (s : Server) :
  consistent s -> consistent (onClose sock s).
Proof.
  intros Hs.
  destruct (sessions s !! sock) as [c|] eqn:Ec;
    [|rewrite onClose_unbound; [exact Hs|intros c; rewrite Ec; discriminate]].
  destruct (boundIdentity c) as [k|] eqn:Ek;
    [|rewrite onClose_unbound; [exact Hs|intros c'; rewrite Ec; intros [= <-]; exact Ek]].
  destruct (onClose_registry sock c k s Ec Ek) as [Hc Hd].
  intros i shade. rewrite Hc, Hd. clear Hc Hd.
  rewrite lookup_alter, lookup_delete.
  destruct (decide (k = i)) as [<-|Hne].
  - destruct (shadesDB s !! k) as [old|]; [|discriminate].
    intros [= <-]. cbn. split; [discriminate|]. intros [x Hx]. discriminate.
  - apply Hs.
Qed.

Lemma onMessage_consistent (sock : nat) (bytes : list N) (s : Server) :
  consistent s -> consistent (onMessage sock bytes s).
Proof.
  intros Hs. unfold onMessage.
  destruct (JSON_parse bytes) as [data|]; [|exact Hs].
  destruct (get data "chipID") as [id|]; cbn [mbind outcome_bind]; [|exact Hs].
  destruct (truthy id); [|exact Hs].
  destruct (ToString id) as [k|]; cbn [mbind outcome_bind]; [|exact Hs].
  destruct (get data "model") as [m|]; cbn [mbind outcome_bind]; [|exact Hs].
  destruct (get data "version") as [v|]; cbn [mbind outcome_bind]; [|exact Hs].
  destruct (get data "position") as [p|]; cbn [mbind outcome_bind]; [|exact Hs].
  apply ingestStatus_consistent, Hs.
Qed.

Lemma set_buffer_registry (sock : nat) (bytes : list N) (s : Server) :
  sameRegistry s (set_buffer sock bytes s).
Proof. split; reflexivity. Qed.

Lemma socket_end_registry (sock : nat) (s : Server) : sameRegistry s (socket_end sock s).
Proof. split; reflexivity. Qed.

Lemma socket_destroy_registry (sock : nat) (s : Server) :
  sameRegistry s (socket_destroy sock s).
Proof. split; reflexivity. Qed.

Lemma readLoop_consistent (fuel sock : nat) (bytes : list N) (s : Server) :
  consistent s -> consistent (readLoop fuel sock bytes s).
Proof.
  revert bytes s. induction fuel as [|fuel IH]; intros bytes s Hs; cbn [readLoop].
  - exact (consistent_sameRegistry _ _ (set_buffer_registry _ _ _) Hs).
  - pose proof (consistent_sameRegistry _ _ (set_buffer_registry sock bytes s) Hs) as Hb.
    destruct (blen bytes <? 2)%N; [exact Hb|].
    destruct (parseWebSocketFrame bytes) as [[frame|]|]; try exact Hb.
    repeat match goal with
           | |- context [if ?c then _ else _] => destruct c
           end.
    + apply (consistent_sameRegistry (socket_end sock s)); [apply set_buffer_registry|].
      exact (consistent_sameRegistry _ _ (socket_end_registry _ _) Hs).
    + apply IH. exact (consistent_sameRegistry _ _ (sendWebSocketFrame_registry _ _ _ _) Hs).
    + apply IH, Hs.
    + apply IH, onMessage_consistent, Hs.
    + apply IH, Hs.
Qed.

Lemma onUpgrade_registry (sock : nat) (key protocol : option string) (s : Server) :
  sameRegistry s (onUpgrade sock key protocol s).
Proof.
  unfold onUpgrade. destruct key as [k|]; [|apply socket_destroy_registry].
  destruct (header_truthy (Some k)); [|apply socket_destroy_registry].
  destruct (socket_write_registry sock (Buffer_from (handshakeResponse k protocol)) s).
  split; assumption.
Qed.

Lemma boot_consistent (file : option (gmap string DeviceRecord)) (clk : nat -> Z) (n : nat) :
  allOffline file -> consistent (boot file clk n).
Proof.
  intros Hf k shade. cbn. destruct file as [shades|]; cbn; [|rewrite lookup_empty; discriminate].
  intros Hk. rewrite (Hf shades k shade eq_refl Hk), lookup_empty.
  split; [discriminate|]. intros [x Hx]. discriminate.
Qed.

(** Every event but a restart keeps the agreement. *)
Lemma step_consistent (s s' : Server) (e : Event) (r : option Response) :
  e <> Restart -> step CONFIG s e = Some (s', r) -> consistent s -> consistent s'.
Proof.
  intros He Hstep Hs. unfold step in Hstep.
  destruct (handle CONFIG s e) as [[s1 r1]|] eqn:Eh; [|discriminate].
  destruct (polluted s1); [discriminate|]. injection Hstep as <- <-.
  destruct e as [sock key protocol|sock chunk|sock|id body|id body|id body| | |b|id position| ];
    cbn [handle] in Eh.
  - destruct (sockets s !! sock); [discriminate|]. injection Eh as <- <-.
    eapply consistent_sameRegistry; [apply onUpgrade_registry|].
    eapply consistent_sameRegistry; [|exact Hs]. split; reflexivity.
  - destruct (listening s sock); [|discriminate]. injection Eh as <- <-.
    unfold onData. destruct (sessions s !! sock); [|exact Hs].
    apply readLoop_consistent, Hs.
  - destruct (listening s sock); [|discriminate]. injection Eh as <- <-.
    apply onClose_consistent.
    exact (consistent_sameRegistry _ _ (socket_destroy_registry _ _) Hs).
  - unfold postPosition in Eh.
    destruct (JSON_parse body) as [j|]; [|injection Eh as <- <-; exact Hs].
    match type of Eh with
    | (let '(_, _) := match ?c with _ => _ end in _) = _ => destruct c as [[position command]|]
    end; [|injection Eh as <- <-; exact Hs].
    destruct (connectedShades s !! id); injection Eh as <- <-; [|exact Hs].
    exact (consistent_sameRegistry _ _ (sendToShade_registry _ _ _) Hs).
  - unfold postCommand in Eh.
    destruct (JSON_parse body) as [j|]; [|injection Eh as <- <-; exact Hs].
    match type of Eh with
    | (let '(_, _) := match ?c with _ => _ end in _) = _ => destruct c as [command|]
    end; [|injection Eh as <- <-; exact Hs].
    destruct (connectedShades s !! id); injection Eh as <- <-; [|exact Hs].
    exact (consistent_sameRegistry _ _ (sendToShade_registry _ _ _) Hs).
  - unfold postTest in Eh.
    destruct (JSON_parse body) as [j|]; [|injection Eh as <- <-; exact Hs].
    destruct (connectedShades s !! id); injection Eh as <- <-; [|exact Hs].
    exact (consistent_sameRegistry _ _ (sendToShade_registry _ _ _) Hs).
  - injection Eh as <- <-. exact Hs.
  - injection Eh as <- <-. exact Hs.
  - injection Eh as <- <-. eapply consistent_sameRegistry; [|exact Hs]. split; reflexivity.
  - injection Eh as <- <-. unfold onMqttSet.
    destruct (percentToCommand CONFIG (JNum position)); [|exact Hs].
    destruct (connectedShades s !! id); [|exact Hs].
    exact (consistent_sameRegistry _ _ (sendToShade_registry _ _ _) Hs).
  - congruence.
Qed.

Lemma run_consistent (events : list Event) (s s' : Server) :
  Restart ∉ events -> run CONFIG s events = Some s' -> consistent s -> consistent s'.
Proof.
  revert s. induction events as [|e events IH]; intros s Hno Hrun Hs; cbn [run] in Hrun.
  - injection Hrun as <-. exact Hs.
  - destruct (step CONFIG s e) as [[s1 r]|] eqn:Es; [|discriminate].
    apply (IH s1); [set_solver|exact Hrun|].
    eapply step_consistent; [|exact Es|exact Hs]. set_solver.
Qed.
End HandlerFacts.

(** ** The claims about the frame codec *)

Section CodecClaims.
Context `{Runtime}.
Local Open Scope N_scope.

Lemma wireFrame_length (firstByte : N) (enc : LengthEncoding) (maskKey : option (list N))
    (wire : list N) :
  wellFormed enc maskKey wire ->
  blen (wireFrame firstByte enc maskKey wire) = totalLength (decoded firstByte enc maskKey wire).
Proof.
  intros [_ Hkey]. unfold wireFrame, decoded. cbn [totalLength].
  rewrite !blen_app.
  assert (Hext : blen (lengthField enc (blen wire)) + 2 = headerSize enc).
  { unfold blen. destruct enc; cbn [lengthField headerSize];
      rewrite ?be_bytes_length; reflexivity. }
  destruct maskKey as [key|]; cbn [maskBit default]; unfold id, blen in *;
    cbn [length] in *; rewrite ?Hkey; lia.
Qed.

(** The loop of the decoder is the masking: it XORs byte [j] of the
    payload with byte [j mod 4] of the key. *)
Lemma unmask_imap (key : list N) (i : nat) (bytes : list N) :
  unmask key i bytes = imap (fun j b => N.lxor b (nth ((i + j) mod 4) key 0)) bytes.
Proof.
  revert i. induction bytes as [|b bytes IH]; intros i; cbn [unmask imap]; [reflexivity|].
  unfold byteAt. rewrite Nat.add_0_r, IH. f_equal.
  apply imap_ext. intros j x _. cbn. rewrite Nat.add_succ_r. reflexivity.
Qed.

Lemma unmask_masked_eq (key bytes : list N) : unmask key 0 bytes = masked key bytes.
Proof. apply unmask_imap. Qed.

Lemma unmask_masked (key plain : list N) : unmask key 0 (masked key plain) = plain.
Proof. rewrite <- unmask_masked_eq. apply unmask_involutive. Qed.

(** C3. A buffer that starts with one complete well-formed frame (length
    declared in the 7-bit field, in the 16-bit or in the 64-bit extension,
    masked or not) decodes to a message whose consumed-byte count is the
    header size, plus 4 when masked, plus the declared length, and whose
    payload is, for an unmasked frame, the wire payload and, for a masked
    frame, the wire payload with byte [i] XOR-ed with byte [i mod 4] of
    the mask key (said for the payload as a whole and for each of its
    bytes); for a payload that the sender masked in this way the message
    carries the sender's plain payload. *)
Theorem decode_complete_frame (firstByte : N) (enc : LengthEncoding)
    (maskKey : option (list N)) (wire rest : list N) :
  wellFormed enc maskKey wire ->
  exists message,
    parseWebSocketFrame (wireFrame firstByte enc maskKey wire ++ rest)
    = Returned (Some message) /\
    totalLength message
    = headerSize enc + (match maskKey with Some _ => 4 | None => 0 end) + blen wire /\
    payload message = (match maskKey with
                       | Some key => masked key wire
                       | None => wire
                       end) /\
    opcode message = N.land firstByte 0x0F /\
    (forall i b, wire !! i = Some b ->
                 payload message !! i
                 = Some (match maskKey with
                         | Some key => N.lxor b (nth (i mod 4) key 0)
                         | None => b
                         end)) /\
    (forall key plain, maskKey = Some key -> wire = masked key plain ->
                       payload message = plain).
Proof.
  intros Hwf. exists (decoded firstByte enc maskKey wire).
  split; [apply parse_wireFrame, Hwf|].
  split; [destruct maskKey; reflexivity|].
  split; [destruct maskKey as [key|]; [apply unmask_masked_eq|reflexivity]|].
  split; [reflexivity|]. split.
  - intros i b Hb. cbn [decoded payload].
    destruct maskKey as [key|]; [|exact Hb].
    rewrite unmask_masked_eq. unfold masked. rewrite list_lookup_imap, Hb. reflexivity.
  - intros key plain -> ->. cbn [decoded payload]. apply unmask_masked.
Qed.

(** C4. A buffer that holds the beginning of a well-formed frame and not
    all of it (the header, the extended length, the mask key or the
    payload is cut short) decodes to the insufficient-data result; the
    ['data'] handler then leaves every byte in the connection's buffer;
    decoding the buffer extended by any bytes never throws, and once the
    missing bytes have arrived it yields the frame.  A buffer of fewer
    than two bytes always gives the insufficient-data result. *)
Theorem decode_incomplete (bytes missing : list N) (firstByte : N) (enc : LengthEncoding)
    (maskKey : option (list N)) (wire : list N) :
  wellFormed enc maskKey wire ->
  missing <> [] ->
  bytes ++ missing = wireFrame firstByte enc maskKey wire ->
  parseWebSocketFrame bytes = Returned None /\
  (forall sock c chunk s,
      sessions s !! sock = Some c -> buffer c ++ chunk = bytes ->
      onData sock chunk s = set_buffer sock bytes s) /\
  (forall more, exists r, parseWebSocketFrame (bytes ++ more) = Returned r) /\
  (forall rest, parseWebSocketFrame (bytes ++ missing ++ rest)
                = Returned (Some (decoded firstByte enc maskKey wire))) /\
  (forall short, blen short < 2 -> parseWebSocketFrame short = Returned None).
Proof.
  intros Hwf Hmiss Hcut.
  assert (Hnone : parseWebSocketFrame bytes = Returned None).
  { destruct (parse_returns bytes) as (r & Hr & Hbound).
    destruct r as [f|]; [exfalso|exact Hr].
    pose proof (parse_stable bytes missing f Hr) as Hs.
    rewrite Hcut, <- (app_nil_r (wireFrame _ _ _ _)), parse_wireFrame in Hs by exact Hwf.
    injection Hs as <-.
    specialize (Hbound _ eq_refl).
    rewrite <- wireFrame_length, <- Hcut, blen_app in Hbound by exact Hwf.
    destruct missing; [congruence|]. rewrite blen_cons in Hbound. lia. }
  split; [exact Hnone|]. split.
  { intros sock c chunk s Hc Hb. unfold onData. rewrite Hc, Hb.
    apply readLoop_insufficient, Hnone. }
  split.
  { intros more. destruct (parse_returns (bytes ++ more)) as (r & Hr & _). eauto. }
  split.
  { intros rest. rewrite app_assoc, Hcut. apply parse_wireFrame, Hwf. }
  intros short Hs. unfold parseWebSocketFrame. apply N.ltb_lt in Hs. rewrite Hs. reflexivity.
Qed.
End CodecClaims.

(** ** The claims about the handlers *)

Section HandlerClaims.
Context `{Runtime} (CONFIG : Config).

(** A chunk that is exactly one frame, arriving on an empty buffer. *)
Lemma onData_single_frame (sock : nat) (c : Session) (s : Server) (firstByte : N)
    (enc : LengthEncoding) (maskKey : option (list N)) (wire : list N) :
  sessions s !! sock = Some c -> buffer c = [] -> wellFormed enc maskKey wire ->
  onData sock (wireFrame firstByte enc maskKey wire) s
  = let frame := decoded firstByte enc maskKey wire in
    if (opcode frame =? 0x8)%N then set_buffer sock [] (socket_end sock s)
    else if (opcode frame =? 0x9)%N then
      set_buffer sock [] (sendWebSocketFrame sock (payload frame) 0xA%N s)
    else if (opcode frame =? 0xA)%N then set_buffer sock [] s
    else if (opcode frame =? 0x1)%N || (opcode frame =? 0x2)%N then
      set_buffer sock [] (onMessage sock (payload frame) s)
    else set_buffer sock [] s.
Proof.
  intros Hc Hb Hwf. unfold onData. rewrite Hc, Hb. cbn [app].
  pose proof (wireFrame_length firstByte enc maskKey wire Hwf) as Hlen.
  pose proof (parse_wireFrame firstByte enc maskKey wire [] Hwf) as Hp.
  rewrite app_nil_r in Hp.
  set (chunk := wireFrame firstByte enc maskKey wire) in *.
  set (frame := decoded firstByte enc maskKey wire) in *.
  destruct (parse_returns chunk) as (r & Hr & Hbound).
  rewrite Hp in Hr. injection Hr as <-. specialize (Hbound frame eq_refl).
  destruct (length chunk) as [|fuel] eqn:El; [unfold blen in Hbound; lia|].
  cbn [readLoop]. rewrite Hp.
  replace (blen chunk <? 2)%N with false by (symmetry; apply N.ltb_ge; lia).
  replace (drop (N.to_nat (totalLength frame)) chunk) with (@nil N)
    by (symmetry; apply drop_ge; unfold blen in Hlen; lia).
  cbv zeta.
  repeat match goal with
         | |- context [if ?b then _ else _] => destruct b
         end; try reflexivity; apply readLoop_short; reflexivity.
Qed.

Lemma set_buffer_same (sock : nat) (c : Session) (s : Server) :
  sessions s !! sock = Some c -> set_buffer sock (buffer c) s = s.
Proof.
  intros Hc. unfold set_buffer, set_sessions.
  replace (alter _ sock (sessions s)) with (sessions s); [destruct s; reflexivity|].
  symmetry. apply map_eq. intros i. rewrite lookup_alter.
  destruct (decide (sock = i)) as [<-|]; [|reflexivity].
  rewrite Hc. destruct c; reflexivity.
Qed.

(** C10. A text or binary frame whose payload parses as JSON and whose
    [chipID] is absent, [0] or another falsy value (or whose payload is
    [null], where reading [chipID] throws and is caught) changes nothing:
    no record, no binding, no write to the data file, no publication, and
    the connection stays as it was. *)
Theorem falsy_identity_dropped (s : Server) (sock : nat) (c : Session) (firstByte : N)
    (enc : LengthEncoding) (maskKey : option (list N)) (wire : list N) (data : JSValue) :
  listening s sock = true -> polluted s = false ->
  sessions s !! sock = Some c -> buffer c = [] ->
  wellFormed enc maskKey wire ->
  N.land firstByte 0x0F = 1%N \/ N.land firstByte 0x0F = 2%N ->
  JSON_parse (payload (decoded firstByte enc maskKey wire)) = Some data ->
  (forall id, get data "chipID" = Returned id -> truthy id = false) ->
  onMessage sock (payload (decoded firstByte enc maskKey wire)) s = s /\
  step CONFIG s (Data sock (wireFrame firstByte enc maskKey wire)) = Some (s, None).
Proof.
  intros Hl Hp Hc Hb Hwf Hop Hparse Hid.
  assert (Hm : onMessage sock (payload (decoded firstByte enc maskKey wire)) s = s).
  { unfold onMessage. rewrite Hparse.
    destruct (get data "chipID") as [id|]; cbn [mbind outcome_bind]; [|reflexivity].
    rewrite (Hid id eq_refl). reflexivity. }
  split; [exact Hm|].
  unfold step, handle. rewrite Hl.
  rewrite (onData_single_frame sock c s) by assumption.
  cbv zeta. rewrite Hm. cbn [decoded opcode].
  rewrite <- Hb, (set_buffer_same sock c s Hc).
  destruct Hop as [-> | ->]; cbn; rewrite Hp; reflexivity.
Qed.

(** A value that can be turned into a text can be turned into a number. *)
Lemma ToNumber_returns (v : JSValue) (text : string) :
  ToString v = Returned text -> exists x, ToNumber v = Returned x.
Proof.
  intros Hv. destruct v as [| |[|]|n|t|elems|props]; cbn [ToNumber]; eauto;
    rewrite Hv; cbn [mbind outcome_bind]; eauto.
Qed.

Lemma percentToCommand_returns (v : JSValue) (text : string) :
  ToString v = Returned text -> exists command, percentToCommand CONFIG v = Returned command.
Proof.
  intros Hv. destruct (ToNumber_returns v text Hv) as [x Hx].
  unfold percentToCommand. rewrite Hx. cbn [mbind outcome_bind]. eauto.
Qed.

Lemma offline_text (chipID : string) :
  default ""%string (JSON_stringify
    (JObj [("status", JStr "offline"); ("chipID", JStr chipID)]%string))
  = offlineReply chipID.
Proof.
  cbn [JSON_stringify default]. unfold offlineReply, id.
  rewrite ?append_assoc, ?append_empty_r. reflexivity.
Qed.

(** C7. A command for an identity that has no entry in the live-session
    map, sent as a percentage or as a raw value that the route can read
    (the body parses, it is not [null], and the value can be turned into
    a text, as every number, text, boolean and plain object can), is
    answered with status 200 and the body
    [{"status":"offline","chipID":...}]; the state of the server, its
    sockets included, is what it was.  For every body whatever the state
    stays what it was, and the answer is either that one or the status
    400 of a request that was rejected. *)
Theorem dispatch_offline (s : Server) (chipID : string) (body : list N) (parsed : JSValue)
    (position command : JSValue) (ptext ctext : string) :
  connectedShades s !! chipID = None ->
  JSON_parse body = Some parsed ->
  get parsed "position" = Returned position -> ToString position = Returned ptext ->
  get parsed "command" = Returned command -> ToString command = Returned ctext ->
  postPosition CONFIG chipID body s = (s, Json 200 (offlineReply chipID)) /\
  postCommand chipID body s = (s, Json 200 (offlineReply chipID)) /\
  (forall other,
      (postPosition CONFIG chipID other s = (s, Json 200 (offlineReply chipID)) \/
       postPosition CONFIG chipID other s = (s, BadRequest)) /\
      (postCommand chipID other s = (s, Json 200 (offlineReply chipID)) \/
       postCommand chipID other s = (s, BadRequest))).
Proof.
  intros Hoff Hparse Hp Hpt Hc Hct. unfold postPosition, postCommand.
  rewrite Hparse, Hoff, offline_text.
  destruct (percentToCommand_returns position ptext Hpt) as [cmd Hcmd].
  rewrite Hp, Hc. cbn [mbind outcome_bind].
  rewrite Hcmd, Hpt, Hct. cbn [mbind outcome_bind].
  split; [reflexivity|]. split; [reflexivity|].
  intros other. destruct (JSON_parse other) as [j|]; [|split; right; reflexivity].
  split.
  - destruct (get j "position") as [p|]; cbn [mbind outcome_bind]; [|right; reflexivity].
    destruct (percentToCommand CONFIG p); cbn [mbind outcome_bind]; [|right; reflexivity].
    destruct (ToString p); cbn [mbind outcome_bind]; [left|right]; reflexivity.
  - destruct (get j "command") as [c|]; cbn [mbind outcome_bind]; [|right; reflexivity].
    destruct (ToString c); cbn [mbind outcome_bind]; [left|right]; reflexivity.
Qed.

(** C9. An upgrade request without a handshake key (the header is absent
    or empty) is answered by destroying the socket: nothing is written to
    it and no handlers are installed.  A request with a key is answered
    with one write, a response that carries the line
    [Sec-WebSocket-Accept: base64(SHA-1(key ++ GUID))] for the GUID
    [258EAFA5-E914-47DA-95CA-C5AB0DC85B11]. *)
Theorem handshake_accept_or_reject (s : Server) (sock : nat) (key protocol : option string) :
  sockets s !! sock = None -> polluted s = false ->
  exists s',
    step CONFIG s (Upgrade sock key protocol) = Some (s', None) /\
    match key with
    | Some k =>
        if String.eqb k "" then
          sockets s' !! sock = Some {| destroyed := true; ended := false; written := [] |}
          /\ sessions s' = sessions s
        else
          exists before after,
            sockets s' !! sock
            = Some {| destroyed := false; ended := false;
                      written := [Buffer_from
                        (before +:+ "Sec-WebSocket-Accept: "
                         +:+ base64 (sha1 (k +:+ "258EAFA5-E914-47DA-95CA-C5AB0DC85B11"))
                         +:+ CRLF +:+ after)] |}
            /\ sessions s' !! sock = Some {| shadeChipID := None; buffer := [] |}
    | None =>
        sockets s' !! sock = Some {| destroyed := true; ended := false; written := [] |}
        /\ sessions s' = sessions s
    end.
Proof.
  intros Hfresh Hp. unfold step, handle. rewrite Hfresh.
  assert (Hrej : polluted (socket_destroy sock (set_sockets <[sock:=freshSocket]> s)) = false
                 /\ sockets (socket_destroy sock (set_sockets <[sock:=freshSocket]> s)) !! sock
                    = Some {| destroyed := true; ended := false; written := [] |}
                 /\ sessions (socket_destroy sock (set_sockets <[sock:=freshSocket]> s))
                    = sessions s).
  { unfold socket_destroy. server_simpl. rewrite lookup_alter_eq, lookup_insert_eq.
    split; [exact Hp|]. split; reflexivity. }
  destruct key as [k|]; cbn [onUpgrade header_truthy].
  - destruct (String.eqb k "") eqn:Ek; cbn [negb].
    + destruct Hrej as (-> & ? & ?). eauto.
    + unfold socket_write. server_simpl. rewrite lookup_insert_eq. cbn.
      server_simpl. rewrite Hp. eexists. split; [reflexivity|]. cbn.
      exists ("HTTP/1.1 101 Switching Protocols" +:+ CRLF +:+ "Upgrade: websocket" +:+ CRLF
              +:+ "Connection: Upgrade" +:+ CRLF)%string.
      exists (match protocol with
              | Some p => if header_truthy protocol
                          then "Sec-WebSocket-Protocol: " +:+ p +:+ CRLF +:+ CRLF
                          else CRLF
              | None => CRLF
              end)%string.
      rewrite lookup_insert_eq. split; [|apply lookup_insert_eq].
      do 3 f_equal. unfold handshakeResponse, acceptKey, WS_GUID.
      destruct protocol as [p|]; [destruct (header_truthy (Some p))|];
        cbn [String.concat app]; rewrite !append_assoc; reflexivity.
  - destruct Hrej as (-> & ? & ?). eauto.
Qed.

(** C1 (as the code has it).  The teardown of a session that had bound the
    identity [k] removes the entry of [k] from the live-session map and
    flags the record of [k] offline whichever session the map holds for
    [k] at that moment, the closing one or a newer one; the entries and
    records of all other identities are left as they were. *)
Theorem teardown_unconditional (s s' : Server) (sock : nat) (c : Session) (k : string)
    (r : option Response) :
  sessions s !! sock = Some c -> boundIdentity c = Some k ->
  step CONFIG s (Close sock) = Some (s', r) ->
  connectedShades s' !! k = None /\
  shadesDB s' !! k = assignOnline false <$> shadesDB s !! k /\
  (forall k', k' <> k -> connectedShades s' !! k' = connectedShades s !! k'
                         /\ shadesDB s' !! k' = shadesDB s !! k').
Proof.
  intros Hc Hk Hstep. unfold step, handle in Hstep.
  destruct (listening s sock); [|discriminate].
  destruct (polluted _); [discriminate|]. injection Hstep as <- <-.
  destruct (onClose_registry sock c k (socket_destroy sock s) Hc Hk) as [Hm Hd].
  rewrite Hm, Hd. cbn [socket_destroy]. server_simpl.
  split; [apply lookup_delete_eq|]. split; [apply lookup_alter_eq|].
  intros k' Hne. rewrite lookup_delete_ne, lookup_alter_ne by congruence. split; reflexivity.
Qed.

(** The text of a number is not the name of a member of
    [Object.prototype]: it starts with a digit or a minus sign. *)
Lemma decimal_head (n : Z) : exists c rest, decimal n = String c rest /\ c ∈ numberHeads.
Proof.
  unfold decimal, numberHeads.
  destruct (Z.to_int n) as [d|d]; destruct d; cbn;
    eexists _, _; (split; [reflexivity|]); rewrite !elem_of_cons; tauto.
Qed.

Lemma number_not_member (n : Z) :
  bool_decide (NumberToString (Int n) ∈ objectPrototypeMembers) = false.
Proof.
  apply bool_decide_eq_false.
  assert (Hhead : exists c rest, NumberToString (Int n) = String c rest /\ c ∈ numberHeads).
  { cbn [NumberToString]. destruct (Z.abs n <=? 2 ^ 53);
      [apply decimal_head|apply bigNumberText_head]. }
  destruct Hhead as (c & rest & -> & Hc).
  unfold numberHeads in Hc. cbn [list_ascii_of_string] in Hc.
  unfold objectPrototypeMembers. rewrite !elem_of_cons, elem_of_nil.
  rewrite !elem_of_cons, elem_of_nil in Hc.
  intros Hm.
  repeat match goal with
         | E : _ \/ _ |- _ => destruct E as [E|E]
         end; try contradiction; subst c; discriminate.
Qed.

(** C6 (as the code has it).  A status for a numeric identity that has no
    record adds exactly one record, whose [firstSeen] is the reading of
    the clock when the record is created and whose [lastSeen] is the next
    reading, taken when the fields are assigned: the two are equal exactly
    when the clock did not move in between.  A status for an identity that
    has a record keeps [firstSeen] and sets [lastSeen] to the reading of
    the clock at that moment. *)
Theorem ingest_timestamps (s : Server) (sock : nat) (n : Z) (m v p : JSValue) :
  let k := NumberToString (Int n) in
  let s' := ingestStatus sock k m v p s in
  ToString (JNum (Int n)) = Returned k /\
  match shadesDB s !! k with
  | None =>
      exists shade,
        shadesDB s' = <[k := shade]> (shadesDB s) /\
        size (shadesDB s') = S (size (shadesDB s)) /\
        firstSeen shade = clock s (reads s) /\
        lastSeen shade = clock s (S (reads s)) /\
        (firstSeen shade = lastSeen shade <-> clock s (reads s) = clock s (S (reads s)))
  | Some old =>
      exists shade,
        shadesDB s' = <[k := shade]> (shadesDB s) /\
        size (shadesDB s') = size (shadesDB s) /\
        firstSeen shade = firstSeen old /\
        lastSeen shade = clock s (reads s)
  end.
Proof.
  intros k s'. split; [reflexivity|].
  destruct (ingestStatus_registry sock k m v p s) as [_ Hd]. fold s' in Hd.
  destruct (shadesDB s !! k) as [old|] eqn:Ek.
  - eexists. split; [exact Hd|]. rewrite Hd.
    split; [apply map_size_insert_Some; rewrite Ek; eauto|].
    destruct (translated_fields p (assignStatus (clock s (reads s)) m v p old))
      as (_ & _ & -> & -> & _).
    split; reflexivity.
  - unfold k in Hd at 1. rewrite number_not_member in Hd. fold k in Hd.
    eexists. split; [exact Hd|]. rewrite Hd.
    split; [apply map_size_insert_None, Ek|].
    destruct (translated_fields p (assignStatus (clock s (S (reads s))) m v p
                                                (newShade k (clock s (reads s)))))
      as (_ & _ & -> & -> & _).
    cbn [assignStatus newShade firstSeen lastSeen].
    split; [reflexivity|]. split; reflexivity.
Qed.

(** What the listing of the shades holds: the records of the store, each
    with its [online] overwritten by whether the live-session map has an
    entry for the record's [chipID]. *)
Lemma getShades_spec (s : Server) (shade : DeviceRecord) :
  shade ∈ getShades s <->
  exists k stored,
    shadesDB s !! k = Some stored /\
    shade = assignOnline (bool_decide (is_Some (connectedShades s !! chipID stored))) stored.
Proof.
  unfold getShades. rewrite list_elem_of_fmap. split.
  - intros (stored & -> & Hin). apply list_elem_of_fmap in Hin as ([k x] & -> & Hin).
    apply elem_of_map_to_list in Hin. exists k, x. split; [exact Hin|reflexivity].
  - intros (k & stored & Hk & ->). exists stored. split; [reflexivity|].
    apply list_elem_of_fmap. exists (k, stored). split; [reflexivity|].
    apply elem_of_map_to_list, Hk.
Qed.

(** C8 (as the code has it).  A process started without a data file, or
    on one whose records are all flagged offline, keeps every record
    flagged online exactly when the live-session map has an entry for its
    identity, for as long as it runs without a restart.  The listing of
    the shades does not rely on the stored flag: in every state, reached
    in whatever way, it has one entry for each record of the store, equal
    to the record but for [online], and it reports a record online
    exactly when the live-session map has an entry for the record's
    [chipID], whatever the stored flag is. *)
Theorem online_iff_live_session (file : option (gmap string DeviceRecord)) (clk : nat -> Z)
    (events : list Event) (s : Server) :
  (allOffline file -> Restart ∉ events ->
   run CONFIG (boot file clk 0) events = Some s ->
   forall k shade, shadesDB s !! k = Some shade ->
                   (online shade = true <-> is_Some (connectedShades s !! k))) /\
  (forall state : Server,
      length (getShades state) = size (shadesDB state) /\
      (forall k stored,
          shadesDB state !! k = Some stored ->
          exists shade,
            shade ∈ getShades state /\ sameIdentity shade stored /\
            lastSeen shade = lastSeen stored /\ model shade = model stored /\
            firmware shade = firmware stored /\ rawPosition shade = rawPosition stored /\
            currentPosition shade = currentPosition stored /\
            (online shade = true <-> is_Some (connectedShades state !! chipID stored))) /\
      (forall shade,
          shade ∈ getShades state ->
          (online shade = true <-> is_Some (connectedShades state !! chipID shade)) /\
          exists k stored, shadesDB state !! k = Some stored /\
                           shade = assignOnline (online shade) stored)).
Proof.
  split.
  - intros Hf Hno Hrun. change (consistent s).
    eapply run_consistent; [exact Hno|exact Hrun|]. apply boot_consistent, Hf.
  - intros state. split; [|split].
    + unfold getShades. rewrite !length_fmap, length_map_to_list. reflexivity.
    + intros k stored Hk. eexists. split; [apply getShades_spec; eauto|].
      cbn [assignOnline online chipID]. rewrite bool_decide_eq_true.
      repeat split; auto.
    + intros shade Hin. apply getShades_spec in Hin as (k & stored & Hk & ->).
      cbn [assignOnline online chipID]. rewrite bool_decide_eq_true.
      split; [reflexivity|]. exists k, stored. split; [exact Hk|reflexivity].
Qed.
End HandlerClaims.

(** ** Runs *)

Section Scenario.
Context `{Runtime}.

Lemma masked_length (key bytes : list N) : length (masked key bytes) = length bytes.
Proof. unfold masked. apply length_imap. Qed.

Lemma clientText_wellFormed (key : list N) (text : string) :
  length key = 4%nat -> (String.length text < 126)%nat ->
  wellFormed Len7 (Some key) (masked key (Buffer_from text)).
Proof.
  intros Hk Ht. split; [|exact Hk]. cbn [fits]. unfold blen, Buffer_from.
  rewrite masked_length, length_map.
  assert (E : length (list_ascii_of_string text) = String.length text).
  { clear. induction text as [|a text IH]; cbn; [reflexivity|]. now rewrite IH. }
  rewrite E. lia.
Qed.

(** The arithmetic of the scenario. *)
Lemma position_850 : positionToPercent (JNum (Int 850)) = Returned (Int 85).
Proof. rewrite positionToPercent_Int by (vm_compute; discriminate). reflexivity. Qed.

Lemma percent_50 : percentToCommand default_config (JNum (Int 50)) = Returned (Int 87).
Proof.
  rewrite percentToCommand_Int by (unfold moderate; cbn; lia). reflexivity.
Qed.

Lemma command_87 : commandToPercent default_config (JNum (Int 87)) = Returned (Int 52).
Proof.
  rewrite commandToPercent_Int by (unfold moderate; cbn; lia). reflexivity.
Qed.

(** C5. The status [{"chipID":42,"position":850,"model":"wired","version":24}]
    arriving in a masked text frame on a fresh connection, under the
    default calibration, leaves a record for 42 with [currentPosition = 85]
    and [online = true] and binds 42 to the connection.  A request to set
    42 to 50 percent then computes the command [round(73 + 50 * 27 / 100) = 87],
    writes to that connection one unmasked text frame, the bytes [0x81]
    and [26] followed by the 26 bytes of [{"chipID":42,"command":87}], and
    answers [sent]. *)
Theorem scenario_status_then_setPercent (clk : nat -> Z) (key : list N) :
  length key = 4%nat ->
  JSON_parse (Buffer_from status42_text) = Some status42 ->
  JSON_parse (Buffer_from position50_text) = Some position50 ->
  exists s1 s2 shade,
    run default_config (boot None clk 0)
        [Upgrade 1 (Some "dGhlIHNhbXBsZSBub25jZQ=="%string) None;
         Data 1 (clientText key status42_text)] = Some s1 /\
    shadesDB s1 !! "42"%string = Some shade /\
    currentPosition shade = JNum (Int 85) /\ rawPosition shade = JNum (Int 850) /\
    online shade = true /\
    connectedShades s1 !! "42"%string = Some 1%nat /\
    percentToCommand default_config (JNum (Int 50)) = Returned (Int 87) /\
    step default_config s1 (PostPosition "42" (Buffer_from position50_text))
    = Some (s2, Some (Json 200 sent87_text)) /\
    written <$> sockets s2 !! 1%nat
    = Some [Buffer_from (handshakeResponse "dGhlIHNhbXBsZSBub25jZQ==" None);
            [0x81; 26]%N ++ Buffer_from command87_text] /\
    String.length command87_text = 26%nat.
Proof.
  intros Hk Hstatus Hbody.
  pose proof (clientText_wellFormed key status42_text Hk ltac:(vm_compute; lia)) as Hwf.
  do 3 eexists. split.
  { cbn [run].
    let t := eval vm_compute in
      (step default_config (boot None clk 0)
            (Upgrade 1 (Some "dGhlIHNhbXBsZSBub25jZQ=="%string) None)) in
    change (step default_config (boot None clk 0)
                 (Upgrade 1 (Some "dGhlIHNhbXBsZSBub25jZQ=="%string) None)) with t.
    cbv iota beta.
    match goal with |- context [step _ ?s (Data _ _)] => set (s0 := s) end.
    assert (Hc : sessions s0 !! 1%nat = Some {| shadeChipID := None; buffer := [] |})
      by (vm_compute; reflexivity).
    assert (Hl : listening s0 1 = true) by (vm_compute; reflexivity).
    assert (Hm : onMessage 1 (Buffer_from status42_text) s0
                 = ingestStatus 1 "42" (JStr "wired") (JNum (Int 24)) (JNum (Int 850)) s0).
    { unfold onMessage. rewrite Hstatus. vm_compute. reflexivity. }
    unfold step, handle. rewrite Hl. unfold clientText.
    rewrite (onData_single_frame 1 _ s0 _ _ _ _ Hc eq_refl Hwf).
    cbv zeta. cbn [decoded opcode payload]. rewrite unmask_masked, Hm.
    unfold ingestStatus. rewrite position_850.
    vm_compute. reflexivity. }
  split; [vm_compute; reflexivity|].
  split; [reflexivity|]. split; [reflexivity|]. split; [reflexivity|].
  split; [vm_compute; reflexivity|].
  split; [exact percent_50|].
  split.
  { unfold step, handle, postPosition. rewrite Hbody.
    change (get position50 "position") with (Returned (JNum (Int 50))).
    cbn [mbind outcome_bind]. rewrite percent_50. cbn [mbind outcome_bind ToString].
    rewrite parseInt_42.
    vm_compute. reflexivity. }
  split; [vm_compute; reflexivity|reflexivity].
Qed.
End Scenario.

(** ** The ranges of the translation functions *)

Section TranslationRanges.
Context `{Runtime}.

Lemma moderate_command (CONFIG : Config) (c : Z) :
  moderate (SHADE_MIN CONFIG) -> moderate c -> SHADE_MIN CONFIG < SHADE_MAX CONFIG ->
  Z.abs c <= 2 ^ 40 /\
  100 * Z.abs (c - SHADE_MIN CONFIG) <= 2 ^ 30 * (SHADE_MAX CONFIG - SHADE_MIN CONFIG).
Proof.
  unfold moderate. intros Hmin Hc Hlt.
  change (2 ^ 40) with 1099511627776. change (2 ^ 30) with 1073741824. lia.
Qed.

(** X1. For a calibration of integers of magnitude at most 1 000 000 with
    [SHADE_MIN <= SHADE_MAX], the translation of a percentage into a
    command sends 0 to [SHADE_MIN] and 100 to [SHADE_MAX], is monotone on
    the integers of that magnitude, and stays between the two for a
    percentage from 0 to 100. *)
Theorem percentToCommand_range (CONFIG : Config) :
  moderate (SHADE_MIN CONFIG) -> moderate (SHADE_MAX CONFIG) ->
  SHADE_MIN CONFIG <= SHADE_MAX CONFIG ->
  percentToCommand CONFIG (JNum (Int 0)) = Returned (Int (SHADE_MIN CONFIG)) /\
  percentToCommand CONFIG (JNum (Int 100)) = Returned (Int (SHADE_MAX CONFIG)) /\
  (forall p p', moderate p -> moderate p' -> p <= p' ->
     exists c c', percentToCommand CONFIG (JNum (Int p)) = Returned (Int c) /\
                  percentToCommand CONFIG (JNum (Int p')) = Returned (Int c') /\ c <= c') /\
  (forall p, 0 <= p <= 100 ->
     exists c, percentToCommand CONFIG (JNum (Int p)) = Returned (Int c) /\
               SHADE_MIN CONFIG <= c <= SHADE_MAX CONFIG).
Proof.
  intros Mmin Mmax Hle.
  set (r := SHADE_MAX CONFIG - SHADE_MIN CONFIG). assert (Hr : 0 <= r) by (subst r; lia).
  assert (Hmono : forall p p', p <= p' -> (2 * (p * r) + 100) / 200 <= (2 * (p' * r) + 100) / 200).
  { intros p p' Hp. apply Z.div_le_mono; [lia|nia]. }
  assert (H0 : (2 * (0 * r) + 100) / 200 = 0) by reflexivity.
  assert (H100 : (2 * (100 * r) + 100) / 200 = r).
  { replace (2 * (100 * r) + 100) with (100 + r * 200) by lia.
    rewrite Z.div_add by lia. reflexivity. }
  assert (Hsmall : forall p, 0 <= p <= 100 -> moderate p) by (unfold moderate; lia).
  rewrite !percentToCommand_Int by (auto; apply Hsmall; lia).
  fold r. rewrite H0, H100.
  split; [do 2 f_equal; lia|]. split; [do 2 f_equal; subst r; lia|]. split.
  - intros p p' Mp Mp' Hp. rewrite !percentToCommand_Int by assumption. fold r.
    eexists _, _. split; [reflexivity|]. split; [reflexivity|].
    specialize (Hmono p p' Hp). lia.
  - intros p Hp. rewrite percentToCommand_Int by auto. fold r.
    eexists. split; [reflexivity|].
    pose proof (Hmono 0 p ltac:(lia)). pose proof (Hmono p 100 ltac:(lia)).
    rewrite H0 in *. rewrite H100 in *. subst r. lia.
Qed.

(** X2. For a calibration of integers of magnitude at most 1 000 000 with
    [SHADE_MIN < SHADE_MAX], the translation of a command into a
    percentage sends [SHADE_MIN] to 0 and [SHADE_MAX] to 100, is monotone
    on the integers of that magnitude, and stays between 0 and 100 for a
    command between the two. *)
Theorem commandToPercent_range (CONFIG : Config) :
  moderate (SHADE_MIN CONFIG) -> moderate (SHADE_MAX CONFIG) ->
  SHADE_MIN CONFIG < SHADE_MAX CONFIG ->
  commandToPercent CONFIG (JNum (Int (SHADE_MIN CONFIG))) = Returned (Int 0) /\
  commandToPercent CONFIG (JNum (Int (SHADE_MAX CONFIG))) = Returned (Int 100) /\
  (forall c c', moderate c -> moderate c' -> c <= c' ->
     exists q q', commandToPercent CONFIG (JNum (Int c)) = Returned (Int q) /\
                  commandToPercent CONFIG (JNum (Int c')) = Returned (Int q') /\ q <= q') /\
  (forall c, SHADE_MIN CONFIG <= c <= SHADE_MAX CONFIG ->
     exists q, commandToPercent CONFIG (JNum (Int c)) = Returned (Int q) /\ 0 <= q <= 100).
Proof.
  intros Mmin Mmax Hlt.
  set (r := SHADE_MAX CONFIG - SHADE_MIN CONFIG). assert (Hr : 0 < r) by (subst r; lia).
  assert (Hmono : forall c c', c <= c' ->
            (200 * (c - SHADE_MIN CONFIG) + r) / (2 * r)
            <= (200 * (c' - SHADE_MIN CONFIG) + r) / (2 * r)).
  { intros c c' Hc. apply Z.div_le_mono; lia. }
  assert (Hmin : (200 * (SHADE_MIN CONFIG - SHADE_MIN CONFIG) + r) / (2 * r) = 0).
  { apply Z.div_small. lia. }
  assert (Hmax : (200 * (SHADE_MAX CONFIG - SHADE_MIN CONFIG) + r) / (2 * r) = 100).
  { fold r. replace (200 * r + r) with (r + 100 * (2 * r)) by lia.
    rewrite Z.div_add by lia. rewrite Z.div_small by lia. reflexivity. }
  assert (Hint : forall c, moderate c ->
            commandToPercent CONFIG (JNum (Int c))
            = Returned (Int ((200 * (c - SHADE_MIN CONFIG) + r) / (2 * r)))).
  { intros c Mc. destruct (moderate_command CONFIG c Mmin Mc Hlt) as [B1 B2].
    apply commandToPercent_Int; assumption. }
  assert (Hin : forall c, SHADE_MIN CONFIG <= c <= SHADE_MAX CONFIG -> moderate c).
  { unfold moderate in *. lia. }
  rewrite !Hint by (auto; apply Hin; lia). rewrite Hmin. fold r in Hmax.
  split; [reflexivity|]. split; [do 2 f_equal; exact Hmax|]. split.
  - intros c c' Mc Mc' Hc. rewrite !Hint by assumption.
    eexists _, _. split; [reflexivity|]. split; [reflexivity|]. apply Hmono, Hc.
  - intros c Hc. rewrite Hint by auto.
    eexists. split; [reflexivity|].
    pose proof (Hmono (SHADE_MIN CONFIG) c ltac:(lia)) as H1.
    pose proof (Hmono c (SHADE_MAX CONFIG) ltac:(lia)) as H2.
    rewrite Hmin in H1. fold r in H2. rewrite Hmax in H2. lia.
Qed.

(** X3. For a calibration of integers of magnitude at most 1 000 000
    whose span [SHADE_MAX - SHADE_MIN] is between 1 and 100, a command
    between [SHADE_MIN] and [SHADE_MAX] that is translated into a
    percentage and back is the command again. *)
Theorem command_roundTrip (CONFIG : Config) (c : Z) :
  moderate (SHADE_MIN CONFIG) -> moderate (SHADE_MAX CONFIG) ->
  0 < SHADE_MAX CONFIG - SHADE_MIN CONFIG <= 100 ->
  SHADE_MIN CONFIG <= c <= SHADE_MAX CONFIG ->
  exists q, commandToPercent CONFIG (JNum (Int c)) = Returned (Int q) /\
            0 <= q <= 100 /\
            percentToCommand CONFIG (JNum (Int q)) = Returned (Int c).
Proof.
  intros Mmin Mmax Hr Hc.
  assert (Mc : moderate c) by (unfold moderate in *; lia).
  destruct (moderate_command CONFIG c Mmin Mc ltac:(lia)) as [B1 B2].
  set (r := SHADE_MAX CONFIG - SHADE_MIN CONFIG) in *.
  set (k := c - SHADE_MIN CONFIG).
  set (q := (200 * k + r) / (2 * r)).
  pose proof (Z.mul_div_le (200 * k + r) (2 * r) ltac:(lia)) as Q1.
  pose proof (Z.mul_succ_div_gt (200 * k + r) (2 * r) ltac:(lia)) as Q2.
  fold q in Q1, Q2.
  assert (Hq : 0 <= q <= 100) by (subst k; nia).
  exists q. split; [apply commandToPercent_Int; solve [assumption | lia]|].
  split; [exact Hq|].
  rewrite percentToCommand_Int by (try assumption; unfold moderate; lia).
  do 2 f_equal. fold r.
  assert (E : (2 * (q * r) + 100) / 200 = k).
  { symmetry. apply Z.div_unique with (r := 2 * (q * r) + 100 - 200 * k).
    - left. split; [nia|]. destruct (Z.eq_dec r 100) as [E|E]; [|nia].
      rewrite E in *. lia.
    - lia. }
  rewrite E. subst k. lia.
Qed.

(** X4. The percentage of a raw position, an integer of magnitude at most
    2^40, is the nearest integer to a tenth of it, a tie going up; a raw
    position from 0 to 1000 gives a percentage from 0 to 100. *)
Theorem positionToPercent_nearest (n : Z) :
  Z.abs n <= 2 ^ 40 ->
  exists q, positionToPercent (JNum (Int n)) = Returned (Int q) /\
            10 * q - 5 <= n < 10 * q + 5 /\
            (0 <= n <= 1000 -> 0 <= q <= 100).
Proof.
  intros Hn. rewrite positionToPercent_Int by exact Hn. eexists. split; [reflexivity|].
  pose proof (Z.mul_div_le (n + 5) 10 ltac:(lia)).
  pose proof (Z.mul_succ_div_gt (n + 5) 10 ltac:(lia)).
  split; [lia|]. intros Hn'. lia.
Qed.
End TranslationRanges.

(** ** Frames built by the server *)

Section EncodeFacts.
Local Open Scope N_scope.

Lemma encodeFrame_wireFrame (data : list N) (op : N) :
  encodeFrame data op = wireFrame (N.lor 0x80 op) (encodingFor (blen data)) None data.
Proof.
  unfold encodeFrame, encodingFor, wireFrame.
  destruct (blen data <? 126); [reflexivity|].
  destruct (blen data <? 65536); reflexivity.
Qed.

Lemma encodingFor_fits (data : list N) :
  blen data < 2 ^ 64 -> wellFormed (encodingFor (blen data)) None data.
Proof.
  intros Hlen. split; [|exact I]. unfold encodingFor.
  destruct (N.ltb_spec (blen data) 126); [assumption|].
  destruct (N.ltb_spec (blen data) 65536); assumption.
Qed.

Lemma land_lor_opcode (op : N) : op < 16 -> N.land (N.lor 0x80 op) 0x0F = op.
Proof.
  intros Hop. rewrite N.land_lor_distr_l. change (N.land 0x80 0x0F) with 0.
  rewrite N.lor_0_l. change 0x0F with (N.ones 4). rewrite N.land_ones.
  apply N.mod_small. exact Hop.
Qed.

Lemma parse_encodeFrame (data rest : list N) (op : N) :
  op < 16 -> blen data < 2 ^ 64 ->
  parseWebSocketFrame (encodeFrame data op ++ rest)
  = Returned (Some {| opcode := op; payload := data;
                      totalLength := blen (encodeFrame data op) |}).
Proof.
  intros Hop Hlen. pose proof (encodingFor_fits data Hlen) as Hwf.
  rewrite encodeFrame_wireFrame, parse_wireFrame by exact Hwf.
  rewrite (wireFrame_length _ _ _ _ Hwf).
  unfold decoded. cbn [totalLength maskBit]. rewrite land_lor_opcode by exact Hop.
  reflexivity.
Qed.

(** X5. A frame that [sendWebSocketFrame] builds for an opcode below 16
    decodes, whatever follows it in the buffer, into that opcode and that
    payload; its header is the shortest of 2, 4 and 10 bytes that the
    length of the payload allows. *)
Theorem encode_decode (data rest : list N) (op : N) :
  op < 16 -> blen data < 2 ^ 64 ->
  parseWebSocketFrame (encodeFrame data op ++ rest)
  = Returned (Some {| opcode := op; payload := data;
                      totalLength := blen (encodeFrame data op) |}) /\
  blen (encodeFrame data op)
  = (if blen data <? 126 then 2 else if blen data <? 65536 then 4 else 10) + blen data.
Proof.
  intros Hop Hlen. split; [apply parse_encodeFrame; assumption|].
  pose proof (encodingFor_fits data Hlen) as Hwf.
  rewrite encodeFrame_wireFrame, (wireFrame_length _ _ _ _ Hwf).
  unfold decoded, encodingFor. cbn [totalLength maskBit].
  destruct (blen data <? 126); [reflexivity|].
  destruct (blen data <? 65536); reflexivity.
Qed.
End EncodeFacts.

(** ** What a decoded frame says about the buffer *)

Section DecodeSound.
Local Open Scope N_scope.

Lemma parse_prefix (pre more : list N) (f : Frame) :
  parseWebSocketFrame (pre ++ more) = Returned (Some f) ->
  totalLength f <= blen pre ->
  parseWebSocketFrame pre = Returned (Some f).
Proof.
  intros Hp Hle.
  destruct (parse_returns (pre ++ more)) as (r & Hr & Hb). rewrite Hp in Hr.
  injection Hr as <-. specialize (Hb f eq_refl).
  assert (H2 : (2 <= length pre)%nat) by (unfold blen in *; lia).
  revert Hp. unfold parseWebSocketFrame, readUInt16BE, readBigUInt64BE, readUIntBE.
  rewrite !byteAt_app_l by lia.
  destruct (N.land (byteAt pre 1) 127 =? 126);
    [|destruct (N.land (byteAt pre 1) 127 =? 127)];
    (destruct (N.land (byteAt pre 1) 128 =? 0); cbn [negb mbind outcome_bind];
     repeat match goal with
            | |- context [blen (pre ++ more) <? ?b] =>
                destruct (N.ltb_spec (blen (pre ++ more)) b); cbn [mbind outcome_bind]
            end;
     try discriminate;
     intros [= <-]; cbn [totalLength] in Hle; clear Hb;
     repeat match goal with
            | Hx : context [slice (pre ++ more) ?a ?b] |- _ =>
                rewrite (slice_app_l pre more a b) in Hx by lia
            | |- context [slice (pre ++ more) ?a ?b] =>
                rewrite (slice_app_l pre more a b) by lia
            end;
     repeat match goal with
            | |- context [blen pre <? ?b] =>
                destruct (N.ltb_spec (blen pre) b); [exfalso; lia|];
                cbn [mbind outcome_bind]
            end;
     reflexivity).
Qed.

Lemma slice_length (l : list N) (start stop : N) :
  start <= stop -> stop <= blen l -> N.of_nat (length (slice l start stop)) = stop - start.
Proof.
  unfold slice, blen. intros H1 H2. rewrite length_take, length_drop. lia.
Qed.

Lemma land_127_mod (b : N) : N.land b 0x7F = b mod 128.
Proof. change 0x7F with (N.ones 7). apply N.land_ones. Qed.

Lemma land_128_bit (b : N) : (N.land b 0x80 =? 0) = negb (N.testbit b 7).
Proof.
  destruct (N.testbit b 7) eqn:E; cbn [negb].
  - apply N.eqb_neq. intros H0.
    assert (Hb : N.testbit (N.land b 0x80) 7 = true) by (rewrite N.land_spec, E; reflexivity).
    rewrite H0 in Hb. discriminate.
  - apply N.eqb_eq, N.bits_inj. intros i. rewrite N.land_spec, N.bits_0.
    change 0x80 with (2 ^ 7). rewrite N.pow2_bits_eqb.
    destruct (N.eqb_spec 7 i) as [<-|]; [rewrite E|rewrite andb_false_r]; reflexivity.
Qed.

Lemma parse_header (buffer : list N) (f : Frame) :
  parseWebSocketFrame buffer = Returned (Some f) ->
  let code := byteAt buffer 1 mod 128 in
  let base := if code =? 126 then 4 else if code =? 127 then 10 else 2 in
  let offset := base + (if N.testbit (byteAt buffer 1) 7 then 4 else 0) in
  opcode f = N.land (byteAt buffer 0) 0x0F /\
  totalLength f = offset + blen (payload f) /\
  blen (payload f) = (if code =? 126 then be_value (slice buffer 2 4)
                      else if code =? 127 then be_value (slice buffer 2 10)
                      else code) /\
  payload f = (if N.testbit (byteAt buffer 1) 7
               then masked (slice buffer base (base + 4)) (slice buffer offset (totalLength f))
               else slice buffer offset (totalLength f)).
Proof.
  unfold parseWebSocketFrame, readUInt16BE, readBigUInt64BE, readUIntBE.
  rewrite land_127_mod, land_128_bit, Bool.negb_involutive.
  change (2 + N.of_nat 2) with 4. change (2 + N.of_nat 8) with 10.
  generalize (byteAt buffer 1 mod 128). intros code.
  destruct (N.ltb_spec (blen buffer) 2); [discriminate|].
  destruct (code =? 126); [|destruct (code =? 127)];
    (destruct (N.testbit (byteAt buffer 1) 7); cbn [mbind outcome_bind];
     repeat match goal with
            | |- context [blen buffer <? ?b] =>
                destruct (N.ltb_spec (blen buffer) b); cbn [mbind outcome_bind]
            end;
     try discriminate;
     intros [= <-]; cbn [opcode payload totalLength];
     rewrite ?unmask_masked_eq;
     (split; [reflexivity|]);
     unfold blen at 1 2; rewrite ?masked_length, slice_length by lia;
     (split; [lia|]); (split; [lia|reflexivity])).
Qed.

(** X6. A decoded frame was cut from the front of the buffer: its opcode is
    the low half of the first byte; its length is that of its payload and
    of a header of 2 bytes, or of 4 or 10 when the length code (the low
    seven bits of the second byte) is 126 or 127, with 4 more for the key
    exactly when the mask bit (the top bit of the second byte) is set;
    the length of its payload is the one declared, in the length code or
    in the extension; its payload is the bytes behind the header,
    unmasked with the key when the mask bit is set; and no byte behind
    the frame was looked at. *)
Theorem decode_sound (buffer : list N) (f : Frame) :
  parseWebSocketFrame buffer = Returned (Some f) ->
  let code := byteAt buffer 1 mod 128 in
  let base := if code =? 126 then 4 else if code =? 127 then 10 else 2 in
  let offset := base + (if N.testbit (byteAt buffer 1) 7 then 4 else 0) in
  opcode f = N.land (byteAt buffer 0) 0x0F /\
  2 <= totalLength f <= blen buffer /\
  totalLength f = offset + blen (payload f) /\
  blen (payload f) = (if code =? 126 then be_value (slice buffer 2 4)
                      else if code =? 127 then be_value (slice buffer 2 10)
                      else code) /\
  payload f = (if N.testbit (byteAt buffer 1) 7
               then masked (slice buffer base (base + 4)) (slice buffer offset (totalLength f))
               else slice buffer offset (totalLength f)) /\
  forall other,
    parseWebSocketFrame (take (N.to_nat (totalLength f)) buffer ++ other)
    = Returned (Some f).
Proof.
  intros Hp code base offset.
  destruct (parse_header buffer f Hp) as (Ho & Ht & Hl & Hpay).
  destruct (parse_returns buffer) as (r & Hr & Hb). rewrite Hp in Hr.
  injection Hr as <-. specialize (Hb f eq_refl).
  split; [exact Ho|]. split; [exact Hb|]. split; [exact Ht|].
  split; [exact Hl|]. split; [exact Hpay|].
  intros other. apply parse_stable.
  apply (parse_prefix _ (drop (N.to_nat (totalLength f)) buffer)).
  - rewrite take_drop. exact Hp.
  - unfold blen in *. rewrite length_take. lia.
Qed.

(** X7. The decoder never throws: the reads of the extended length, which
    throw when they leave the buffer, are guarded by the length checks
    before them. *)
Theorem decode_never_throws (buffer : list N) :
  exists result, parseWebSocketFrame buffer = Returned result.
Proof.
  destruct (parse_returns buffer) as (r & Hr & _). exists r. exact Hr.
Qed.
End DecodeSound.

(** ** The turns of the read loop *)

Section FrameDispatch.
Context `{Runtime} (CONFIG : Config).

(** The first turn of the read loop on a buffer that starts with a
    complete frame. *)
Lemma onData_first_frame (sock : nat) (c : Session) (s : Server) (chunk : list N)
    (firstByte : N) (enc : LengthEncoding) (maskKey : option (list N)) (wire rest : list N) :
  sessions s !! sock = Some c ->
  buffer c ++ chunk = wireFrame firstByte enc maskKey wire ++ rest ->
  wellFormed enc maskKey wire ->
  exists fuel,
    (length rest <= fuel)%nat /\
    onData sock chunk s
    = let frame := decoded firstByte enc maskKey wire in
      if (opcode frame =? 0x8)%N then set_buffer sock rest (socket_end sock s)
      else if (opcode frame =? 0x9)%N then
        readLoop fuel sock rest (sendWebSocketFrame sock (payload frame) 0xA%N s)
      else if (opcode frame =? 0xA)%N then readLoop fuel sock rest s
      else if (opcode frame =? 0x1)%N || (opcode frame =? 0x2)%N then
        readLoop fuel sock rest (onMessage sock (payload frame) s)
      else readLoop fuel sock rest s.
Proof.
  intros Hc Hcut Hwf. unfold onData. rewrite Hc, Hcut.
  pose proof (wireFrame_length firstByte enc maskKey wire Hwf) as Hlen.
  pose proof (parse_wireFrame firstByte enc maskKey wire rest Hwf) as Hp.
  destruct (parse_returns (wireFrame firstByte enc maskKey wire)) as (r & Hr & Hbound).
  pose proof (parse_wireFrame firstByte enc maskKey wire [] Hwf) as Hp0.
  rewrite app_nil_r in Hp0. rewrite Hp0 in Hr. injection Hr as <-.
  specialize (Hbound _ eq_refl).
  set (frame := wireFrame firstByte enc maskKey wire) in *.
  set (message := decoded firstByte enc maskKey wire) in *.
  assert (Hdrop : drop (N.to_nat (totalLength message)) (frame ++ rest) = rest).
  { apply drop_app_length'. unfold blen in Hlen. lia. }
  destruct (length (frame ++ rest)) as [|fuel] eqn:El.
  { rewrite length_app in El. unfold blen in Hbound. lia. }
  exists fuel. split.
  { rewrite length_app in El. unfold blen in Hbound. lia. }
  cbn [readLoop]. rewrite Hp.
  replace (blen (frame ++ rest) <? 2)%N with false
    by (symmetry; apply N.ltb_ge; rewrite blen_app; lia).
  rewrite Hdrop. reflexivity.
Qed.

Lemma readLoop_nil (fuel sock : nat) (s : Server) :
  readLoop fuel sock [] s = set_buffer sock [] s.
Proof. apply readLoop_short. reflexivity. Qed.

(** X8. A ping on an open socket is answered with one write, a pong frame
    that carries the payload of the ping; nothing else changes. *)
Theorem ping_answered (s : Server) (sock : nat) (c : Session) (so : Socket) (chunk : list N)
    (firstByte : N) (enc : LengthEncoding) (maskKey : option (list N)) (wire : list N) :
  listening s sock = true -> polluted s = false ->
  sessions s !! sock = Some c -> sockets s !! sock = Some so -> ended so = false ->
  buffer c ++ chunk = wireFrame firstByte enc maskKey wire ->
  wellFormed enc maskKey wire ->
  N.land firstByte 0x0F = 9%N ->
  let echo := payload (decoded firstByte enc maskKey wire) in
  step CONFIG s (Data sock chunk)
  = Some (set_buffer sock []
            (set_sockets <[sock := {| destroyed := false; ended := false;
                                      written := written so ++ [encodeFrame echo 0xA%N] |}]> s),
          None) /\
  parseWebSocketFrame (encodeFrame echo 0xA%N)
  = Returned (Some {| opcode := 0xA%N; payload := echo;
                      totalLength := blen (encodeFrame echo 0xA%N) |}).
Proof.
  intros Hl Hp Hc Hso Hend Hcut Hwf Hop echo.
  assert (Hdest : destroyed so = false).
  { unfold listening in Hl. rewrite Hso, Hc in Hl. destruct (destroyed so); [discriminate|reflexivity]. }
  split.
  - unfold step, handle. rewrite Hl.
    rewrite <- (app_nil_r (wireFrame _ _ _ _)) in Hcut.
    destruct (onData_first_frame sock c s chunk _ _ _ _ _ Hc Hcut Hwf) as (fuel & _ & ->).
    cbv zeta. cbn [decoded opcode]. rewrite Hop. cbn [N.eqb Pos.eqb].
    rewrite readLoop_nil.
    unfold sendWebSocketFrame, socket_write. rewrite Hso, Hdest, Hend. cbn [orb].
    fold echo. cbn [set_buffer set_sessions set_sockets polluted]. rewrite Hp.
    destruct so as [d e w]. cbn in *. subst d e. reflexivity.
  - rewrite <- (app_nil_r (encodeFrame _ _)) at 1. apply parse_encodeFrame; [reflexivity|].
    subst echo. destruct Hwf as [Hfit _]. unfold decoded; cbn [payload].
    assert (Hw : (blen wire < 2 ^ 64)%N) by (destruct enc; cbn [fits] in Hfit; lia).
    destruct maskKey; [unfold blen in *; rewrite unmask_length|]; exact Hw.
Qed.

(** X9. A close frame ends the socket and stops the loop: the bytes behind
    it stay in the buffer of the session, nothing is written, and the
    registry, the data file and the publications are what they were. *)
Theorem close_frame_ends (s : Server) (sock : nat) (c : Session) (chunk : list N)
    (firstByte : N) (enc : LengthEncoding) (maskKey : option (list N)) (wire rest : list N) :
  listening s sock = true -> polluted s = false ->
  sessions s !! sock = Some c ->
  buffer c ++ chunk = wireFrame firstByte enc maskKey wire ++ rest ->
  wellFormed enc maskKey wire ->
  N.land firstByte 0x0F = 8%N ->
  exists s',
    step CONFIG s (Data sock chunk) = Some (s', None) /\
    sessions s' !! sock = Some {| shadeChipID := shadeChipID c; buffer := rest |} /\
    ended <$> sockets s' !! sock = Some true /\
    written <$> sockets s' !! sock = written <$> sockets s !! sock /\
    connectedShades s' = connectedShades s /\ shadesDB s' = shadesDB s /\
    dataFile s' = dataFile s /\ published s' = published s.
Proof.
  intros Hl Hp Hc Hcut Hwf Hop.
  exists (set_buffer sock rest (socket_end sock s)).
  split.
  - unfold step, handle. rewrite Hl.
    destruct (onData_first_frame sock c s chunk _ _ _ _ _ Hc Hcut Hwf) as (fuel & _ & ->).
    cbv zeta. cbn [decoded opcode]. rewrite Hop. cbn [N.eqb Pos.eqb].
    cbn [set_buffer set_sessions socket_end set_sockets polluted]. rewrite Hp. reflexivity.
  - unfold listening in Hl. destruct (sockets s !! sock) as [so|] eqn:Hso; [|discriminate].
    cbn [set_buffer set_sessions socket_end set_sockets sessions sockets connectedShades
         shadesDB dataFile published].
    rewrite lookup_alter_eq, Hc, lookup_alter_eq, Hso. cbn.
    repeat split; reflexivity.
Qed.

(** X10. A frame that is neither text, binary, ping nor close (a pong, a
    continuation, a reserved opcode) is consumed and changes nothing. *)
Theorem other_opcodes_dropped (s : Server) (sock : nat) (c : Session) (chunk : list N)
    (firstByte : N) (enc : LengthEncoding) (maskKey : option (list N)) (wire : list N) :
  listening s sock = true -> polluted s = false ->
  sessions s !! sock = Some c ->
  buffer c ++ chunk = wireFrame firstByte enc maskKey wire ->
  wellFormed enc maskKey wire ->
  N.land firstByte 0x0F <> 1%N -> N.land firstByte 0x0F <> 2%N ->
  N.land firstByte 0x0F <> 8%N -> N.land firstByte 0x0F <> 9%N ->
  step CONFIG s (Data sock chunk) = Some (set_buffer sock [] s, None).
Proof.
  intros Hl Hp Hc Hcut Hwf H1 H2 H8 H9.
  unfold step, handle. rewrite Hl.
  rewrite <- (app_nil_r (wireFrame _ _ _ _)) in Hcut.
  destruct (onData_first_frame sock c s chunk _ _ _ _ _ Hc Hcut Hwf) as (fuel & _ & ->).
  cbv zeta. cbn [decoded opcode].
  apply N.eqb_neq in H1, H2, H8, H9. rewrite H1, H2, H8, H9. cbn [orb].
  destruct (_ =? 10)%N; rewrite readLoop_nil;
    cbn [set_buffer set_sessions polluted]; rewrite Hp; reflexivity.
Qed.

(** X11. A text or binary frame whose payload is not JSON is consumed and
    changes nothing: the error of [JSON.parse] is caught. *)
Theorem malformed_payload_dropped (s : Server) (sock : nat) (c : Session) (chunk : list N)
    (firstByte : N) (enc : LengthEncoding) (maskKey : option (list N)) (wire : list N) :
  listening s sock = true -> polluted s = false ->
  sessions s !! sock = Some c ->
  buffer c ++ chunk = wireFrame firstByte enc maskKey wire ->
  wellFormed enc maskKey wire ->
  N.land firstByte 0x0F = 1%N \/ N.land firstByte 0x0F = 2%N ->
  JSON_parse (payload (decoded firstByte enc maskKey wire)) = None ->
  step CONFIG s (Data sock chunk) = Some (set_buffer sock [] s, None).
Proof.
  intros Hl Hp Hc Hcut Hwf Hop Hparse.
  unfold step, handle. rewrite Hl.
  rewrite <- (app_nil_r (wireFrame _ _ _ _)) in Hcut.
  destruct (onData_first_frame sock c s chunk _ _ _ _ _ Hc Hcut Hwf) as (fuel & _ & ->).
  cbv zeta. unfold onMessage. rewrite Hparse. cbn [decoded opcode].
  destruct Hop as [-> | ->]; cbn [N.eqb Pos.eqb orb]; rewrite readLoop_nil;
    cbn [set_buffer set_sessions polluted]; rewrite Hp; reflexivity.
Qed.
End FrameDispatch.

(** ** Chunks of the byte stream *)

Lemma server_ext (s s' : Server) :
  connectedShades s = connectedShades s' -> shadesDB s = shadesDB s' ->
  dataFile s = dataFile s' -> sockets s = sockets s' -> sessions s = sessions s' ->
  mqttConnected s = mqttConnected s' -> published s = published s' ->
  clock s = clock s' -> reads s = reads s' -> polluted s = polluted s' ->
  s = s'.
Proof. destruct s, s'. cbn. intros. subst. reflexivity. Qed.

Section Chunking.
Context `{Runtime}.

Lemma alter_buffer_twice (sock : nat) (x y : list N) (m : gmap nat Session) :
  alter (fun c => {| shadeChipID := shadeChipID c; buffer := y |}) sock
        (alter (fun c => {| shadeChipID := shadeChipID c; buffer := x |}) sock m)
  = alter (fun c => {| shadeChipID := shadeChipID c; buffer := y |}) sock m.
Proof.
  apply map_eq. intros i. destruct (decide (sock = i)) as [<-|Hne].
  - rewrite !lookup_alter_eq. destruct (m !! sock); reflexivity.
  - rewrite !lookup_alter_ne by exact Hne. reflexivity.
Qed.

Lemma alter_identity_buffer (sock : nat) (k : string) (x : list N) (m : gmap nat Session) :
  alter (fun c => {| shadeChipID := Some k; buffer := buffer c |}) sock
        (alter (fun c => {| shadeChipID := shadeChipID c; buffer := x |}) sock m)
  = alter (fun c => {| shadeChipID := shadeChipID c; buffer := x |}) sock
          (alter (fun c => {| shadeChipID := Some k; buffer := buffer c |}) sock m).
Proof.
  apply map_eq. intros i. destruct (decide (sock = i)) as [<-|Hne].
  - rewrite !lookup_alter_eq. destruct (m !! sock); reflexivity.
  - rewrite !lookup_alter_ne by exact Hne. reflexivity.
Qed.

Lemma set_buffer_twice (sock : nat) (x y : list N) (s : Server) :
  set_buffer sock y (set_buffer sock x s) = set_buffer sock y s.
Proof.
  apply server_ext; try reflexivity. unfold set_buffer. server_simpl.
  apply alter_buffer_twice.
Qed.

Lemma socket_end_set_buffer (sock : nat) (x : list N) (s : Server) :
  socket_end sock (set_buffer sock x s) = set_buffer sock x (socket_end sock s).
Proof. apply server_ext; reflexivity. Qed.

Lemma sendWebSocketFrame_set_buffer (sock : nat) (x data : list N) (op : N) (s : Server) :
  sendWebSocketFrame sock data op (set_buffer sock x s)
  = set_buffer sock x (sendWebSocketFrame sock data op s).
Proof.
  unfold sendWebSocketFrame, socket_write.
  change (sockets (set_buffer sock x s)) with (sockets s).
  destruct (sockets s !! sock) as [so|]; [|reflexivity].
  destruct (destroyed so); [reflexivity|]. cbn [orb].
  destruct (ended so); [reflexivity|]. apply server_ext; reflexivity.
Qed.

Lemma bind_set_buffer (sock : nat) (k : string) (x : list N) (s : Server) :
  set_sessions (alter (fun c => {| shadeChipID := Some k; buffer := buffer c |}) sock)
               (set_buffer sock x s)
  = set_buffer sock x
      (set_sessions (alter (fun c => {| shadeChipID := Some k; buffer := buffer c |}) sock) s).
Proof.
  apply server_ext; try reflexivity. unfold set_buffer. server_simpl.
  apply alter_identity_buffer.
Qed.

Lemma set_connectedShades_set_buffer (sock : nat) (x : list N) f (s : Server) :
  set_connectedShades f (set_buffer sock x s) = set_buffer sock x (set_connectedShades f s).
Proof. apply server_ext; reflexivity. Qed.

Lemma set_shadesDB_set_buffer (sock : nat) (x : list N) f (s : Server) :
  set_shadesDB f (set_buffer sock x s) = set_buffer sock x (set_shadesDB f s).
Proof. apply server_ext; reflexivity. Qed.

Lemma now_set_buffer (sock : nat) (x : list N) (s s' : Server) (t : Z) :
  now s = (t, s') -> now (set_buffer sock x s) = (t, set_buffer sock x s').
Proof.
  intros E. injection E as <- <-. reflexivity.
Qed.

Lemma saveData_set_buffer (sock : nat) (x : list N) (s : Server) :
  saveData (set_buffer sock x s) = set_buffer sock x (saveData s).
Proof. apply server_ext; reflexivity. Qed.

Lemma publish_set_buffer (sock : nat) (x : list N) ps (s : Server) :
  publish ps (set_buffer sock x s) = set_buffer sock x (publish ps s).
Proof. apply server_ext; reflexivity. Qed.

Lemma publishShadeDiscovery_set_buffer (sock : nat) (x : list N) (k : string) (s : Server) :
  publishShadeDiscovery k (set_buffer sock x s)
  = set_buffer sock x (publishShadeDiscovery k s).
Proof.
  unfold publishShadeDiscovery.
  change (mqttConnected (set_buffer sock x s)) with (mqttConnected s).
  destruct (mqttConnected s); [apply publish_set_buffer|reflexivity].
Qed.

Lemma publishShadeState_set_buffer (sock : nat) (x : list N) (k : string) (p : JSValue)
    (b : bool) (s : Server) :
  publishShadeState k p b (set_buffer sock x s)
  = set_buffer sock x (publishShadeState k p b s).
Proof.
  unfold publishShadeState.
  change (mqttConnected (set_buffer sock x s)) with (mqttConnected s).
  destruct (mqttConnected s); [|reflexivity].
  destruct (positionToPercent p); [apply publish_set_buffer|reflexivity].
Qed.

Lemma assignInherited_set_buffer (sock : nat) (x : list N) (k : string) (s : Server) :
  assignInherited k (set_buffer sock x s) = set_buffer sock x (assignInherited k s).
Proof.
  unfold assignInherited. destruct (String.eqb k "__proto__"); [|reflexivity].
  apply server_ext; reflexivity.
Qed.

Lemma bindSession_set_buffer (sock : nat) (k : string) (x : list N) (s : Server) :
  bindSession sock k (set_buffer sock x s) = set_buffer sock x (bindSession sock k s).
Proof.
  unfold bindSession. cbv zeta.
  rewrite bind_set_buffer, set_connectedShades_set_buffer. reflexivity.
Qed.

Lemma ensureRecord_set_buffer (sock : nat) (k : string) (x : list N) (s : Server) :
  ensureRecord k (set_buffer sock x s) = set_buffer sock x (ensureRecord k s).
Proof.
  unfold ensureRecord.
  change (shadesDB_get (set_buffer sock x s) k) with (shadesDB_get s k).
  destruct (shadesDB_get s k); reflexivity.
Qed.

Lemma assignFields_set_buffer (sock : nat) (k : string) (m v p : JSValue) (x : list N)
    (s : Server) :
  assignFields k m v p (set_buffer sock x s) = set_buffer sock x (assignFields k m v p s).
Proof.
  unfold assignFields.
  destruct (now s) as [t s1] eqn:En. rewrite (now_set_buffer _ _ _ _ _ En).
  change (shadesDB_get (set_buffer sock x s1) k) with (shadesDB_get s1 k).
  destruct (shadesDB_get s1 k).
  - apply set_shadesDB_set_buffer.
  - apply assignInherited_set_buffer.
  - reflexivity.
Qed.

Lemma assignCurrent_set_buffer (sock : nat) (k : string) (q : JSNumber) (x : list N)
    (s : Server) :
  assignCurrent k q (set_buffer sock x s) = set_buffer sock x (assignCurrent k q s).
Proof.
  unfold assignCurrent.
  change (shadesDB_get (set_buffer sock x s) k) with (shadesDB_get s k).
  destruct (shadesDB_get s k).
  - apply set_shadesDB_set_buffer.
  - apply assignInherited_set_buffer.
  - reflexivity.
Qed.

Lemma ingestStatus_set_buffer (sock : nat) (k : string) (m v p : JSValue) (x : list N)
    (s : Server) :
  ingestStatus sock k m v p (set_buffer sock x s)
  = set_buffer sock x (ingestStatus sock k m v p s).
Proof.
  unfold ingestStatus. cbv zeta.
  rewrite bindSession_set_buffer, ensureRecord_set_buffer, assignFields_set_buffer.
  destruct (positionToPercent p) as [q|]; [|reflexivity].
  rewrite assignCurrent_set_buffer, saveData_set_buffer.
  destruct (statusLog m v p); [|reflexivity].
  rewrite publishShadeDiscovery_set_buffer, publishShadeState_set_buffer. reflexivity.
Qed.

Lemma onMessage_set_buffer (sock : nat) (bytes x : list N) (s : Server) :
  onMessage sock bytes (set_buffer sock x s) = set_buffer sock x (onMessage sock bytes s).
Proof.
  unfold onMessage. destruct (JSON_parse bytes) as [data|]; [|reflexivity].
  destruct (get data "chipID") as [id|]; cbn [mbind outcome_bind]; [|reflexivity].
  destruct (truthy id); [|reflexivity].
  destruct (ToString id) as [k|]; cbn [mbind outcome_bind]; [|reflexivity].
  destruct (get data "model") as [m|]; cbn [mbind outcome_bind]; [|reflexivity].
  destruct (get data "version") as [v|]; cbn [mbind outcome_bind]; [|reflexivity].
  destruct (get data "position") as [p|]; cbn [mbind outcome_bind]; [|reflexivity].
  apply ingestStatus_set_buffer.
Qed.

(** The closure variable [buffer] is only read when a chunk arrives: what
    it holds during the loop does not matter. *)
Lemma readLoop_set_buffer (fuel sock : nat) (bytes x : list N) (s : Server) :
  readLoop fuel sock bytes (set_buffer sock x s) = readLoop fuel sock bytes s.
Proof.
  revert bytes s. induction fuel as [|fuel IH]; intros bytes s; cbn [readLoop].
  - apply set_buffer_twice.
  - destruct (blen bytes <? 2)%N; [apply set_buffer_twice|].
    destruct (parseWebSocketFrame bytes) as [[frame|]|]; try apply set_buffer_twice.
    repeat match goal with
           | |- context [if ?c then _ else _] => destruct c
           end.
    + rewrite socket_end_set_buffer. apply set_buffer_twice.
    + rewrite sendWebSocketFrame_set_buffer. apply IH.
    + apply IH.
    + rewrite onMessage_set_buffer. apply IH.
    + apply IH.
Qed.

Lemma publishShadeState_sessions (k : string) (p : JSValue) (b : bool) (s : Server) :
  sessions (publishShadeState k p b s) = sessions s.
Proof.
  unfold publishShadeState.
  destruct (mqttConnected s); [destruct (positionToPercent p)|]; reflexivity.
Qed.

Lemma publishShadeDiscovery_sessions (k : string) (s : Server) :
  sessions (publishShadeDiscovery k s) = sessions s.
Proof. unfold publishShadeDiscovery. destruct (mqttConnected s); reflexivity. Qed.

Lemma sendWebSocketFrame_sessions (sock : nat) (data : list N) (op : N) (s : Server) :
  sessions (sendWebSocketFrame sock data op s) = sessions s.
Proof.
  unfold sendWebSocketFrame, socket_write. destruct (sockets s !! sock) as [so|]; [|reflexivity].
  destruct (destroyed so); [reflexivity|]. destruct (ended so); reflexivity.
Qed.

Lemma assignInherited_sessions (k : string) (s : Server) :
  sessions (assignInherited k s) = sessions s.
Proof. unfold assignInherited. destruct (String.eqb k "__proto__"); reflexivity. Qed.

Lemma ensureRecord_sessions (k : string) (s : Server) :
  sessions (ensureRecord k s) = sessions s.
Proof. unfold ensureRecord. destruct (shadesDB_get s k); reflexivity. Qed.

Lemma assignFields_sessions (k : string) (m v p : JSValue) (s : Server) :
  sessions (assignFields k m v p s) = sessions s.
Proof.
  unfold assignFields. change (sessions s) with (sessions (snd (now s))).
  destruct (now s) as [t s1]. cbn [snd].
  destruct (shadesDB_get s1 k); try reflexivity. apply assignInherited_sessions.
Qed.

Lemma assignCurrent_sessions (k : string) (q : JSNumber) (s : Server) :
  sessions (assignCurrent k q s) = sessions s.
Proof.
  unfold assignCurrent.
  destruct (shadesDB_get s k); try reflexivity. apply assignInherited_sessions.
Qed.

Lemma ingestStatus_sessions (sock : nat) (k : string) (m v p : JSValue) (s : Server) :
  sessions (ingestStatus sock k m v p s)
  = alter (fun c => {| shadeChipID := Some k; buffer := buffer c |}) sock (sessions s).
Proof.
  assert (E : sessions (assignFields k m v p (ensureRecord k (bindSession sock k s)))
              = alter (fun c => {| shadeChipID := Some k; buffer := buffer c |}) sock
                      (sessions s)).
  { rewrite assignFields_sessions, ensureRecord_sessions. reflexivity. }
  unfold ingestStatus. cbv zeta.
  destruct (positionToPercent p) as [q|]; [|exact E].
  destruct (statusLog m v p);
    rewrite ?publishShadeState_sessions, ?publishShadeDiscovery_sessions;
    change (sessions (saveData ?a)) with (sessions a);
    rewrite assignCurrent_sessions; exact E.
Qed.

Lemma onMessage_session (sock : nat) (bytes : list N) (s : Server) :
  is_Some (sessions s !! sock) -> is_Some (sessions (onMessage sock bytes s) !! sock).
Proof.
  intros Hs. unfold onMessage. destruct (JSON_parse bytes) as [data|]; [|exact Hs].
  destruct (get data "chipID") as [id|]; cbn [mbind outcome_bind]; [|exact Hs].
  destruct (truthy id); [|exact Hs].
  destruct (ToString id) as [k|]; cbn [mbind outcome_bind]; [|exact Hs].
  destruct (get data "model") as [m|]; cbn [mbind outcome_bind]; [|exact Hs].
  destruct (get data "version") as [v|]; cbn [mbind outcome_bind]; [|exact Hs].
  destruct (get data "position") as [p|]; cbn [mbind outcome_bind]; [|exact Hs].
  change (is_Some (sessions (ingestStatus sock k m v p s) !! sock)).
  rewrite ingestStatus_sessions, lookup_alter_eq. destruct Hs as [c ->]. eexists. reflexivity.
Qed.

Lemma set_buffer_session (sock : nat) (x : list N) (s : Server) :
  is_Some (sessions s !! sock) ->
  exists c, sessions (set_buffer sock x s) !! sock = Some c /\ buffer c = x.
Proof.
  intros [c Hc]. unfold set_buffer.
  destruct s as [live db file socks sess mq pubs clk n poll]. server_simpl.
  rewrite lookup_alter_eq, Hc. eexists. split; reflexivity.
Qed.

(** If the socket is still open when the loop is left, the loop has
    consumed a prefix of whole frames, none of them a close frame: the bytes
    that follow can be appended before or after. *)
Lemma readLoop_resume (sock fuel : nat) (bytes : list N) (s : Server) :
  (length bytes <= fuel)%nat ->
  is_Some (sessions s !! sock) ->
  ended <$> sockets (readLoop fuel sock bytes s) !! sock = Some false ->
  exists c, sessions (readLoop fuel sock bytes s) !! sock = Some c /\
    forall more fuel1 fuel2,
      (length (bytes ++ more) <= fuel1)%nat -> (length (buffer c ++ more) <= fuel2)%nat ->
      readLoop fuel2 sock (buffer c ++ more) (readLoop fuel sock bytes s)
      = readLoop fuel1 sock (bytes ++ more) s.
Proof.
  revert bytes s.
  assert (Stop : forall bytes s, is_Some (sessions s !! sock) ->
            exists c, sessions (set_buffer sock bytes s) !! sock = Some c /\
              forall more fuel1 fuel2,
                (length (bytes ++ more) <= fuel1)%nat ->
                (length (buffer c ++ more) <= fuel2)%nat ->
                readLoop fuel2 sock (buffer c ++ more) (set_buffer sock bytes s)
                = readLoop fuel1 sock (bytes ++ more) s).
  { intros bytes s Hs. destruct (set_buffer_session sock bytes s Hs) as (c & Hc & Hb).
    exists c. split; [exact Hc|]. rewrite Hb. intros more fuel1 fuel2 H1 H2.
    rewrite readLoop_set_buffer. apply readLoop_fuel; assumption. }
  induction fuel as [|fuel IH]; intros bytes s Hf Hs He.
  - apply Stop, Hs.
  - cbn [readLoop] in He |- *.
    destruct (blen bytes <? 2)%N eqn:E2; [apply Stop, Hs|].
    destruct (parse_returns bytes) as (r & Hp & Hr). rewrite Hp in He |- *.
    destruct r as [frame|]; [|apply Stop, Hs].
    specialize (Hr frame eq_refl).
    set (rest := drop (N.to_nat (totalLength frame)) bytes) in *.
    assert (Hd : (length rest <= fuel)%nat).
    { subst rest. rewrite length_drop. unfold blen in Hr. lia. }
    assert (Hmore : forall more fuel1 s0, (length (bytes ++ more) <= fuel1)%nat ->
              readLoop fuel1 sock (bytes ++ more) s0
              = let fuel0 := pred fuel1 in
                if (opcode frame =? 0x8)%N then
                  set_buffer sock (rest ++ more) (socket_end sock s0)
                else if (opcode frame =? 0x9)%N then
                  readLoop fuel0 sock (rest ++ more)
                           (sendWebSocketFrame sock (payload frame) 0xA%N s0)
                else if (opcode frame =? 0xA)%N then readLoop fuel0 sock (rest ++ more) s0
                else if (opcode frame =? 0x1)%N || (opcode frame =? 0x2)%N then
                  readLoop fuel0 sock (rest ++ more) (onMessage sock (payload frame) s0)
                else readLoop fuel0 sock (rest ++ more) s0).
    { intros more fuel1 s0 H1. destruct fuel1 as [|fuel1].
      { rewrite length_app in H1. unfold blen in Hr. lia. }
      cbn [readLoop pred]. rewrite (ltb_app_false _ _ _ E2), (parse_stable _ more _ Hp).
      subst rest. rewrite drop_app_le by (unfold blen in Hr; lia). reflexivity. }
    assert (Hlen : forall more fuel1, (length (bytes ++ more) <= fuel1)%nat ->
              (length (rest ++ more) <= pred fuel1)%nat).
    { intros more fuel1 H1. subst rest. rewrite length_app in *. rewrite length_drop.
      unfold blen in Hr. lia. }
    destruct (opcode frame =? 0x8)%N eqn:E8.
    { exfalso. revert He. unfold socket_end, set_buffer.
      destruct s as [live db file socks sess mq pubs clk n poll]. server_simpl.
      rewrite lookup_alter_eq. destruct (socks !! sock); cbn; congruence. }
    assert (Go : forall s', is_Some (sessions s' !! sock) ->
              ended <$> sockets (readLoop fuel sock rest s') !! sock = Some false ->
              (forall more fuel1, (length (bytes ++ more) <= fuel1)%nat ->
                 readLoop fuel1 sock (bytes ++ more) s
                 = readLoop (pred fuel1) sock (rest ++ more) s') ->
              exists c, sessions (readLoop fuel sock rest s') !! sock = Some c /\
                forall more fuel1 fuel2,
                  (length (bytes ++ more) <= fuel1)%nat ->
                  (length (buffer c ++ more) <= fuel2)%nat ->
                  readLoop fuel2 sock (buffer c ++ more) (readLoop fuel sock rest s')
                  = readLoop fuel1 sock (bytes ++ more) s).
    { intros s' Hs' He' Hstep. destruct (IH rest s' Hd Hs' He') as (c & Hc & Hk).
      exists c. split; [exact Hc|]. intros more fuel1 fuel2 H1 H2.
      rewrite (Hstep more fuel1 H1). apply Hk; [apply Hlen, H1|exact H2]. }
    destruct (opcode frame =? 0x9)%N eqn:E9.
    { apply Go; [rewrite sendWebSocketFrame_sessions; exact Hs|exact He|].
      intros more fuel1 H1. rewrite (Hmore more fuel1 s H1). cbv zeta.
      rewrite ?E8, ?E9, ?EA, ?E12. reflexivity. }
    destruct (opcode frame =? 0xA)%N eqn:EA.
    { apply Go; [exact Hs|exact He|].
      intros more fuel1 H1. rewrite (Hmore more fuel1 s H1). cbv zeta.
      rewrite ?E8, ?E9, ?EA, ?E12. reflexivity. }
    destruct ((opcode frame =? 0x1)%N || (opcode frame =? 0x2)%N) eqn:E12.
    { apply Go; [apply onMessage_session, Hs|exact He|].
      intros more fuel1 H1. rewrite (Hmore more fuel1 s H1). cbv zeta.
      rewrite ?E8, ?E9, ?EA, ?E12. reflexivity. }
    apply Go; [exact Hs|exact He|].
    intros more fuel1 H1. rewrite (Hmore more fuel1 s H1). cbv zeta.
    rewrite ?E8, ?E9, ?EA, ?E12. reflexivity.
Qed.

(** X12. How the byte stream of a connection is cut into chunks does not
    matter: two chunks handled one after the other leave the state that
    their concatenation leaves, as long as the socket is still open after
    the first, that is, the first holds no close frame. *)
Theorem chunks_concatenate (sock : nat) (a b : list N) (s : Server) :
  is_Some (sessions s !! sock) ->
  ended <$> sockets (onData sock a s) !! sock = Some false ->
  onData sock b (onData sock a s) = onData sock (a ++ b) s.
Proof.
  intros [c Hc]. unfold onData at 1 3 4. rewrite Hc. cbv zeta. intros He.
  destruct (readLoop_resume sock _ (buffer c ++ a) s (le_n _)) as (c1 & Hc1 & Hk);
    [rewrite Hc; eexists; reflexivity|exact He|].
  unfold onData. rewrite Hc1. cbv zeta. rewrite app_assoc.
  apply Hk; [|apply le_n]. rewrite <- app_assoc. apply le_n.
Qed.
End Chunking.

(** ** The store, the data file and the live-session map *)

Section StoreFacts.
Context `{Runtime} (CONFIG : Config).

Lemma sameStore_refl (s : Server) : sameStore s s.
Proof. repeat split; reflexivity. Qed.

Lemma socket_write_store (sock : nat) (frame : list N) (s : Server) :
  sameStore s (socket_write sock frame s).
Proof.
  unfold socket_write. destruct (sockets s !! sock) as [so|]; [|apply sameStore_refl].
  destruct (destroyed so || ended so); repeat split; reflexivity.
Qed.

Lemma sendWebSocketFrame_store (sock : nat) (data : list N) (op : N) (s : Server) :
  sameStore s (sendWebSocketFrame sock data op s).
Proof.
  unfold sendWebSocketFrame. destruct (sockets s !! sock) as [so|]; [|apply sameStore_refl].
  destruct (destroyed so); [apply sameStore_refl|apply socket_write_store].
Qed.

Lemma publishShadeState_store (k : string) (p : JSValue) (b : bool) (s : Server) :
  sameStore s (publishShadeState k p b s).
Proof.
  unfold publishShadeState.
  destruct (mqttConnected s); [destruct (positionToPercent p)|]; repeat split; reflexivity.
Qed.

Lemma publishShadeDiscovery_store (k : string) (s : Server) :
  sameStore s (publishShadeDiscovery k s).
Proof. unfold publishShadeDiscovery. destruct (mqttConnected s); repeat split; reflexivity. Qed.

Lemma assignInherited_dataFile (k : string) (s : Server) :
  dataFile (assignInherited k s) = dataFile s.
Proof. unfold assignInherited. destruct (String.eqb k "__proto__"); reflexivity. Qed.

Lemma assignInherited_published (k : string) (s : Server) :
  published (assignInherited k s) = published s.
Proof. unfold assignInherited. destruct (String.eqb k "__proto__"); reflexivity. Qed.

(** The assignments of a status before the translation of the position
    reach neither the data file nor the broker. *)
Lemma assignFields_quiet (sock : nat) (k : string) (m v p : JSValue) (s : Server) :
  let s' := assignFields k m v p (ensureRecord k (bindSession sock k s)) in
  dataFile s' = dataFile s /\ published s' = published s /\
  mqttConnected s' = mqttConnected s.
Proof.
  cbv zeta. unfold assignFields.
  set (s1 := ensureRecord k (bindSession sock k s)).
  assert (E1 : dataFile s1 = dataFile s /\ published s1 = published s
               /\ mqttConnected s1 = mqttConnected s).
  { unfold s1, ensureRecord. destruct (shadesDB_get (bindSession sock k s) k);
      repeat split; reflexivity. }
  destruct E1 as (<- & <- & <-).
  change (dataFile s1) with (dataFile (snd (now s1))).
  change (published s1) with (published (snd (now s1))).
  change (mqttConnected s1) with (mqttConnected (snd (now s1))).
  destruct (now s1) as [t s2]. cbn [snd].
  destruct (shadesDB_get s2 k); repeat split; try reflexivity.
  - apply assignInherited_dataFile.
  - apply assignInherited_published.
  - unfold assignInherited. destruct (String.eqb k "__proto__"); reflexivity.
Qed.

(** A status whose position is translated ends with a write of the store
    to the data file; one whose position cannot be translated leaves the
    data file as it was. *)
Lemma ingestStatus_dataFile (sock : nat) (k : string) (m v p : JSValue) (s : Server) :
  dataFile (ingestStatus sock k m v p s)
  = match positionToPercent p with
    | Returned _ => Some (shadesDB (ingestStatus sock k m v p s))
    | Thrown _ => dataFile s
    end.
Proof.
  unfold ingestStatus. cbv zeta.
  destruct (positionToPercent p) as [q|]; [|apply assignFields_quiet].
  match goal with
  | |- context [saveData ?a] => set (s5 := a)
  end.
  destruct (statusLog m v p); [|reflexivity].
  destruct (publishShadeState_store k p true (publishShadeDiscovery k (saveData s5)))
    as (_ & -> & ->).
  destruct (publishShadeDiscovery_store k (saveData s5)) as (_ & -> & ->).
  reflexivity.
Qed.

Lemma onClose_savedSince (sock : nat) (s : Server) : savedSince s (onClose sock s).
Proof.
  unfold onClose. destruct (sessions s !! sock) as [c|]; [|left; split; reflexivity].
  destruct (boundIdentity c) as [k|]; [|left; split; reflexivity].
  cbv zeta.
  match goal with
  | |- savedSince _ (publishShadeState _ _ _ ?a) =>
      destruct (publishShadeState_store k (JNum (Int 0)) false a) as (_ & Hd & Hf);
      unfold savedSince; rewrite Hd, Hf; clear Hd Hf
  end.
  destruct (shadesDB_get _ k).
  - right. reflexivity.
  - right. unfold assignInherited. destruct (String.eqb k "__proto__"); reflexivity.
  - left. split; reflexivity.
Qed.

(** *** One step, for a relation between the state before and after *)

Section Relates.
Variable R : Server -> Server -> Prop.
Hypothesis R_trans : forall s1 s2 s3, R s1 s2 -> R s2 s3 -> R s1 s3.
Hypothesis R_store : forall s s', sameStore s s' -> R s s'.
Hypothesis R_ingest : forall sock k m v p s, R s (ingestStatus sock k m v p s).
Hypothesis R_close : forall sock s, R s (onClose sock s).

Lemma R_refl (s : Server) : R s s.
Proof. apply R_store, sameStore_refl. Qed.

Lemma onMessage_relates (sock : nat) (bytes : list N) (s : Server) :
  R s (onMessage sock bytes s).
Proof.
  unfold onMessage. destruct (JSON_parse bytes) as [data|]; [|apply R_refl].
  destruct (get data "chipID") as [id|]; cbn [mbind outcome_bind]; [|apply R_refl].
  destruct (truthy id); [|apply R_refl].
  destruct (ToString id) as [k|]; cbn [mbind outcome_bind]; [|apply R_refl].
  destruct (get data "model") as [m|]; cbn [mbind outcome_bind]; [|apply R_refl].
  destruct (get data "version") as [v|]; cbn [mbind outcome_bind]; [|apply R_refl].
  destruct (get data "position") as [p|]; cbn [mbind outcome_bind]; [|apply R_refl].
  apply R_ingest.
Qed.

Lemma readLoop_relates (fuel sock : nat) (bytes : list N) (s : Server) :
  R s (readLoop fuel sock bytes s).
Proof.
  assert (Hb : forall x s0, R s0 (set_buffer sock x s0)).
  { intros x s0. apply R_store. repeat split; reflexivity. }
  revert bytes s. induction fuel as [|fuel IH]; intros bytes s; cbn [readLoop].
  - apply Hb.
  - destruct (blen bytes <? 2)%N; [apply Hb|].
    destruct (parseWebSocketFrame bytes) as [[frame|]|]; try apply Hb.
    repeat match goal with
           | |- context [if ?c then _ else _] => destruct c
           end.
    + apply R_store. repeat split; reflexivity.
    + eapply R_trans; [|apply IH]. apply R_store, sendWebSocketFrame_store.
    + apply IH.
    + eapply R_trans; [|apply IH]. apply onMessage_relates.
    + apply IH.
Qed.

Lemma step_relates (s s' : Server) (e : Event) (r : option Response) :
  e <> Restart -> step CONFIG s e = Some (s', r) -> R s s'.
Proof.
  intros He Hstep. unfold step in Hstep.
  destruct (handle CONFIG s e) as [[s1 r1]|] eqn:Eh; [|discriminate].
  destruct (polluted s1); [discriminate|]. injection Hstep as <- <-.
  assert (Hsend : forall ws data, R s (sendToShade ws data s)).
  { intros ws data. apply R_store, sendWebSocketFrame_store. }
  destruct e as [sock key protocol|sock chunk|sock|id body|id body|id body| | |b|id position| ];
    cbn [handle] in Eh.
  - destruct (sockets s !! sock); [discriminate|]. injection Eh as <- <-.
    apply R_store. unfold onUpgrade.
    destruct key as [k|]; [|repeat split; reflexivity].
    destruct (header_truthy (Some k)); [|repeat split; reflexivity].
    cbv zeta.
    destruct (socket_write_store sock (Buffer_from (handshakeResponse k protocol))
                (set_sockets <[sock := freshSocket]> s)) as (A & B & C).
    repeat split; assumption.
  - destruct (listening s sock); [|discriminate]. injection Eh as <- <-.
    unfold onData. destruct (sessions s !! sock); [|apply R_refl].
    apply readLoop_relates.
  - destruct (listening s sock); [|discriminate]. injection Eh as <- <-.
    eapply R_trans; [|apply R_close]. apply R_store. repeat split; reflexivity.
  - unfold postPosition in Eh.
    destruct (JSON_parse body) as [j|]; [|injection Eh as <- <-; apply R_refl].
    match type of Eh with
    | (let '(_, _) := match ?c with _ => _ end in _) = _ => destruct c as [[position command]|]
    end; [|injection Eh as <- <-; apply R_refl].
    destruct (connectedShades s !! id); injection Eh as <- <-; [apply Hsend|apply R_refl].
  - unfold postCommand in Eh.
    destruct (JSON_parse body) as [j|]; [|injection Eh as <- <-; apply R_refl].
    match type of Eh with
    | (let '(_, _) := match ?c with _ => _ end in _) = _ => destruct c as [command|]
    end; [|injection Eh as <- <-; apply R_refl].
    destruct (connectedShades s !! id); injection Eh as <- <-; [apply Hsend|apply R_refl].
  - unfold postTest in Eh.
    destruct (JSON_parse body) as [j|]; [|injection Eh as <- <-; apply R_refl].
    destruct (connectedShades s !! id); injection Eh as <- <-; [apply Hsend|apply R_refl].
  - injection Eh as <- <-. apply R_refl.
  - injection Eh as <- <-. apply R_refl.
  - injection Eh as <- <-. apply R_store. repeat split; reflexivity.
  - injection Eh as <- <-. unfold onMqttSet.
    destruct (percentToCommand CONFIG (JNum position)); [|apply R_refl].
    destruct (connectedShades s !! id); [apply Hsend|apply R_refl].
  - congruence.
Qed.

Lemma run_relates (events : list Event) (s s' : Server) :
  Restart ∉ events -> run CONFIG s events = Some s' -> R s s'.
Proof.
  revert s. induction events as [|e events IH]; intros s Hno Hrun; cbn [run] in Hrun.
  - injection Hrun as <-. apply R_refl.
  - destruct (step CONFIG s e) as [[s1 r]|] eqn:Es; [|discriminate].
    apply (R_trans s s1 s').
    + eapply step_relates; [|exact Es]. set_solver.
    + apply IH; [set_solver|exact Hrun].
Qed.
End Relates.

(** *** The relations that the handlers keep *)

Lemma savedSince_trans (s1 s2 s3 : Server) :
  savedSince s1 s2 -> savedSince s2 s3 -> savedSince s1 s3.
Proof.
  unfold savedSince. intros A [[B C]|B]; [|right; exact B].
  rewrite B, C. exact A.
Qed.

Lemma savedSince_store (s s' : Server) : sameStore s s' -> savedSince s s'.
Proof. intros (_ & A & B). left. split; assumption. Qed.

Lemma sameIdentity_refl (shade : DeviceRecord) : sameIdentity shade shade.
Proof. repeat split; reflexivity. Qed.

Lemma recordsKept_trans (s1 s2 s3 : Server) :
  recordsKept s1 s2 -> recordsKept s2 s3 -> recordsKept s1 s3.
Proof.
  intros A B k shade Hk. destruct (A k shade Hk) as (shade2 & H2 & I2).
  destruct (B k shade2 H2) as (shade3 & H3 & I3). exists shade3. split; [exact H3|].
  destruct I2 as (? & ? & ?), I3 as (? & ? & ?). repeat split; congruence.
Qed.

Lemma recordsKept_store (s s' : Server) : sameStore s s' -> recordsKept s s'.
Proof.
  intros (_ & A & _) k shade Hk. exists shade. rewrite A. split; [exact Hk|].
  apply sameIdentity_refl.
Qed.

Lemma ingestStatus_recordsKept (sock : nat) (k : string) (m v p : JSValue) (s : Server) :
  recordsKept s (ingestStatus sock k m v p s).
Proof.
  intros i shade Hi. destruct (ingestStatus_registry sock k m v p s) as [_ Hd].
  cbv zeta in Hd. rewrite Hd. clear Hd.
  destruct (decide (k = i)) as [<-|Hne].
  - rewrite Hi, lookup_insert_eq. eexists. split; [reflexivity|].
    destruct (translated_fields p (assignStatus (clock s (reads s)) m v p shade))
      as (E1 & E2 & E3 & _).
    repeat split; assumption.
  - exists shade. split; [|apply sameIdentity_refl].
    destruct (shadesDB s !! k) as [old|];
      [|destruct (bool_decide (k ∈ objectPrototypeMembers))];
      rewrite ?lookup_insert_ne by exact Hne; exact Hi.
Qed.

Lemma onClose_recordsKept (sock : nat) (s : Server) : recordsKept s (onClose sock s).
Proof.
  destruct (sessions s !! sock) as [c|] eqn:Ec;
    [|rewrite onClose_unbound;
      [apply recordsKept_store, sameStore_refl|intros c; rewrite Ec; discriminate]].
  destruct (boundIdentity c) as [k|] eqn:Ek;
    [|rewrite onClose_unbound;
      [apply recordsKept_store, sameStore_refl
      |intros c'; rewrite Ec; intros [= <-]; exact Ek]].
  destruct (onClose_registry sock c k s Ec Ek) as [_ Hd].
  intros i shade Hi. rewrite Hd, lookup_alter.
  destruct (decide (k = i)) as [<-|Hne].
  - rewrite Hi. eexists. split; [reflexivity|]. repeat split; reflexivity.
  - exists shade. split; [exact Hi|apply sameIdentity_refl].
Qed.

Lemma ingestStatus_keyed (sock : nat) (k : string) (m v p : JSValue) (s : Server) :
  keyed (shadesDB s) -> keyed (shadesDB (ingestStatus sock k m v p s)).
Proof.
  intros Hs. destruct (ingestStatus_registry sock k m v p s) as [_ Hd].
  cbv zeta in Hd. rewrite Hd. clear Hd.
  intros i shade.
  destruct (shadesDB s !! k) as [old|] eqn:Ek;
    [|destruct (bool_decide (k ∈ objectPrototypeMembers)); [apply Hs|]].
  - destruct (decide (k = i)) as [<-|Hne].
    + rewrite lookup_insert_eq. intros [= <-].
      destruct (translated_fields p (assignStatus (clock s (reads s)) m v p old))
        as (-> & -> & _).
      apply (Hs k old Ek).
    + rewrite lookup_insert_ne by exact Hne. apply Hs.
  - destruct (decide (k = i)) as [<-|Hne].
    + rewrite lookup_insert_eq. intros [= <-].
      destruct (translated_fields p (assignStatus (clock s (S (reads s))) m v p
                                                  (newShade k (clock s (reads s)))))
        as (-> & -> & _).
      split; reflexivity.
    + rewrite lookup_insert_ne by exact Hne. apply Hs.
Qed.

Lemma ingestStatus_keepsKeyed (sock : nat) (k : string) (m v p : JSValue) (s : Server) :
  keepsKeyed s (ingestStatus sock k m v p s).
Proof.
  intros [Hs Hf]. pose proof (ingestStatus_keyed sock k m v p s Hs) as Hk.
  split; [exact Hk|]. rewrite ingestStatus_dataFile.
  destruct (positionToPercent p); [exact Hk|exact Hf].
Qed.

Lemma onClose_keyed (sock : nat) (s : Server) :
  keyed (shadesDB s) -> keyed (shadesDB (onClose sock s)).
Proof.
  intros Hs.
  destruct (sessions s !! sock) as [c|] eqn:Ec;
    [|rewrite onClose_unbound; [exact Hs|intros c; rewrite Ec; discriminate]].
  destruct (boundIdentity c) as [k|] eqn:Ek;
    [|rewrite onClose_unbound; [exact Hs|intros c'; rewrite Ec; intros [= <-]; exact Ek]].
  destruct (onClose_registry sock c k s Ec Ek) as [_ Hd]. rewrite Hd.
  intros i shade. rewrite lookup_alter.
  destruct (decide (k = i)) as [<-|Hne]; [|apply Hs].
  destruct (shadesDB s !! k) as [old|] eqn:Eo; [|discriminate].
  intros [= <-]. apply (Hs k old Eo).
Qed.

Lemma onClose_keepsKeyed (sock : nat) (s : Server) : keepsKeyed s (onClose sock s).
Proof.
  intros [Hs Hf]. pose proof (onClose_keyed sock s Hs) as Hk. split; [exact Hk|].
  destruct (onClose_savedSince sock s) as [[_ ->]| ->]; [exact Hf|exact Hk].
Qed.

Lemma keepsKeyed_store (s s' : Server) : sameStore s s' -> keepsKeyed s s'.
Proof. intros (_ & A & B). unfold keepsKeyed, wellKeyed. rewrite A, B. tauto. Qed.

Lemma restart_or_not (e : Event) : e = Restart \/ e <> Restart.
Proof. destruct e; (left; reflexivity) || (right; discriminate). Qed.

Lemma step_wellKeyed (s s' : Server) (e : Event) (r : option Response) :
  step CONFIG s e = Some (s', r) -> wellKeyed s -> wellKeyed s'.
Proof.
  intros Hstep. destruct (restart_or_not e) as [->|He].
  - unfold step, handle in Hstep. cbn [boot polluted] in Hstep. injection Hstep as <- <-.
    intros [_ Hf]. split; exact Hf.
  - apply (step_relates keepsKeyed) with (e := e) (r := r); try assumption.
    + intros s1 s2 s3 A B C. apply B, A, C.
    + apply keepsKeyed_store.
    + apply ingestStatus_keepsKeyed.
    + apply onClose_keepsKeyed.
Qed.

Lemma ingestStatus_keepsRecorded (sock : nat) (k : string) (m v p : JSValue) (s : Server) :
  keepsRecorded s (ingestStatus sock k m v p s).
Proof.
  intros Hs i so. destruct (ingestStatus_registry sock k m v p s) as [Hc Hd].
  cbv zeta in Hc, Hd. rewrite Hc, Hd. clear Hc Hd.
  destruct (decide (k = i)) as [<-|Hne].
  - intros _. destruct (shadesDB s !! k) as [old|] eqn:Ek.
    + left. rewrite lookup_insert_eq. eauto.
    + destruct (bool_decide (k ∈ objectPrototypeMembers)) eqn:Ei.
      * right. apply bool_decide_eq_true in Ei. exact Ei.
      * left. rewrite lookup_insert_eq. eauto.
  - rewrite lookup_insert_ne by exact Hne. intros Hi.
    destruct (Hs i so Hi) as [Hr|Hm]; [left|right; exact Hm].
    destruct (shadesDB s !! k) as [old|];
      [|destruct (bool_decide (k ∈ objectPrototypeMembers))];
      rewrite ?lookup_insert_ne by exact Hne; exact Hr.
Qed.

Lemma onClose_keepsRecorded (sock : nat) (s : Server) : keepsRecorded s (onClose sock s).
Proof.
  intros Hs.
  destruct (sessions s !! sock) as [c|] eqn:Ec;
    [|rewrite onClose_unbound; [exact Hs|intros c; rewrite Ec; discriminate]].
  destruct (boundIdentity c) as [k|] eqn:Ek;
    [|rewrite onClose_unbound; [exact Hs|intros c'; rewrite Ec; intros [= <-]; exact Ek]].
  destruct (onClose_registry sock c k s Ec Ek) as [Hc Hd].
  intros i so. rewrite Hc, Hd, lookup_alter, lookup_delete.
  destruct (decide (k = i)) as [<-|Hne]; [discriminate|]. apply Hs.
Qed.

Lemma keepsRecorded_store (s s' : Server) : sameStore s s' -> keepsRecorded s s'.
Proof. intros (A & B & _). unfold keepsRecorded, bindingsRecorded. rewrite A, B. tauto. Qed.

Lemma step_bindingsRecorded (s s' : Server) (e : Event) (r : option Response) :
  step CONFIG s e = Some (s', r) -> bindingsRecorded s -> bindingsRecorded s'.
Proof.
  intros Hstep. destruct (restart_or_not e) as [->|He].
  - unfold step, handle in Hstep. cbn [boot polluted] in Hstep. injection Hstep as <- <-.
    intros _ k sock. cbn [boot connectedShades]. rewrite lookup_empty. discriminate.
  - apply (step_relates keepsRecorded) with (e := e) (r := r); try assumption.
    + intros s1 s2 s3 A B C. apply B, A, C.
    + apply keepsRecorded_store.
    + apply ingestStatus_keepsRecorded.
    + apply onClose_keepsRecorded.
Qed.

(** X13. A status is saved when its position can be translated, and only
    then.  When [positionToPercent] returns, the handler ends with the
    data file holding the store.  When it throws (the position is an
    object with a property [toString], say), the error is caught after
    the record has been created and its fields assigned: the record is
    flagged online with the new [lastSeen], [model], [firmware] and
    [rawPosition] and the [currentPosition] it had, the identity is bound
    to the socket, and neither the data file nor the broker hears of
    it. *)
Theorem status_saved_unless_thrown (sock : nat) (k : string) (m v p : JSValue) (s : Server) :
  let s' := ingestStatus sock k m v p s in
  match positionToPercent p with
  | Returned _ => dataFile s' = Some (shadesDB s')
  | Thrown _ =>
      dataFile s' = dataFile s /\ published s' = published s /\
      connectedShades s' !! k = Some sock /\
      (forall old, shadesDB s !! k = Some old ->
                   shadesDB s' !! k = Some (assignStatus (clock s (reads s)) m v p old)) /\
      (shadesDB s !! k = None -> k ∉ objectPrototypeMembers ->
       shadesDB s' !! k = Some (assignStatus (clock s (S (reads s))) m v p
                                             (newShade k (clock s (reads s)))) /\
       (dataFile s = None \/ dataFile s = Some (shadesDB s) ->
        dataFile s' <> Some (shadesDB s')))
  end.
Proof.
  intros s'. pose proof (ingestStatus_dataFile sock k m v p s) as Hf. fold s' in Hf.
  destruct (ingestStatus_registry sock k m v p s) as [Hc Hd]. fold s' in Hc, Hd.
  unfold translated in Hd.
  assert (Hpub : forall e, positionToPercent p = Thrown e -> published s' = published s).
  { intros e He. unfold s', ingestStatus. cbv zeta. rewrite He. apply assignFields_quiet. }
  destruct (positionToPercent p) as [q|e]; [exact Hf|].
  split; [exact Hf|]. split; [apply (Hpub e eq_refl)|].
  split; [rewrite Hc; apply lookup_insert_eq|]. split.
  - intros old Ho. rewrite Hd, Ho. apply lookup_insert_eq.
  - intros Hnone Hk. rewrite Hnone in Hd.
    rewrite bool_decide_eq_false_2 in Hd by exact Hk.
    split; [rewrite Hd; apply lookup_insert_eq|].
    intros Hsaved Heq. rewrite Hf in Heq.
    destruct Hsaved as [Hs|Hs]; rewrite Hs in Heq; [discriminate|].
    injection Heq as Heq.
    assert (Hl : shadesDB s' !! k = None) by (rewrite <- Heq; exact Hnone).
    rewrite Hd, lookup_insert_eq in Hl. discriminate.
Qed.

(** X14. In a run without a restart no record is deleted, and the
    [chipID], the [name] and the [firstSeen] of a record never change. *)
Theorem records_kept (events : list Event) (s s' : Server) (k : string)
    (shade : DeviceRecord) :
  Restart ∉ events -> run CONFIG s events = Some s' ->
  shadesDB s !! k = Some shade ->
  exists shade', shadesDB s' !! k = Some shade' /\
                 chipID shade' = chipID shade /\ name shade' = name shade /\
                 firstSeen shade' = firstSeen shade.
Proof.
  intros Hno Hrun. revert k shade. change (recordsKept s s').
  apply (run_relates recordsKept) with (events := events); try assumption.
  - apply recordsKept_trans.
  - apply recordsKept_store.
  - apply ingestStatus_recordsKept.
  - apply onClose_recordsKept.
Qed.

(** X15. In a process started without a data file, restarted or not, every
    record is stored under its own [chipID] and carries the name
    [LinkShade <chipID>]. *)
Theorem records_keyed (clk : nat -> Z) (events : list Event) (s : Server) (k : string)
    (shade : DeviceRecord) :
  run CONFIG (boot None clk 0) events = Some s ->
  shadesDB s !! k = Some shade ->
  chipID shade = k /\ name shade = ("LinkShade " +:+ k)%string.
Proof.
  intros Hrun. revert k shade.
  assert (Hgen : forall s0, wellKeyed s0 -> run CONFIG s0 events = Some s -> wellKeyed s).
  { clear Hrun. induction events as [|e events IH]; intros s0 H0 Hrun; cbn [run] in Hrun.
    - injection Hrun as <-. exact H0.
    - destruct (step CONFIG s0 e) as [[s1 r]|] eqn:Es; [|discriminate].
      apply (IH s1); [|exact Hrun]. eapply step_wellKeyed; [exact Es|exact H0]. }
  apply (Hgen (boot None clk 0)); [|exact Hrun].
  split; intros k shade; cbn; rewrite lookup_empty; discriminate.
Qed.

(** X16. In every run of a process, whatever its data file, an identity of
    the live-session map has a record in the store, unless it is the name
    of a member of [Object.prototype]. *)
Theorem live_identity_recorded (file : option (gmap string DeviceRecord)) (clk : nat -> Z)
    (events : list Event) (s : Server) (k : string) (sock : nat) :
  run CONFIG (boot file clk 0) events = Some s ->
  connectedShades s !! k = Some sock ->
  is_Some (shadesDB s !! k) \/ k ∈ objectPrototypeMembers.
Proof.
  intros Hrun. revert k sock.
  assert (Hgen : forall s0, bindingsRecorded s0 -> run CONFIG s0 events = Some s ->
                            bindingsRecorded s).
  { clear Hrun. induction events as [|e events IH]; intros s0 H0 Hrun; cbn [run] in Hrun.
    - injection Hrun as <-. exact H0.
    - destruct (step CONFIG s0 e) as [[s1 r]|] eqn:Es; [|discriminate].
      apply (IH s1); [|exact Hrun]. eapply step_bindingsRecorded; [exact Es|exact H0]. }
  apply (Hgen (boot file clk 0)); [|exact Hrun].
  intros k sock. cbn. rewrite lookup_empty. discriminate.
Qed.
End StoreFacts.

(** ** Publications and the dispatch of commands *)

Section DispatchFacts.
Context `{Runtime} (CONFIG : Config).

Lemma publishShadeState_published (k : string) (p : JSValue) (b : bool) (s : Server) :
  published (publishShadeState k p b s)
  = published s ++ (if mqttConnected s
                    then match positionToPercent p with
                         | Returned q => [PubPosition k (NumberToString q); PubAvailable k b]
                         | Thrown _ => []
                         end
                    else []).
Proof.
  unfold publishShadeState. destruct (mqttConnected s); [|rewrite app_nil_r; reflexivity].
  destruct (positionToPercent p); [reflexivity|rewrite app_nil_r; reflexivity].
Qed.

Lemma publishShadeDiscovery_published (k : string) (s : Server) :
  published (publishShadeDiscovery k s)
  = published s ++ (if mqttConnected s then [PubDiscovery k] else []) /\
  mqttConnected (publishShadeDiscovery k s) = mqttConnected s.
Proof.
  unfold publishShadeDiscovery. destruct (mqttConnected s) eqn:E; [split; [reflexivity|exact E]|].
  rewrite app_nil_r. split; [reflexivity|exact E].
Qed.

(** What a status publishes: nothing unless the position was translated
    and the log line written. *)
Lemma ingestStatus_published (sock : nat) (k : string) (m v p : JSValue) (s : Server) :
  published (ingestStatus sock k m v p s)
  = published s ++ (if mqttConnected s
                    then match positionToPercent p, statusLog m v p with
                         | Returned q, Returned _ =>
                             [PubDiscovery k; PubPosition k (NumberToString q);
                              PubAvailable k true]
                         | _, _ => []
                         end
                    else []).
Proof.
  unfold ingestStatus. cbv zeta.
  destruct (assignFields_quiet sock k m v p s) as (_ & E1 & E2). cbv zeta in E1, E2.
  set (s4 := assignFields k m v p (ensureRecord k (bindSession sock k s))) in *.
  assert (Hnil : published s4
                 = published s ++ (if mqttConnected s then [] else [])).
  { rewrite E1. destruct (mqttConnected s); rewrite app_nil_r; reflexivity. }
  destruct (positionToPercent p) as [q|] eqn:Ep; [|exact Hnil].
  assert (E5 : published (saveData (assignCurrent k q s4)) = published s4 /\
               mqttConnected (saveData (assignCurrent k q s4)) = mqttConnected s4).
  { unfold assignCurrent. destruct (shadesDB_get s4 k); try (split; reflexivity).
    unfold assignInherited. destruct (String.eqb k "__proto__"); split; reflexivity. }
  destruct (statusLog m v p); [|destruct E5 as [-> _]; exact Hnil].
  rewrite publishShadeState_published, Ep.
  destruct (publishShadeDiscovery_published k (saveData (assignCurrent k q s4))) as [-> ->].
  destruct E5 as [-> ->]. rewrite E1, E2.
  destruct (mqttConnected s); rewrite <- app_assoc; reflexivity.
Qed.

(** *** What a send does to the sockets *)

Lemma sendWebSocketFrame_open (ws : nat) (so : Socket) (data : list N) (op : N) (s : Server) :
  sockets s !! ws = Some so -> destroyed so = false -> ended so = false ->
  sendWebSocketFrame ws data op s = set_sockets <[ws := wrote so (encodeFrame data op)]> s.
Proof.
  intros Hso Hd He. unfold sendWebSocketFrame, socket_write, wrote.
  rewrite Hso, Hd, He. reflexivity.
Qed.

Lemma sendWebSocketFrame_closed (ws : nat) (data : list N) (op : N) (s : Server) :
  (forall so, sockets s !! ws = Some so -> destroyed so || ended so = true) ->
  sendWebSocketFrame ws data op s = s.
Proof.
  intros Hc. unfold sendWebSocketFrame, socket_write.
  destruct (sockets s !! ws) as [so|]; [|reflexivity].
  specialize (Hc so eq_refl). destruct (destroyed so); [reflexivity|].
  cbn [orb] in Hc |- *. rewrite Hc. reflexivity.
Qed.

Lemma sendWebSocketFrame_cases (ws : nat) (data : list N) (op : N) (s : Server) :
  sendWebSocketFrame ws data op s = s \/
  exists so, sockets s !! ws = Some so /\ destroyed so = false /\ ended so = false /\
             sendWebSocketFrame ws data op s
             = set_sockets <[ws := wrote so (encodeFrame data op)]> s.
Proof.
  destruct (sockets s !! ws) as [so|] eqn:Eso.
  - destruct (destroyed so) eqn:Ed;
      [left; apply sendWebSocketFrame_closed; intros so'; rewrite Eso; intros [= <-];
       rewrite Ed; reflexivity|].
    destruct (ended so) eqn:Ee;
      [left; apply sendWebSocketFrame_closed; intros so'; rewrite Eso; intros [= <-];
       rewrite Ed, Ee; reflexivity|].
    right. exists so. repeat split; try assumption.
    apply sendWebSocketFrame_open; assumption.
  - left. apply sendWebSocketFrame_closed. intros so. rewrite Eso. discriminate.
Qed.

Lemma prefix_append (a b : string) : String.prefix a (a +:+ b) = true.
Proof.
  induction a as [|c a IH]; [destruct b; reflexivity|].
  change (String c a +:+ b)%string with (String c (a +:+ b)). cbn [String.prefix].
  destruct (ascii_dec c c) as [_|Hne]; [exact IH|congruence].
Qed.

Lemma prefix_app_same (a b c : string) :
  String.prefix (a +:+ b) (a +:+ c) = String.prefix b c.
Proof.
  induction a as [|x a IH]; [reflexivity|].
  change (String.prefix (String x (a +:+ b)) (String x (a +:+ c)) = String.prefix b c).
  cbn [String.prefix]. destruct (ascii_dec x x) as [_|Hne]; [exact IH|congruence].
Qed.

Lemma sent_reply_head (rest : list (string * JSValue)) :
  String.prefix sentHead
    (default ""%string (JSON_stringify (JObj (("status", JStr "sent") :: rest)%string)))
  = true.
Proof.
  cbn [JSON_stringify default]. unfold sentHead, id.
  assert (E : forall x : string, ("" +:+ x)%string = x) by reflexivity.
  rewrite E, ?append_assoc, !prefix_app_same. apply prefix_append.
Qed.

Lemma commandText_null (k : string) :
  commandText k NaN
  = ("{" +:+ quote "chipID" +:+ ":" +:+ default "" (JSON_stringify (JNum (parseInt k))) +:+ ","
         +:+ quote "command" +:+ ":null}")%string.
Proof.
  unfold commandText. cbn [JSON_stringify default].
  destruct (parseInt k); cbn [default]; unfold id;
    rewrite ?append_assoc, ?append_empty_r; reflexivity.
Qed.

(** X17. What is published for a status is what is stored for it.  The
    record holds the raw position and is flagged online.  When the
    position can be translated, the record holds its percentage, and with
    the MQTT client connected the discovery document, that percentage and
    the availability [online] are published, in this order, provided the
    log line could be written (the model and the version can be turned
    into texts); without the client, or without the log line, nothing is
    published.  When the position cannot be translated, nothing is
    published. *)
Theorem status_published_as_stored (s : Server) (sock : nat) (k : string) (m v p : JSValue)
    (shade : DeviceRecord) :
  shadesDB (ingestStatus sock k m v p s) !! k = Some shade ->
  rawPosition shade = p /\ online shade = true /\
  match positionToPercent p with
  | Returned q =>
      currentPosition shade = JNum q /\
      published (ingestStatus sock k m v p s)
      = published s ++ (if mqttConnected s
                        then match statusLog m v p with
                             | Returned _ =>
                                 [PubDiscovery k;
                                  PubPosition k (NumberToString q);
                                  PubAvailable k (online shade)]
                             | Thrown _ => []
                             end
                        else [])
  | Thrown _ => published (ingestStatus sock k m v p s) = published s
  end.
Proof.
  intros Hk. destruct (ingestStatus_registry sock k m v p s) as [_ Hd].
  cbv zeta in Hd. rewrite Hd in Hk. clear Hd.
  pose proof (ingestStatus_published sock k m v p s) as Hpub.
  unfold translated in Hk.
  assert (Hs : rawPosition shade = p /\ online shade = true /\
               forall q, positionToPercent p = Returned q -> currentPosition shade = JNum q).
  { destruct (shadesDB s !! k) as [old|] eqn:Ek;
      [|destruct (bool_decide (k ∈ objectPrototypeMembers)); [congruence|]];
      rewrite lookup_insert_eq in Hk; injection Hk as <-;
      destruct (positionToPercent p); repeat split; try reflexivity;
      intros q' [= <-]; reflexivity. }
  destruct Hs as (Hr & Ho & Hc). split; [exact Hr|]. split; [exact Ho|]. rewrite Ho.
  destruct (positionToPercent p) as [q|].
  - split; [apply Hc; reflexivity|]. rewrite Hpub. reflexivity.
  - rewrite Hpub. destruct (mqttConnected s); apply app_nil_r.
Qed.

(** X19. A command, sent as a percentage, as a raw value or as a test
    document, over REST or over MQTT, changes nothing but the socket that
    the live-session map holds for the identity, and that by one write. *)
Theorem dispatch_only_writes (s s' : Server) (e : Event) (k : string) (body : list N)
    (position : JSNumber) (r : option Response) :
  e = PostPosition k body \/ e = PostCommand k body \/ e = PostTest k body
  \/ e = MqttSet k position ->
  step CONFIG s e = Some (s', r) ->
  s' = s \/
  exists ws so frame,
    connectedShades s !! k = Some ws /\ sockets s !! ws = Some so /\
    destroyed so = false /\ ended so = false /\
    s' = set_sockets <[ws := wrote so frame]> s.
Proof.
  intros He Hstep. unfold step in Hstep.
  destruct (handle CONFIG s e) as [[s1 r1]|] eqn:Eh; [|discriminate].
  destruct (polluted s1); [discriminate|]. injection Hstep as <- <-.
  assert (Hsend : forall ws data, connectedShades s !! k = Some ws ->
            sendToShade ws data s = s \/
            exists ws' so frame,
              connectedShades s !! k = Some ws' /\ sockets s !! ws' = Some so /\
              destroyed so = false /\ ended so = false /\
              sendToShade ws data s = set_sockets <[ws' := wrote so frame]> s).
  { intros ws data Hws. unfold sendToShade. cbv zeta.
    match goal with
    | |- context [sendWebSocketFrame ws ?b ?o s] =>
        destruct (sendWebSocketFrame_cases ws b o s) as [E|(so & Hso & Hd & Hn & E)];
        rewrite E
    end; [left; reflexivity|].
    right. exists ws, so. eexists. repeat split; try eassumption. }
  destruct He as [-> | [-> | [-> | ->]]]; cbn [handle] in Eh.
  - unfold postPosition in Eh.
    destruct (JSON_parse body) as [j|]; [|injection Eh as <- <-; left; reflexivity].
    match type of Eh with
    | (let '(_, _) := match ?c with _ => _ end in _) = _ => destruct c as [[p command]|]
    end; [|injection Eh as <- <-; left; reflexivity].
    destruct (connectedShades s !! k) as [ws|] eqn:Ews; injection Eh as <- <-;
      [eapply Hsend; reflexivity|left; reflexivity].
  - unfold postCommand in Eh.
    destruct (JSON_parse body) as [j|]; [|injection Eh as <- <-; left; reflexivity].
    match type of Eh with
    | (let '(_, _) := match ?c with _ => _ end in _) = _ => destruct c as [command|]
    end; [|injection Eh as <- <-; left; reflexivity].
    destruct (connectedShades s !! k) as [ws|] eqn:Ews; injection Eh as <- <-;
      [eapply Hsend; reflexivity|left; reflexivity].
  - unfold postTest in Eh.
    destruct (JSON_parse body) as [j|]; [|injection Eh as <- <-; left; reflexivity].
    destruct (connectedShades s !! k) as [ws|] eqn:Ews; injection Eh as <- <-;
      [eapply Hsend; reflexivity|left; reflexivity].
  - injection Eh as <- <-. unfold onMqttSet. cbv zeta.
    destruct (percentToCommand CONFIG (JNum position)); [|left; reflexivity].
    destruct (connectedShades s !! k) as [ws|] eqn:Ews;
      [eapply Hsend; reflexivity|left; reflexivity].
Qed.

(** X20. A position that the route can read (it can be turned into a
    text, as the log line does, and so into a number) for an identity
    whose socket is open reaches the device as one write, a frame that
    decodes into a text message with the payload
    [{"chipID":n,"command":c}], [c] being the translation of the position;
    the same frame is written when the position arrives over MQTT. *)
Theorem position_delivered (s : Server) (k : string) (body : list N) (parsed position : JSValue)
    (text : string) (ws : nat) (so : Socket) :
  JSON_parse body = Some parsed -> get parsed "position" = Returned position ->
  ToString position = Returned text ->
  connectedShades s !! k = Some ws -> sockets s !! ws = Some so ->
  destroyed so = false -> ended so = false ->
  (forall command, percentToCommand CONFIG position = Returned command ->
                   (blen (Buffer_from (commandText k command)) < 2 ^ 64)%N) ->
  exists command frame,
    percentToCommand CONFIG position = Returned command /\
    fst (postPosition CONFIG k body s) = set_sockets <[ws := wrote so frame]> s /\
    parseWebSocketFrame frame
    = Returned (Some {| opcode := 1;
                        payload := Buffer_from (commandText k command);
                        totalLength := blen frame |}) /\
    (forall n, position = JNum n -> onMqttSet CONFIG k n s = fst (postPosition CONFIG k body s)).
Proof.
  intros Hparse Hget Htext Hws Hso Hd He Hlen.
  destruct (percentToCommand_returns CONFIG position text Htext) as [command Hcmd].
  specialize (Hlen command Hcmd).
  exists command, (encodeFrame (Buffer_from (commandText k command)) 1).
  assert (Hpost : fst (postPosition CONFIG k body s)
                  = sendWebSocketFrame ws (Buffer_from (commandText k command)) 1 s).
  { unfold postPosition. rewrite Hparse, Hget. cbn [mbind outcome_bind].
    rewrite Hcmd. cbn [mbind outcome_bind]. rewrite Htext. cbn [mbind outcome_bind].
    rewrite Hws. cbn [fst].
    unfold sendToShade, commandText. cbv zeta. reflexivity. }
  split; [exact Hcmd|]. split; [|split].
  - rewrite Hpost. apply sendWebSocketFrame_open; assumption.
  - rewrite <- (app_nil_r (encodeFrame _ _)) at 1.
    apply parse_encodeFrame; [reflexivity|exact Hlen].
  - intros n ->. rewrite Hpost. unfold onMqttSet. rewrite Hcmd, Hws.
    unfold sendToShade, commandText. cbv zeta. reflexivity.
Qed.

(** X21. A command that the routes can read, for an identity whose socket
    has been ended or destroyed but is still in the live-session map, is
    answered as sent, although nothing is written and nothing changes. *)
Theorem sent_without_delivery (s : Server) (k : string) (body : list N) (parsed : JSValue)
    (position command : JSValue) (ptext ctext : string) (ws : nat) (so : Socket) :
  connectedShades s !! k = Some ws -> sockets s !! ws = Some so ->
  destroyed so || ended so = true ->
  JSON_parse body = Some parsed ->
  get parsed "position" = Returned position -> ToString position = Returned ptext ->
  get parsed "command" = Returned command -> ToString command = Returned ctext ->
  exists viaPosition viaCommand viaTest,
    postPosition CONFIG k body s = (s, Json 200 viaPosition) /\
    postCommand k body s = (s, Json 200 viaCommand) /\
    postTest k body s = (s, Json 200 viaTest) /\
    String.prefix sentHead viaPosition = true /\
    String.prefix sentHead viaCommand = true /\
    String.prefix sentHead viaTest = true.
Proof.
  intros Hws Hso Hc Hparse Hp Hpt Hcmd Hct.
  assert (Hsend : forall data, sendToShade ws data s = s).
  { intros data. apply sendWebSocketFrame_closed. intros so'. rewrite Hso.
    intros [= <-]. exact Hc. }
  destruct (percentToCommand_returns CONFIG position ptext Hpt) as [c Hpc].
  unfold postPosition, postCommand, postTest. rewrite Hparse, Hp, Hcmd.
  cbn [mbind outcome_bind]. rewrite Hpc, Hpt, Hct. cbn [mbind outcome_bind].
  rewrite Hws, !Hsend.
  do 3 eexists. split; [reflexivity|]. split; [reflexivity|]. split; [reflexivity|].
  split; [|split]; apply sent_reply_head.
Qed.

Lemma percentToCommand_undefined : percentToCommand CONFIG JUndefined = Returned NaN.
Proof.
  unfold percentToCommand. cbn [ToNumber mbind outcome_bind rmul rdiv].
  destruct (toReal (Int (SHADE_MIN CONFIG))); reflexivity.
Qed.

(** X22. A request for a position whose body has no [position] is not
    rejected: the translation of [undefined] is [NaN], which is sent to the
    device, and echoed in the reply, as [null]; the identity is sent as
    the JSON text of [parseInt(chipID)], the digits of the identity when
    it is at most 2^53. *)
Theorem missing_position_sends_null (s : Server) (k : string) (body : list N)
    (props : list (string * JSValue)) (ws : nat) :
  JSON_parse body = Some (JObj props) -> own_property props "position" = JUndefined ->
  connectedShades s !! k = Some ws ->
  let identity := default ""%string (JSON_stringify (JNum (parseInt k))) in
  percentToCommand CONFIG JUndefined = Returned NaN /\
  postPosition CONFIG k body s
  = (sendWebSocketFrame ws
       (Buffer_from ("{" +:+ quote "chipID" +:+ ":" +:+ identity +:+ ","
                         +:+ quote "command" +:+ ":null}")) 1 s,
     Json 200 (sentHead +:+ "," +:+ quote "chipID" +:+ ":" +:+ quote k +:+ ","
                        +:+ quote "command" +:+ ":null}")) /\
  (Z.abs (digitsValue k) <= 2 ^ 53 -> identity = decimal (digitsValue k)).
Proof.
  intros Hparse Hprop Hws identity. split; [apply percentToCommand_undefined|]. split.
  - unfold postPosition. rewrite Hparse. cbn [get]. rewrite Hprop.
    cbn [mbind outcome_bind]. rewrite percentToCommand_undefined.
    cbn [mbind outcome_bind ToString]. rewrite Hws.
    f_equal.
    + unfold sendToShade. cbv zeta.
      change (match JSON_stringify (JObj [("chipID", JNum (parseInt k));
                                          ("command", JNum NaN)]%string) with
              | Some text => text
              | None => "undefined"%string
              end) with (commandText k NaN).
      rewrite commandText_null. reflexivity.
    + f_equal. cbn [JSON_stringify default]. unfold sentHead, id.
      rewrite ?append_assoc, ?append_empty_r. reflexivity.
  - intros Hk. unfold identity. rewrite (parseInt_value k Hk).
    cbn [JSON_stringify default NumberToString].
    apply Z.leb_le in Hk. rewrite Hk. reflexivity.
Qed.
End DispatchFacts.

(** ** Publications of a teardown *)

Section TeardownFacts.
Context `{Runtime} (CONFIG : Config).

(** X18. The teardown of a session that had bound the identity [k]
    publishes the position [0] and the availability [offline] for [k],
    while the record of [k] keeps the position it had. *)
Theorem teardown_publishes_zero (s s' : Server) (sock : nat) (c : Session) (k : string)
    (r : option Response) :
  sessions s !! sock = Some c -> boundIdentity c = Some k -> mqttConnected s = true ->
  step CONFIG s (Close sock) = Some (s', r) ->
  published s' = published s ++ [PubPosition k "0"; PubAvailable k false] /\
  forall shade, shadesDB s !! k = Some shade ->
                exists shade', shadesDB s' !! k = Some shade' /\
                               rawPosition shade' = rawPosition shade /\
                               currentPosition shade' = currentPosition shade.
Proof.
  intros Hc Hk Hmq Hstep. unfold step, handle in Hstep.
  destruct (listening s sock); [|discriminate].
  destruct (polluted _); [discriminate|]. injection Hstep as <- <-.
  split.
  - unfold onClose. change (sessions (socket_destroy sock s)) with (sessions s).
    rewrite Hc, Hk. cbv zeta. rewrite publishShadeState_published.
    match goal with
    | |- context [mqttConnected ?a] =>
        assert (E : published a = published s /\ mqttConnected a = true)
    end.
    { rewrite <- Hmq. destruct (shadesDB_get _ k); try (split; reflexivity).
      unfold assignInherited. destruct (String.eqb k "__proto__"); split; reflexivity. }
    destruct E as [-> ->].
    rewrite positionToPercent_Int by (vm_compute; discriminate). reflexivity.
  - destruct (onClose_registry sock c k (socket_destroy sock s) Hc Hk) as [_ Hd].
    rewrite Hd. intros shade Hs. change (shadesDB (socket_destroy sock s)) with (shadesDB s).
    rewrite lookup_alter_eq, Hs. eexists. split; [reflexivity|]. split; reflexivity.
Qed.
End TeardownFacts.

(** ** Runs of the table runtime *)

#[local] Existing Instance tableRuntime.

(** C2, refuted as stated: under the default calibration 50 percent
    becomes the command 87, which reads back as 52 percent.  The two
    translations are those of every runtime ([percent_50], [command_87]);
    they are stated here for the table runtime. *)
Lemma roundTrip_default_counterexample :
  exists c q,
    0 <= 50 <= 100 /\ SHADE_MIN default_config < SHADE_MAX default_config /\
    percentToCommand default_config (JNum (Int 50)) = Returned (Int c) /\
    commandToPercent default_config (JNum (Int c)) = Returned (Int q) /\
    ~ Z.abs (q - 50) <= 1.
Proof.
  exists 87, 52. split; [lia|]. split; [reflexivity|].
  split; [apply percent_50|]. split; [apply command_87|]. lia.
Qed.

Lemma roundTrip_within_witness :
  moderate (SHADE_MIN default_config) /\ moderate (SHADE_MAX default_config) /\
  moderate 50 /\ SHADE_MIN default_config < SHADE_MAX default_config /\
  exists c q,
    percentToCommand default_config (JNum (Int 50)) = Returned (Int c) /\
    commandToPercent default_config (JNum (Int c)) = Returned (Int q) /\
    2 * (SHADE_MAX default_config - SHADE_MIN default_config) * Z.abs (q - 50)
    <= 100 + (SHADE_MAX default_config - SHADE_MIN default_config) /\
    (34 <= SHADE_MAX default_config - SHADE_MIN default_config -> Z.abs (q - 50) <= 1).
Proof.
  assert (M1 : moderate (SHADE_MIN default_config)) by (unfold moderate; cbn; lia).
  assert (M2 : moderate (SHADE_MAX default_config)) by (unfold moderate; cbn; lia).
  assert (M3 : moderate 50) by (unfold moderate; cbn; lia).
  assert (Hlt : SHADE_MIN default_config < SHADE_MAX default_config) by reflexivity.
  split; [exact M1|]. split; [exact M2|]. split; [exact M3|]. split; [exact Hlt|].
  exact (roundTrip_within default_config 50 M1 M2 M3 Hlt).
Defined.

(** C1, refuted as stated: session 1 reports 42, session 2 reports 42 and
    takes over the entry; when session 1 closes, the entry of session 2
    is removed and the record is flagged offline. *)
Lemma stale_teardown_counterexample :
  exists s s',
    run default_config (boot None tick 0) rebinding = Some s /\
    (exists c, sessions s !! 1%nat = Some c /\ boundIdentity c = Some "42"%string) /\
    connectedShades s !! "42"%string = Some 2%nat /\
    step default_config s (Close 1) = Some (s', None) /\
    ~ (connectedShades s' !! "42"%string = Some 2%nat /\
       online <$> shadesDB s' !! "42"%string = online <$> shadesDB s !! "42"%string).
Proof.
  exists (after rebinding), (after (rebinding ++ [Close 1])).
  split; [vm_compute; reflexivity|].
  split; [eexists; split; vm_compute; reflexivity|].
  split; [vm_compute; reflexivity|].
  split; [vm_compute; reflexivity|].
  vm_compute. intros [Hlive _]. discriminate Hlive.
Qed.

(** C6, refuted as stated: on a clock that moves between two readings the
    first status of an identity leaves [firstSeen] one reading behind
    [lastSeen]. *)
Lemma firstSeen_differs_counterexample :
  exists s shade,
    run default_config (boot None tick 0) oneStatus = Some s /\
    shadesDB (boot None tick 0) !! "42"%string = None /\
    shadesDB s !! "42"%string = Some shade /\
    firstSeen shade <> lastSeen shade.
Proof.
  exists (after oneStatus). eexists.
  split; [vm_compute; reflexivity|]. split; [vm_compute; reflexivity|].
  split; [vm_compute; reflexivity|]. vm_compute. discriminate.
Qed.

(** C8, refuted as stated: a process that restarts after a status was
    saved loads a record flagged online while its live-session map is
    empty. *)
Lemma online_after_restart_counterexample :
  exists s shade,
    run default_config (boot None tick 0) (oneStatus ++ [Restart]) = Some s /\
    shadesDB s !! "42"%string = Some shade /\
    ~ (online shade = true <-> is_Some (connectedShades s !! "42"%string)).
Proof.
  exists (after (oneStatus ++ [Restart])). eexists.
  split; [vm_compute; reflexivity|]. split; [vm_compute; reflexivity|].
  intros [Hto _]. destruct (Hto eq_refl) as [x Hx]. vm_compute in Hx. discriminate Hx.
Qed.

(** ** The theorems at concrete inputs *)

Lemma teardown_unconditional_witness :
  connectedShades (after (rebinding ++ [Close 1])) !! "42"%string = None /\
  shadesDB (after (rebinding ++ [Close 1])) !! "42"%string
  = assignOnline false <$> shadesDB (after rebinding) !! "42"%string.
Proof.
  destruct (teardown_unconditional default_config (after rebinding)
              (after (rebinding ++ [Close 1])) 1
              {| shadeChipID := Some "42"%string; buffer := [] |} "42" None)
    as (Hlive & Hrecord & _); [vm_compute; reflexivity ..|].
  split; assumption.
Defined.

Lemma decode_complete_frame_witness :
  wellFormed Len7 (Some hiKey) hiWire /\
  hiWire = [105; 107]%N /\
  exists message,
    parseWebSocketFrame (wireFrame 0x81 Len7 (Some hiKey) hiWire ++ [7%N])
    = Returned (Some message) /\
    totalLength message = 8%N /\ payload message = Buffer_from "hi".
Proof.
  assert (Hwf : wellFormed Len7 (Some hiKey) hiWire)
    by (split; vm_compute; reflexivity).
  split; [exact Hwf|]. split; [reflexivity|].
  destruct (decode_complete_frame 0x81 Len7 (Some hiKey) hiWire [7%N] Hwf)
    as (message & Hparse & Htotal & _ & _ & _ & Hplain).
  exists message. split; [exact Hparse|]. split; [exact Htotal|].
  apply (Hplain hiKey); reflexivity.
Defined.

Lemma decode_incomplete_witness :
  parseWebSocketFrame (take 3 (wireFrame 0x81 Len7 (Some hiKey) hiWire)) = Returned None.
Proof.
  destruct (decode_incomplete (take 3 (wireFrame 0x81 Len7 (Some hiKey) hiWire))
              (drop 3 (wireFrame 0x81 Len7 (Some hiKey) hiWire))
              0x81 Len7 (Some hiKey) hiWire) as [Hnone _].
  - split; vm_compute; reflexivity.
  - vm_compute. discriminate.
  - vm_compute. reflexivity.
  - exact Hnone.
Defined.

Lemma scenario_status_then_setPercent_witness :
  exists s1 s2 shade,
    run default_config (boot None tick 0)
        [Upgrade 1 (Some "dGhlIHNhbXBsZSBub25jZQ=="%string) None;
         Data 1 (clientText hiKey status42_text)] = Some s1 /\
    shadesDB s1 !! "42"%string = Some shade /\
    currentPosition shade = JNum (Int 85) /\ rawPosition shade = JNum (Int 850) /\
    online shade = true /\
    connectedShades s1 !! "42"%string = Some 1%nat /\
    percentToCommand default_config (JNum (Int 50)) = Returned (Int 87) /\
    step default_config s1 (PostPosition "42" (Buffer_from position50_text))
    = Some (s2, Some (Json 200 sent87_text)) /\
    written <$> sockets s2 !! 1%nat
    = Some [Buffer_from (handshakeResponse "dGhlIHNhbXBsZSBub25jZQ==" None);
            [0x81; 26]%N ++ Buffer_from command87_text] /\
    String.length command87_text = 26%nat.
Proof.
  apply (scenario_status_then_setPercent tick hiKey); vm_compute; reflexivity.
Defined.

Lemma dispatch_offline_witness :
  postPosition default_config "42" (Buffer_from position50_text) (boot None tick 0)
  = (boot None tick 0, Json 200 (offlineReply "42")).
Proof.
  destruct (dispatch_offline default_config (boot None tick 0) "42"
              (Buffer_from position50_text) position50
              (JNum (Int 50)) JUndefined "50" "undefined") as [Hoffline _].
  - vm_compute. reflexivity.
  - vm_compute. reflexivity.
  - reflexivity.
  - reflexivity.
  - reflexivity.
  - reflexivity.
  - exact Hoffline.
Defined.

Lemma online_iff_live_session_witness :
  (exists shade,
     shadesDB (after oneStatus) !! "42"%string = Some shade /\
     (online shade = true <-> is_Some (connectedShades (after oneStatus) !! "42"%string))) /\
  (exists stored,
     shadesDB (after (oneStatus ++ [Restart])) !! "42"%string = Some stored /\
     online stored = true /\
     forall shade, shade ∈ getShades (after (oneStatus ++ [Restart])) -> online shade = false).
Proof.
  destruct (online_iff_live_session default_config None tick oneStatus (after oneStatus))
    as [Hagree Hlist].
  split.
  - eexists. split; [vm_compute; reflexivity|]. apply Hagree.
    + intros shades k shade Hfile. discriminate Hfile.
    + unfold oneStatus. rewrite !elem_of_cons, elem_of_nil. intuition discriminate.
    + vm_compute. reflexivity.
    + vm_compute. reflexivity.
  - eexists. split; [vm_compute; reflexivity|]. split; [reflexivity|].
    intros shade Hin.
    destruct (Hlist (after (oneStatus ++ [Restart]))) as (_ & _ & Hin').
    destruct (Hin' shade Hin) as [Hon _].
    destruct (online shade); [|reflexivity].
    destruct Hon as [Hon _]. destruct (Hon eq_refl) as [x Hx].
    vm_compute in Hx. discriminate Hx.
Defined.

Lemma handshake_accept_or_reject_witness :
  exists s', step default_config (boot None tick 0) (Upgrade 1 (Some "a"%string) None)
             = Some (s', None) /\
             sessions s' !! 1%nat = Some {| shadeChipID := None; buffer := [] |}.
Proof.
  destruct (handshake_accept_or_reject default_config (boot None tick 0) 1
              (Some "a"%string) None)
    as (s' & Hstep & Haccept); [vm_compute; reflexivity ..|].
  exists s'. split; [exact Hstep|].
  cbn in Haccept. destruct Haccept as (before & rest & _ & Hsession). exact Hsession.
Defined.

Lemma falsy_identity_dropped_witness :
  step default_config (after [Upgrade 1 (Some "a"%string) None])
       (Data 1 (clientText hiKey position50_text))
  = Some (after [Upgrade 1 (Some "a"%string) None], None).
Proof.
  destruct (falsy_identity_dropped default_config
              (after [Upgrade 1 (Some "a"%string) None]) 1
              {| shadeChipID := None; buffer := [] |} 0x81 Len7 (Some hiKey)
              (masked hiKey (Buffer_from position50_text)) position50) as [_ Hstep];
    [..|exact Hstep].
  - vm_compute. reflexivity.
  - vm_compute. reflexivity.
  - vm_compute. reflexivity.
  - reflexivity.
  - split; vm_compute; reflexivity.
  - left. reflexivity.
  - vm_compute. reflexivity.
  - intros id Hget. vm_compute in Hget. injection Hget as <-. reflexivity.
Defined.

(** ** The further theorems at concrete inputs *)

Lemma percentToCommand_range_witness :
  percentToCommand default_config (JNum (Int 0)) = Returned (Int 73) /\
  percentToCommand default_config (JNum (Int 100)) = Returned (Int 100).
Proof.
  destruct (percentToCommand_range default_config) as (Hmin & Hmax & _);
    [unfold moderate; cbn; lia ..|]. split; assumption.
Defined.

Lemma commandToPercent_range_witness :
  commandToPercent default_config (JNum (Int 73)) = Returned (Int 0) /\
  commandToPercent default_config (JNum (Int 100)) = Returned (Int 100).
Proof.
  destruct (commandToPercent_range default_config) as (Hmin & Hmax & _);
    [unfold moderate; cbn; lia ..|]. split; assumption.
Defined.

Lemma command_roundTrip_witness :
  exists q, commandToPercent default_config (JNum (Int 87)) = Returned (Int q) /\
            0 <= q <= 100 /\
            percentToCommand default_config (JNum (Int q)) = Returned (Int 87).
Proof. apply (command_roundTrip default_config 87); unfold moderate; cbn; lia. Defined.

Lemma positionToPercent_nearest_witness :
  exists q, positionToPercent (JNum (Int 855)) = Returned (Int q) /\
            10 * q - 5 <= 855 < 10 * q + 5 /\
            (0 <= 855 <= 1000 -> 0 <= q <= 100).
Proof. apply (positionToPercent_nearest 855). vm_compute. discriminate. Defined.

Lemma encode_decode_witness :
  parseWebSocketFrame (encodeFrame (Buffer_from "hi") 1 ++ [7%N])
  = Returned (Some {| opcode := 1; payload := Buffer_from "hi";
                      totalLength := blen (encodeFrame (Buffer_from "hi") 1) |}).
Proof.
  destruct (encode_decode (Buffer_from "hi") [7%N] 1) as [Hparse _];
    [reflexivity|reflexivity|exact Hparse].
Defined.

Lemma ping_answered_witness :
  exists s',
    step default_config (after handshaken)
         (Data 1 (wireFrame 0x89 Len7 (Some hiKey) hiWire)) = Some (s', None) /\
    parseWebSocketFrame (encodeFrame (Buffer_from "hi") 0xA%N)
    = Returned (Some {| opcode := 0xA%N; payload := Buffer_from "hi";
                        totalLength := 4%N |}).
Proof.
  destruct (ping_answered default_config (after handshaken) 1
              {| shadeChipID := None; buffer := [] |}
              {| destroyed := false; ended := false;
                 written := [Buffer_from (handshakeResponse "a" None)] |}
              (wireFrame 0x89 Len7 (Some hiKey) hiWire) 0x89 Len7 (Some hiKey) hiWire)
    as [Hstep Hpong].
  - vm_compute. reflexivity.
  - vm_compute. reflexivity.
  - vm_compute. reflexivity.
  - vm_compute. reflexivity.
  - reflexivity.
  - reflexivity.
  - split; vm_compute; reflexivity.
  - reflexivity.
  - eexists. split; [exact Hstep|exact Hpong].
Defined.

Lemma close_frame_ends_witness :
  exists s',
    step default_config (after handshaken)
         (Data 1 (wireFrame 0x88 Len7 (Some hiKey) [] ++ [7%N])) = Some (s', None) /\
    sessions s' !! 1%nat = Some {| shadeChipID := None; buffer := [7%N] |} /\
    ended <$> sockets s' !! 1%nat = Some true.
Proof.
  destruct (close_frame_ends default_config (after handshaken) 1
              {| shadeChipID := None; buffer := [] |}
              (wireFrame 0x88 Len7 (Some hiKey) [] ++ [7%N]) 0x88 Len7 (Some hiKey) [] [7%N])
    as (s' & Hstep & Hsession & Hended & _).
  - vm_compute. reflexivity.
  - vm_compute. reflexivity.
  - vm_compute. reflexivity.
  - reflexivity.
  - split; vm_compute; reflexivity.
  - reflexivity.
  - exists s'. split; [exact Hstep|]. split; [exact Hsession|exact Hended].
Defined.

Lemma other_opcodes_dropped_witness :
  step default_config (after handshaken) (Data 1 (wireFrame 0x8A Len7 (Some hiKey) hiWire))
  = Some (set_buffer 1 [] (after handshaken), None).
Proof.
  apply (other_opcodes_dropped default_config (after handshaken) 1
           {| shadeChipID := None; buffer := [] |} _ 0x8A Len7 (Some hiKey) hiWire).
  - vm_compute. reflexivity.
  - vm_compute. reflexivity.
  - vm_compute. reflexivity.
  - reflexivity.
  - split; vm_compute; reflexivity.
  - vm_compute. discriminate.
  - vm_compute. discriminate.
  - vm_compute. discriminate.
  - vm_compute. discriminate.
Defined.

Lemma malformed_payload_dropped_witness :
  step default_config (after handshaken) (Data 1 (wireFrame 0x81 Len7 (Some hiKey) hiWire))
  = Some (set_buffer 1 [] (after handshaken), None).
Proof.
  apply (malformed_payload_dropped default_config (after handshaken) 1
           {| shadeChipID := None; buffer := [] |} _ 0x81 Len7 (Some hiKey) hiWire).
  - vm_compute. reflexivity.
  - vm_compute. reflexivity.
  - vm_compute. reflexivity.
  - reflexivity.
  - split; vm_compute; reflexivity.
  - left. reflexivity.
  - vm_compute. reflexivity.
Defined.

Lemma chunks_concatenate_witness :
  onData 1 (drop 5 (clientText hiKey status42_text))
         (onData 1 (take 5 (clientText hiKey status42_text)) (after handshaken))
  = onData 1 (clientText hiKey status42_text) (after handshaken).
Proof.
  rewrite <- (take_drop 5 (clientText hiKey status42_text)) at 3.
  apply chunks_concatenate.
  - vm_compute. eexists. reflexivity.
  - vm_compute. reflexivity.
Defined.

(** The status [{"chipID":42,"position":{"toString":1}}] on a fresh
    connection: the handler of the frame ends in the catch clause. *)
Example unreadable_status_run :
  @run unreadableRuntime default_config (boot None tick 0)
       [Upgrade 1 (Some "a"%string) None; Data 1 (clientText hiKey unreadable_text)]
  = Some (set_buffer 1 []
            (ingestStatus 1 "42" JUndefined JUndefined unreadablePosition (after handshaken))).
Proof. vm_compute. reflexivity. Qed.

Lemma status_saved_unless_thrown_witness :
  positionToPercent unreadablePosition = Thrown "TypeError" /\
  dataFile (ingestStatus 1 "42" JUndefined JUndefined unreadablePosition (after handshaken))
  = None /\
  published (ingestStatus 1 "42" JUndefined JUndefined unreadablePosition (after handshaken))
  = [] /\
  connectedShades (ingestStatus 1 "42" JUndefined JUndefined unreadablePosition
                                (after handshaken)) !! "42"%string = Some 1%nat /\
  shadesDB (ingestStatus 1 "42" JUndefined JUndefined unreadablePosition
                         (after handshaken)) !! "42"%string
  = Some {| chipID := "42"; name := "LinkShade 42"; firstSeen := 1000; lastSeen := 1001;
            online := true; model := JUndefined; firmware := JUndefined;
            rawPosition := unreadablePosition; currentPosition := JUndefined |}.
Proof.
  pose proof (status_saved_unless_thrown 1 "42" JUndefined JUndefined unreadablePosition
                (after handshaken)) as Hs.
  cbv zeta in Hs.
  change (positionToPercent unreadablePosition) with (@Thrown JSNumber "TypeError") in Hs.
  cbv iota beta in Hs.
  destruct Hs as (Hfile & Hpub & Hlive & _ & Hnew).
  destruct Hnew as [Hrecord _].
  - vm_compute. reflexivity.
  - unfold objectPrototypeMembers. rewrite !elem_of_cons, elem_of_nil. intuition discriminate.
  - split; [reflexivity|]. split; [rewrite Hfile; reflexivity|].
    split; [rewrite Hpub; reflexivity|]. split; [exact Hlive|].
    rewrite Hrecord. vm_compute. reflexivity.
Defined.

Lemma records_kept_witness :
  exists shade', shadesDB (after (oneStatus ++ [Close 1])) !! "42"%string = Some shade' /\
                 chipID shade' = "42"%string /\ name shade' = "LinkShade 42"%string /\
                 firstSeen shade' = 1000.
Proof.
  destruct (records_kept default_config [Close 1] (after oneStatus)
              (after (oneStatus ++ [Close 1])) "42"
              {| chipID := "42"; name := "LinkShade 42"; firstSeen := 1000; lastSeen := 1001;
                 online := true; model := JStr "wired"; firmware := JNum (Int 24);
                 rawPosition := JNum (Int 850); currentPosition := JNum (Int 85) |})
    as (shade' & Hk & Hsame).
  - rewrite !elem_of_cons, elem_of_nil. intuition discriminate.
  - vm_compute. reflexivity.
  - vm_compute. reflexivity.
  - exists shade'. split; [exact Hk|exact Hsame].
Defined.

Lemma records_keyed_witness :
  exists shade, shadesDB (after (oneStatus ++ [Restart])) !! "42"%string = Some shade /\
                chipID shade = "42"%string /\ name shade = "LinkShade 42"%string.
Proof.
  eexists. split; [vm_compute; reflexivity|].
  apply (records_keyed default_config tick (oneStatus ++ [Restart])
           (after (oneStatus ++ [Restart])) "42"); vm_compute; reflexivity.
Defined.

Lemma live_identity_recorded_witness :
  is_Some (shadesDB (after rebinding) !! "42"%string) \/
  "42"%string ∈ objectPrototypeMembers.
Proof.
  apply (live_identity_recorded default_config None tick rebinding (after rebinding) "42" 2);
    vm_compute; reflexivity.
Defined.

Lemma status_published_as_stored_witness :
  published (ingestStatus 1 "42" (JStr "wired") (JNum (Int 24)) (JNum (Int 850))
                          (after [MqttConnection true; Upgrade 1 (Some "a"%string) None]))
  = [PubDiscovery "42"; PubPosition "42" "85"; PubAvailable "42" true].
Proof.
  destruct (status_published_as_stored
              (after [MqttConnection true; Upgrade 1 (Some "a"%string) None]) 1 "42"
              (JStr "wired") (JNum (Int 24)) (JNum (Int 850))
              {| chipID := "42"; name := "LinkShade 42"; firstSeen := 1000; lastSeen := 1001;
                 online := true; model := JStr "wired"; firmware := JNum (Int 24);
                 rawPosition := JNum (Int 850); currentPosition := JNum (Int 85) |})
    as (_ & _ & Hpub).
  - vm_compute. reflexivity.
  - change (positionToPercent (JNum (Int 850))) with (Returned (Int 85)) in Hpub.
    cbv iota beta in Hpub. destruct Hpub as [_ Hpub]. rewrite Hpub. reflexivity.
Defined.

Lemma dispatch_only_writes_witness :
  exists s' so frame,
    step default_config (after oneStatus) (PostPosition "42" (Buffer_from position50_text))
    = Some (s', Some (Json 200 sent87_text)) /\
    sockets (after oneStatus) !! 1%nat = Some so /\
    s' = set_sockets <[1%nat := wrote so frame]> (after oneStatus).
Proof.
  destruct (dispatch_only_writes default_config (after oneStatus)
              (after (oneStatus ++ [PostPosition "42" (Buffer_from position50_text)]))
              (PostPosition "42" (Buffer_from position50_text)) "42"
              (Buffer_from position50_text) (Int 50) (Some (Json 200 sent87_text)))
    as [Hsame|(ws & so & frame & Hws & Hso & _ & _ & Hs')].
  - left. reflexivity.
  - vm_compute. reflexivity.
  - exfalso. apply (f_equal (fun s => written <$> sockets s !! 1%nat)) in Hsame.
    vm_compute in Hsame. discriminate Hsame.
  - assert (Hone : ws = 1%nat) by (vm_compute in Hws; congruence). subst ws.
    exists (after (oneStatus ++ [PostPosition "42" (Buffer_from position50_text)])), so, frame.
    split; [vm_compute; reflexivity|]. split; [exact Hso|exact Hs'].
Defined.

Lemma position_delivered_witness :
  exists frame,
    written <$> sockets (fst (postPosition default_config "42" (Buffer_from position50_text)
                                           (after oneStatus))) !! 1%nat
    = Some [Buffer_from (handshakeResponse "a" None); frame] /\
    parseWebSocketFrame frame
    = Returned (Some {| opcode := 1; payload := Buffer_from command87_text;
                        totalLength := blen frame |}).
Proof.
  destruct (position_delivered default_config (after oneStatus) "42"
              (Buffer_from position50_text) position50 (JNum (Int 50)) "50" 1
              {| destroyed := false; ended := false;
                 written := [Buffer_from (handshakeResponse "a" None)] |})
    as (command & frame & Hcmd & Hpost & Hparse & _).
  - vm_compute. reflexivity.
  - reflexivity.
  - reflexivity.
  - vm_compute. reflexivity.
  - vm_compute. reflexivity.
  - reflexivity.
  - reflexivity.
  - intros command Hcmd. vm_compute in Hcmd. injection Hcmd as <-. vm_compute. reflexivity.
  - vm_compute in Hcmd. injection Hcmd as <-.
    exists frame. split; [|exact Hparse].
    rewrite Hpost. cbn [set_sockets sockets]. rewrite lookup_insert_eq. reflexivity.
Defined.

Lemma sent_without_delivery_witness :
  exists text,
    postPosition default_config "42" (Buffer_from position50_text)
                 (after statusThenCloseFrame)
    = (after statusThenCloseFrame, Json 200 text) /\
    String.prefix sentHead text = true.
Proof.
  destruct (sent_without_delivery default_config (after statusThenCloseFrame) "42"
              (Buffer_from position50_text) position50
              (JNum (Int 50)) JUndefined "50" "undefined" 1
              {| destroyed := false; ended := true;
                 written := [Buffer_from (handshakeResponse "a" None)] |})
    as (t1 & _ & _ & Hpost & _ & _ & Hhead & _).
  - vm_compute. reflexivity.
  - vm_compute. reflexivity.
  - reflexivity.
  - vm_compute. reflexivity.
  - reflexivity.
  - reflexivity.
  - reflexivity.
  - reflexivity.
  - exists t1. split; [exact Hpost|exact Hhead].
Defined.

Lemma missing_position_sends_null_witness :
  @percentToCommand emptyObjectRuntime default_config JUndefined = Returned NaN /\
  @postPosition emptyObjectRuntime default_config "42" (Buffer_from "{}") (after oneStatus)
  = (@sendWebSocketFrame 1
       (Buffer_from ("{" +:+ quote "chipID" +:+ ":42," +:+ quote "command" +:+ ":null}"))
       1 (after oneStatus),
     Json 200 (sentHead +:+ "," +:+ quote "chipID" +:+ ":" +:+ quote "42" +:+ ","
                        +:+ quote "command" +:+ ":null}")).
Proof.
  destruct (@missing_position_sends_null emptyObjectRuntime default_config (after oneStatus)
              "42" (Buffer_from "{}") [] 1) as (Hnan & Hpost & Hid).
  - vm_compute. reflexivity.
  - reflexivity.
  - vm_compute. reflexivity.
  - split; [exact Hnan|]. rewrite Hpost. reflexivity.
Defined.

Lemma decode_sound_witness :
  opcode (decoded 0x81 Len7 (Some hiKey) hiWire) = 1%N /\
  totalLength (decoded 0x81 Len7 (Some hiKey) hiWire) = (2 + 4 + 2)%N /\
  payload (decoded 0x81 Len7 (Some hiKey) hiWire) = masked hiKey hiWire /\
  parseWebSocketFrame (take 8 (wireFrame 0x81 Len7 (Some hiKey) hiWire ++ [7%N]) ++ [9%N])
  = Returned (Some (decoded 0x81 Len7 (Some hiKey) hiWire)).
Proof.
  pose proof (decode_sound (wireFrame 0x81 Len7 (Some hiKey) hiWire ++ [7%N])
                (decoded 0x81 Len7 (Some hiKey) hiWire)) as Hs.
  cbv zeta in Hs.
  destruct Hs as (Hop & _ & Htotal & _ & Hpay & Hcut).
  - vm_compute. reflexivity.
  - split; [exact Hop|]. split; [rewrite Htotal; vm_compute; reflexivity|].
    split; [rewrite Hpay; vm_compute; reflexivity|]. exact (Hcut [9%N]).
Defined.

Lemma teardown_publishes_zero_witness :
  published (after (oneStatusMqtt ++ [Close 1]))
  = published (after oneStatusMqtt) ++ [PubPosition "42" "0"; PubAvailable "42" false].
Proof.
  destruct (teardown_publishes_zero default_config (after oneStatusMqtt)
              (after (oneStatusMqtt ++ [Close 1])) 1
              {| shadeChipID := Some "42"%string; buffer := [] |} "42" None)
    as [Hpub _]; [vm_compute; reflexivity ..|exact Hpub].
Defined.
